(** * cors-diagnoser: a shallow embedding of the analyzer core

    The development follows the layout of the TypeScript sources:

    - [Js]               the JavaScript built-ins the code relies on
                         (string methods, [Array.prototype.sort], exceptions);
    - [Utils]            src/core/utils.ts;
    - [CodeGenerator]    src/core/codeGenerator.ts;
    - [PatternMatcher]   src/core/patternMatcher.ts (the pattern catalog);
    - [SecurityAdvisor]  src/core/securityAdvisor.ts;
    - [Analyzer]         src/backend/analyzer.ts;
    - [ExpressMiddleware] src/backend/expressMiddleware.ts (the error
                         history).

    Two things of the platform are parameters: the [URL] parser that one
    detector of the catalog calls, and [localeCompare], by which the error
    history sorts diagnoses.

    Definitions come first, the theorems about them follow. *)

From Stdlib Require Import ZArith NArith Ascii String DecimalString Sorted Permutation.
From stdpp Require Import gmap strings list.

Open Scope string_scope.
Open Scope list_scope.

(* ===================================================================== *)
(** * JavaScript built-ins *)
(* ===================================================================== *)

Module Js.

(** ** Exceptions

    A computation either returns a value or throws.  The only exception the
    modelled code can raise by itself is the [TypeError] of a method call on
    a value that does not have the method. *)

Inductive Error := TypeError.

Inductive result (A : Type) :=
| Ok (a : A)
| Throw (e : Error).
Arguments Ok {A} a.
Arguments Throw {A} e.

Definition bind {A B} (m : result A) (k : A -> result B) : result B :=
  match m with
  | Ok a => k a
  | Throw e => Throw e
  end.

#[export] Instance result_ret : MRet result := fun A a => Ok a.
#[export] Instance result_bind : MBind result := fun A B k m => bind m k.

(** [try { m } catch { h }] *)
Definition try_catch {A} (m : result A) (h : A) : A :=
  match m with
  | Ok a => a
  | Throw _ => h
  end.

(** ** Strings

    A JavaScript string is a sequence of UTF-16 code units; it is modelled
    by [string], one [ascii] per code unit, which covers the code units
    below 256 (ASCII and Latin-1: what an HTTP header can carry).  Case
    mapping is exact on these code units but for U+00B5 and U+00FF under
    [toUpperCase]: their upper-case forms lie above 255, the model leaves
    them as they are. *)

Definition chars (s : string) : list ascii := list_ascii_of_string s.
Definition str (l : list ascii) : string := string_of_list_ascii l.

Definition code (c : ascii) : N := N_of_ascii c.

Definition lower_char (c : ascii) : ascii :=
  let n := code c in
  if ((65 <=? n) && (n <=? 90) || (192 <=? n) && (n <=? 222) && negb (n =? 215))%N
  then ascii_of_N (n + 32) else c.

(** The upper-case form of a code unit; U+00DF maps to two code units. *)
Definition upper_chars (c : ascii) : list ascii :=
  let n := code c in
  if ((97 <=? n) && (n <=? 122) || (224 <=? n) && (n <=? 254) && negb (n =? 247))%N
  then [ascii_of_N (n - 32)]
  else if (n =? 223)%N then ["S"%char; "S"%char]
  else [c].

Definition toLowerCase (s : string) : string := str (List.map lower_char (chars s)).
Definition toUpperCase (s : string) : string := str (flat_map upper_chars (chars s)).

(** All code units of the string are ASCII. *)
Definition ascii_only (s : string) : bool :=
  forallb (fun c => (code c <? 128)%N) (chars s).

(** The upper-case form of an ASCII code unit is one code unit. *)
Definition upper_char (c : ascii) : ascii :=
  match upper_chars c with
  | [d] => d
  | _ => c
  end.

(** White space and line terminators, as [String.prototype.trim] sees them
    among the code units below 256. *)
Definition isWhiteSpace (c : ascii) : bool :=
  let n := code c in
  (n =? 9)%N || (n =? 10)%N || (n =? 11)%N || (n =? 12)%N || (n =? 13)%N
  || (n =? 32)%N || (n =? 160)%N.

Fixpoint trimStart_l (l : list ascii) : list ascii :=
  match l with
  | c :: l' => if isWhiteSpace c then trimStart_l l' else l
  | [] => []
  end.

Definition trimEnd_l (l : list ascii) : list ascii := rev (trimStart_l (rev l)).

Definition trim_l (l : list ascii) : list ascii := trimEnd_l (trimStart_l l).

Definition trim (s : string) : string := str (trim_l (chars s)).

Fixpoint startsWith_l (l p : list ascii) : bool :=
  match p, l with
  | [], _ => true
  | c :: p', d :: l' => if Ascii.eqb c d then startsWith_l l' p' else false
  | _ :: _, [] => false
  end.

Definition endsWith_l (l p : list ascii) : bool := startsWith_l (rev l) (rev p).

Definition endsWith (s p : string) : bool := endsWith_l (chars s) (chars p).

(** [s.includes(p)]: [p] occurs in [s] as a substring. *)
Fixpoint includes_l (l p : list ascii) : bool :=
  startsWith_l l p ||
  match l with
  | [] => false
  | _ :: l' => includes_l l' p
  end.

Definition includes (s p : string) : bool := includes_l (chars s) (chars p).

(** [s.slice(0, -1)]: all but the last code unit. *)
Definition slice_0_m1 (s : string) : string := str (removelast (chars s)).

(** [s.split(sep)] for a separator of one code unit; the result is never
    empty ([""] splits into [[""]]). *)
Fixpoint split_l (sep : ascii) (l : list ascii) : list (list ascii) :=
  match l with
  | [] => [[]]
  | c :: l' =>
      if Ascii.eqb c sep then [] :: split_l sep l'
      else match split_l sep l' with
           | w :: ws => (c :: w) :: ws
           | [] => [[c]]
           end
  end.

Definition split (s : string) (sep : ascii) : list string :=
  List.map str (split_l sep (chars s)).

(** [a.join(sep)] *)
Fixpoint join (sep : string) (a : list string) : string :=
  match a with
  | [] => ""
  | [s] => s
  | s :: a' => s +:+ sep +:+ join sep a'
  end.

(** [a.includes(x)] on an array of strings. *)
Definition array_includes (a : list string) (x : string) : bool :=
  existsb (String.eqb x) a.

(** ** Numbers

    The modelled code reads a number in three ways only: by [===], by
    [toString()] and by [JSON.stringify].  All three are functions of the
    string that [toString()] returns: [Number::toString] gives different
    strings for different numbers, except for [+0] and [-0], which [===]
    does not tell apart either.  So a number is modelled by that string:
    ["600"], ["0.5"], ["1e+21"], ["-Infinity"], ["NaN"]. *)

Record number := Num { rendering : string }.

Definition NaN : number := Num "NaN".

Definition isNaN (n : number) : bool := rendering n =? "NaN".

(** [===] on numbers: [NaN] differs from itself. *)
Definition number_eqb (a b : number) : bool :=
  negb (isNaN a) && (rendering a =? rendering b).

(** [n.toString()] *)
Definition number_toString (n : number) : string := rendering n.

(** [JSON.stringify(n)]: a number that is not finite gives [null]. *)
Definition number_toJSON (n : number) : string :=
  if isNaN n || (rendering n =? "Infinity") || (rendering n =? "-Infinity")
  then "null" else rendering n.

Definition Z_toString (z : Z) : string := NilZero.string_of_int (Z.to_int z).

(** The number of an integer [z] of magnitude at most 2^53, where
    [toString()] returns the decimal digits of [z]. *)
Definition Int (z : Z) : number := Num (Z_toString z).

Definition isDigit (c : ascii) : bool := (48 <=? code c)%N && (code c <=? 57)%N.

Fixpoint digits_value (acc : Z) (l : list ascii) : Z :=
  match l with
  | c :: l' =>
      if isDigit c then digits_value (10 * acc + Z.of_N (code c - 48))%Z l' else acc
  | [] => acc
  end.

(** [parseInt(s, 10)]: leading white space is skipped, an optional sign is
    read, then the longest run of decimal digits; no digit gives [NaN].
    (The digits read stand for themselves, see [Int].) *)
Definition parseInt10 (s : string) : number :=
  let l := trimStart_l (chars s) in
  let '(neg, l) :=
    match l with
    | c :: l' =>
        if Ascii.eqb c "-" then (true, l')
        else if Ascii.eqb c "+" then (false, l')
        else (false, l)
    | [] => (false, l)
    end in
  match l with
  | c :: _ =>
      if isDigit c
      then Int (if neg then - digits_value 0 l else digits_value 0 l)%Z
      else NaN
  | [] => NaN
  end.

(** ** [Array.prototype.sort]

    The sort is stable (ECMAScript 2019).  [sort_by le] is the stable
    insertion sort along [le a b], read as the comparator not putting
    [b] before [a]. *)
Section Sort.
Context {A : Type} (le : A -> A -> bool).

Fixpoint insert_sorted (x : A) (l : list A) : list A :=
  match l with
  | [] => [x]
  | y :: l' => if le x y then x :: l else y :: insert_sorted x l'
  end.

Definition sort_by (l : list A) : list A := foldr insert_sorted [] l.
End Sort.

(** The default comparator on strings: code unit order. *)
Definition sort_strings (a : list string) : list string := sort_by String.leb a.

(** ** [JSON.stringify] *)

Definition quote : ascii := ascii_of_N 34.
Definition backslash : ascii := ascii_of_N 92.

Definition hex_digit (n : N) : ascii :=
  if (n <? 10)%N then ascii_of_N (48 + n) else ascii_of_N (87 + n).

Definition json_escape_char (c : ascii) : list ascii :=
  let n := code c in
  if (n =? 34)%N then [backslash; quote]
  else if (n =? 92)%N then [backslash; backslash]
  else if (n =? 8)%N then [backslash; "b"%char]
  else if (n =? 12)%N then [backslash; "f"%char]
  else if (n =? 10)%N then [backslash; "n"%char]
  else if (n =? 13)%N then [backslash; "r"%char]
  else if (n =? 9)%N then [backslash; "t"%char]
  else if (n <? 32)%N then
    [backslash; "u"%char; "0"%char; "0"%char; hex_digit (n / 16); hex_digit (n mod 16)]
  else [c].

Definition json_string (s : string) : string :=
  str (quote :: flat_map json_escape_char (chars s) ++ [quote]).

(** [JSON.stringify(a)] for an array of strings. *)
Definition json_array (a : list string) : string :=
  "[" +:+ join "," (List.map json_string a) +:+ "]".

(** [JSON.stringify(a, null, 2)] for an array of strings. *)
Definition json_array_pretty (a : list string) : string :=
  match a with
  | [] => "[]"
  | _ =>
      let nl := String (ascii_of_N 10) "" in
      "[" +:+ nl +:+
      join ("," +:+ nl) (List.map (fun s => "  " +:+ json_string s) a)
      +:+ nl +:+ "]"
  end.

End Js.

Export Js.


(* ===================================================================== *)
(** * src/core/utils.ts *)
(* ===================================================================== *)

Module Utils.

(** A header value as a header map holds it at run time.  The maps are
    declared [Map<string, string>], but the bag of [res.getHeaders()] also
    carries numbers (Node's [OutgoingHttpHeader] is
    [number | string | string[]]) and reaches [parseHeaders] through a
    cast, so a number can sit where the types promise a string. *)
Inductive HeaderValue :=
| HStr (s : string)
| HNum (n : Z).

(** One entry of a raw header bag: [string | string[] | undefined], and
    the number of an outgoing header. *)
Inductive RawValue :=
| RUndefined
| RValue (v : HeaderValue)
| RArray (a : list string).

(** A raw header bag, as [Object.entries] enumerates it. *)
Definition RawHeaders : Type := list (string * RawValue).

Abbreviation HeaderMap := (gmap string HeaderValue).

(** The part of an Express request and response the analysis reads. *)
Record Request := { method : string; headers : RawHeaders }.
Record Response := { getHeaders : RawHeaders }.

(** JavaScript truthiness of a header value, and of [value | undefined]. *)
Definition truthy (v : HeaderValue) : bool :=
  match v with
  | HStr s => negb (s =? "")
  | HNum n => negb (n =? 0)%Z
  end.

Definition truthy_opt (o : option HeaderValue) : bool :=
  match o with
  | Some v => truthy v
  | None => false
  end.

(** [v === s] for a string literal [s]. *)
Definition is_string (o : option HeaderValue) (s : string) : bool :=
  match o with
  | Some (HStr s') => s' =? s
  | _ => false
  end.

(** String conversion, as a template literal applies it. *)
Definition to_string (v : HeaderValue) : string :=
  match v with
  | HStr s => s
  | HNum n => Z_toString n
  end.

(** A method call on a header value: a number has none of the string
    methods, the call throws. *)
Definition as_string (v : HeaderValue) : result string :=
  match v with
  | HStr s => Ok s
  | HNum _ => Throw TypeError
  end.

(** [normalizeOrigin] on its declared domain [string | undefined | null];
    [None] stands for both [undefined] and [null]. *)
Definition normalizeOrigin (origin : option string) : string :=
  match origin with
  | None => ""
  | Some origin =>
      if origin =? "" then ""
      else
        let normalized := toLowerCase (trim origin) in
        (* Remove trailing slash *)
        if endsWith normalized "/" then slice_0_m1 normalized else normalized
  end.

(** The call [normalizeOrigin(v)] on a value read from a header map: on a
    number that is not zero, [origin.trim] is not a function. *)
Definition normalizeOrigin_value (v : option HeaderValue) : result string :=
  match v with
  | None => Ok (normalizeOrigin None)
  | Some (HStr s) => Ok (normalizeOrigin (Some s))
  | Some (HNum n) => if (n =? 0)%Z then Ok "" else Throw TypeError
  end.

(** [Array.isArray(value) ? value[0] : value] *)
Definition first_value (value : RawValue) : option HeaderValue :=
  match value with
  | RArray a => HStr <$> head a
  | RValue v => Some v
  | RUndefined => None
  end.

(** One turn of the loop over [Object.entries(headers)]. *)
Definition parseHeaders_step (headerMap : HeaderMap) (entry : string * RawValue)
  : HeaderMap :=
  let '(key, value) := entry in
  match value with
  | RUndefined => headerMap
  | _ =>
      let normalizedKey := toLowerCase key in
      let stringValue := first_value value in
      match stringValue with
      | Some v => if truthy v then <[normalizedKey := v]> headerMap else headerMap
      | None => headerMap
      end
  end.

Definition parseHeaders (headers : option RawHeaders) : HeaderMap :=
  match headers with
  | None => ∅
  | Some entries => fold_left parseHeaders_step entries ∅
  end.

Definition has (m : HeaderMap) (k : string) : bool := bool_decide (is_Some (m !! k)).

Definition isPreflightRequest (req : Request) : bool :=
  if negb (method req =? "OPTIONS") then false
  else
    let headers := parseHeaders (Some (headers req)) in
    let hasRequestMethod := has headers "access-control-request-method" in
    let hasRequestHeaders := has headers "access-control-request-headers" in
    hasRequestMethod || hasRequestHeaders.

(** ** Vocabulary of the statements about the header normalizer *)

(** The origin does not end in white space nor in a slash. *)
Definition ends_clean (O : string) : bool :=
  match rev (chars O) with
  | [] => true
  | c :: _ => negb (isWhiteSpace c) && negb (Ascii.eqb "/" c)
  end.

(** The raw value is the empty string, or an array that starts with it. *)
Definition empty_valued (value : RawValue) : bool :=
  match value with
  | RValue (HStr s) => s =? ""
  | RArray (s :: _) => s =? ""
  | _ => false
  end.

(** The bag has the type that [parseHeaders] declares: no number in it. *)
Definition strings_only (headers : RawHeaders) : bool :=
  forallb (fun '(_, value) => match value with RValue (HNum _) => false | _ => true end)
          headers.

(** The bag without its entries of empty value. *)
Definition without_empty_values (headers : RawHeaders) : RawHeaders :=
  List.filter (fun entry => negb (empty_valued entry.2)) headers.

End Utils.

Export Utils.

(* ===================================================================== *)
(** * src/core/codeGenerator.ts *)
(* ===================================================================== *)

Module CodeGenerator.

Record CodeExample := { language : string; code : string; description : string }.

(** The context of a code example.  [origin] is a header value of the
    request; it is only ever interpolated into a template. *)
Record CodeContext := {
  origin : option HeaderValue;
  origins : option (list string);
  methods : option (list string);
  headers : option (list string);
  credentials : option bool;
  issue : option string
}.

Definition emptyContext : CodeContext :=
  {| origin := None; origins := None; methods := None; headers := None;
     credentials := None; issue := None |}.

Definition nonempty (s : string) : bool := negb (s =? "").

Definition generateExpressExample (issue : string) (context : CodeContext)
  : CodeExample :=
  let origin := origin context in
  let origins := origins context in
  let methods := methods context in
  let headers := headers context in
  (* [origin || d] inside a template *)
  let origin_or (d : string) : string :=
    match origin with
    | Some v => if truthy v then to_string v else d
    | None => d
    end in
  let '(code, description) :=
    if includes issue "wildcard" && includes issue "credentials" then
      let firstOrigin :=
        match origins ≫= head with
        | Some o => if nonempty o then o else "https://example.com"
        | None => "https://example.com"
        end in
      let specificOrigin :=
        match origin with
        | Some v => if truthy v then to_string v else firstOrigin
        | None => firstOrigin
        end in
      ("import cors from 'cors';
import express from 'express';

const app = express();

// Configure CORS with specific origin for credentials
app.use(cors({
  origin: '" +:+ specificOrigin +:+ "',
  credentials: true
}));

// Or with multiple origins:
app.use(cors({
  origin: ['https://example.com', 'https://app.example.com'],
  credentials: true
}));",
       "Configure CORS with specific origin when using credentials")
    else if includes issue "multiple" && includes issue "origin" then
      let originList :=
        default ["https://example.com"; "https://app.example.com"] origins in
      ("import cors from 'cors';
import express from 'express';

const app = express();

// Method 1: Use array of allowed origins
app.use(cors({
  origin: " +:+ (json_array_pretty originList) +:+ "
}));

// Method 2: Use dynamic origin validation
app.use(cors({
  origin: (origin, callback) => {
    const allowedOrigins = " +:+ (json_array_pretty originList) +:+ ";
    if (!origin || allowedOrigins.includes(origin)) {
      callback(null, true);
    } else {
      callback(new Error('Not allowed by CORS'));
    }
  }
}));",
       "Configure CORS to handle multiple origins correctly")
    else if includes issue "preflight" || includes issue "OPTIONS" then
      let allowedMethods := default ["GET"; "POST"; "PUT"; "DELETE"; "PATCH"] methods in
      let allowedHeaders := default ["Content-Type"; "Authorization"] headers in
      ("import cors from 'cors';
import express from 'express';

const app = express();

// Enable preflight for all routes
app.options('*', cors());

// Or configure CORS with specific methods and headers
app.use(cors({
  origin: '" +:+ (origin_or "https://example.com") +:+ "',
  methods: " +:+ (json_array allowedMethods) +:+ ",
  allowedHeaders: " +:+ (json_array allowedHeaders) +:+ ",
  preflightContinue: false,
  optionsSuccessStatus: 204
}));",
       "Configure CORS to handle preflight requests")
    else if includes issue "custom header"
            || includes issue "Access-Control-Allow-Headers" then
      let allowedHeaders :=
        default ["Content-Type"; "Authorization"; "X-Custom-Header"] headers in
      ("import cors from 'cors';
import express from 'express';

const app = express();

// Allow specific custom headers
app.use(cors({
  origin: '" +:+ (origin_or "https://example.com") +:+ "',
  allowedHeaders: " +:+ (json_array allowedHeaders) +:+ "
}));

// Or allow all requested headers (less secure)
app.use(cors({
  origin: '" +:+ (origin_or "https://example.com") +:+ "',
  allowedHeaders: '*'
}));",
       "Configure CORS to allow custom headers")
    else if includes issue "credentials" then
      ("import cors from 'cors';
import express from 'express';

const app = express();

// Enable credentials with specific origin
app.use(cors({
  origin: '" +:+ (origin_or "https://example.com") +:+ "',
  credentials: true
}));

// Note: Cannot use wildcard '*' with credentials
// Must specify exact origin(s)",
       "Configure CORS to allow credentials (cookies, auth headers)")
    else if includes issue "method" then
      let allowedMethods := default ["GET"; "POST"; "PUT"; "DELETE"] methods in
      ("import cors from 'cors';
import express from 'express';

const app = express();

// Allow specific HTTP methods
app.use(cors({
  origin: '" +:+ (origin_or "https://example.com") +:+ "',
  methods: " +:+ (json_array allowedMethods) +:+ "
}));",
       "Configure CORS to allow specific HTTP methods")
    else
      (* Default: basic CORS setup *)
      ("import cors from 'cors';
import express from 'express';

const app = express();

// Basic CORS - allows all origins
app.use(cors());

// Or with specific origin
app.use(cors({
  origin: '" +:+ (origin_or "https://example.com") +:+ "'
}));

// Or with multiple origins
app.use(cors({
  origin: ['https://example.com', 'https://app.example.com']
}));",
       "Basic CORS configuration for Express") in
  {| language := "typescript"; code := code; description := description |}.

End CodeGenerator.


(* ===================================================================== *)
(** * src/core/patternMatcher.ts *)
(* ===================================================================== *)

Module PatternMatcher.

(** What the detectors read of a parsed [URL]. *)
Record URLRecord := { hostname : string; port : string }.

Record ErrorPattern := {
  id : string;
  name : string;
  detector : Request -> Response -> result bool;
  explanation : string;
  solution : string;
  codeExample : string
}.

Section Catalog.

(** The WHATWG URL parser of the platform: [URL s] is [new URL(s)],
    [None] when the constructor throws. *)
Variable URL : string -> option URLRecord.

Definition new_URL (v : HeaderValue) : result URLRecord :=
  match URL (to_string v) with
  | Some u => Ok u
  | None => Throw TypeError
  end.

Definition detect_wildcard_credentials_conflict (_req : Request) (res : Response)
  : result bool :=
  let resHeaders := parseHeaders (Some (getHeaders res)) in
  let allowOrigin := resHeaders !! "access-control-allow-origin" in
  let allowCredentials := resHeaders !! "access-control-allow-credentials" in
  Ok (is_string allowOrigin "*" && is_string allowCredentials "true").

Definition detect_multiple_origins_misconfiguration (_req : Request) (res : Response)
  : result bool :=
  let resHeaders := parseHeaders (Some (getHeaders res)) in
  let allowOrigin := resHeaders !! "access-control-allow-origin" in
  match allowOrigin with
  | Some v =>
      if truthy v then s ← as_string v; Ok (includes s ",") else Ok false
  | None => Ok false
  end.

Definition detect_preflight_only_failure (req : Request) (res : Response)
  : result bool :=
  if negb (isPreflightRequest req) then Ok false
  else
    let resHeaders := parseHeaders (Some (getHeaders res)) in
    let hasAllowOrigin := has resHeaders "access-control-allow-origin" in
    let hasAllowMethods := has resHeaders "access-control-allow-methods" in
    Ok (negb hasAllowOrigin || negb hasAllowMethods).

Definition detect_custom_headers_not_allowed (req : Request) (res : Response)
  : result bool :=
  if negb (isPreflightRequest req) then Ok false
  else
    let reqHeaders := parseHeaders (Some (headers req)) in
    let resHeaders := parseHeaders (Some (getHeaders res)) in
    let requestedHeaders := reqHeaders !! "access-control-request-headers" in
    let allowedHeaders := resHeaders !! "access-control-allow-headers" in
    Ok (truthy_opt requestedHeaders && negb (truthy_opt allowedHeaders)).

Definition detect_missing_allow_origin (req : Request) (res : Response)
  : result bool :=
  let reqHeaders := parseHeaders (Some (headers req)) in
  let resHeaders := parseHeaders (Some (getHeaders res)) in
  let origin := reqHeaders !! "origin" in
  let allowOrigin := resHeaders !! "access-control-allow-origin" in
  Ok (truthy_opt origin && negb (truthy_opt allowOrigin)).

Definition detect_missing_allow_headers (req : Request) (res : Response)
  : result bool :=
  if negb (isPreflightRequest req) then Ok false
  else
    let reqHeaders := parseHeaders (Some (headers req)) in
    let resHeaders := parseHeaders (Some (getHeaders res)) in
    let requestedHeaders := reqHeaders !! "access-control-request-headers" in
    let allowedHeaders := resHeaders !! "access-control-allow-headers" in
    Ok (truthy_opt requestedHeaders && negb (truthy_opt allowedHeaders)).

Definition detect_missing_allow_methods (req : Request) (res : Response)
  : result bool :=
  if negb (isPreflightRequest req) then Ok false
  else
    let resHeaders := parseHeaders (Some (getHeaders res)) in
    let allowMethods := resHeaders !! "access-control-allow-methods" in
    Ok (negb (truthy_opt allowMethods)).

Definition detect_credentials_mismatch (req : Request) (res : Response)
  : result bool :=
  let reqHeaders := parseHeaders (Some (headers req)) in
  let resHeaders := parseHeaders (Some (getHeaders res)) in
  let hasCookies := has reqHeaders "cookie" in
  let allowCredentials := resHeaders !! "access-control-allow-credentials" in
  Ok (hasCookies && negb (is_string allowCredentials "true")).

Definition detect_origin_null_blocked (req : Request) (res : Response)
  : result bool :=
  let reqHeaders := parseHeaders (Some (headers req)) in
  let resHeaders := parseHeaders (Some (getHeaders res)) in
  let origin := reqHeaders !! "origin" in
  let allowOrigin := resHeaders !! "access-control-allow-origin" in
  Ok (is_string origin "null"
      && negb (is_string allowOrigin "null") && negb (is_string allowOrigin "*")).

Definition detect_port_mismatch (req : Request) (res : Response) : result bool :=
  let reqHeaders := parseHeaders (Some (headers req)) in
  let resHeaders := parseHeaders (Some (getHeaders res)) in
  let origin := reqHeaders !! "origin" in
  let allowOrigin := resHeaders !! "access-control-allow-origin" in
  match origin, allowOrigin with
  | Some o, Some a =>
      if negb (truthy o) || negb (truthy a) || is_string allowOrigin "*" then Ok false
      else
        Ok (try_catch
              (originUrl ← new_URL o;
               allowedUrl ← new_URL a;
               (* Same hostname but different port *)
               Ok ((hostname originUrl =? hostname allowedUrl)
                   && negb (port originUrl =? port allowedUrl)))
              false)
  | _, _ => Ok false
  end.

Definition pattern_wildcard_credentials_conflict : ErrorPattern :=
{| id := "wildcard-credentials-conflict";
   name := "Wildcard Origin with Credentials Conflict";
   detector := detect_wildcard_credentials_conflict;
   explanation :=
     "Access-Control-Allow-Origin is set to '*' (wildcard) while Access-Control-Allow-Credentials is 'true'. This combination is forbidden by the CORS specification. When credentials are included, you must specify an exact origin.";
   solution :=
     "Replace the wildcard '*' with the specific origin from the request, or disable credentials if you need to allow all origins.";
   codeExample :=
"// Instead of:
app.use(cors({ origin: '*', credentials: true }));

// Use:
app.use(cors({ 
  origin: 'https://example.com', // or use a function to validate origins
  credentials: true 
}));

// Or with dynamic origin:
app.use(cors({ 
  origin: (origin, callback) => {
    const allowedOrigins = ['https://example.com', 'https://app.example.com'];
    if (!origin || allowedOrigins.includes(origin)) {
      callback(null, true);
    } else {
      callback(new Error('Not allowed by CORS'));
    }
  },
  credentials: true 
}));" |}.

Definition pattern_multiple_origins_misconfiguration : ErrorPattern :=
{| id := "multiple-origins-misconfiguration";
   name := "Multiple Origins Misconfiguration";
   detector := detect_multiple_origins_misconfiguration;
   explanation :=
     "Access-Control-Allow-Origin contains multiple origins separated by commas. The CORS specification only allows a single origin or '*' in this header. You cannot specify multiple origins directly.";
   solution :=
     "Use a function to dynamically return the appropriate origin based on the request, or use a CORS middleware that handles multiple origins.";
   codeExample :=
"// Instead of:
res.setHeader('Access-Control-Allow-Origin', 'https://example.com, https://app.example.com');

// Use:
const allowedOrigins = ['https://example.com', 'https://app.example.com'];
const origin = req.headers.origin;
if (origin && allowedOrigins.includes(origin)) {
  res.setHeader('Access-Control-Allow-Origin', origin);
}

// Or with cors middleware:
app.use(cors({ 
  origin: ['https://example.com', 'https://app.example.com']
}));" |}.

Definition pattern_preflight_only_failure : ErrorPattern :=
{| id := "preflight-only-failure";
   name := "Preflight Request Failure";
   detector := detect_preflight_only_failure;
   explanation :=
     "The preflight OPTIONS request is missing required CORS headers. Preflight requests must include Access-Control-Allow-Origin and Access-Control-Allow-Methods headers in the response.";
   solution :=
     "Ensure your server responds to OPTIONS requests with the appropriate CORS headers, or use a CORS middleware that handles preflight automatically.";
   codeExample :=
"// Add OPTIONS handler before your routes:
app.options('*', cors());

// Or handle manually:
app.options('/api/*', (req, res) => {
  res.setHeader('Access-Control-Allow-Origin', req.headers.origin || '*');
  res.setHeader('Access-Control-Allow-Methods', 'GET, POST, PUT, DELETE, OPTIONS');
  res.setHeader('Access-Control-Allow-Headers', 'Content-Type, Authorization');
  res.sendStatus(204);
});" |}.

Definition pattern_custom_headers_not_allowed : ErrorPattern :=
{| id := "custom-headers-not-allowed";
   name := "Custom Headers Not Allowed";
   detector := detect_custom_headers_not_allowed;
   explanation :=
     "The browser is requesting permission to send custom headers (via Access-Control-Request-Headers), but the server is not responding with Access-Control-Allow-Headers to grant permission.";
   solution :=
     "Add the Access-Control-Allow-Headers header to your preflight response, listing all custom headers your API accepts.";
   codeExample :=
"// With cors middleware:
app.use(cors({ 
  allowedHeaders: ['Content-Type', 'Authorization', 'X-Custom-Header']
}));

// Or manually:
app.options('/api/*', (req, res) => {
  res.setHeader('Access-Control-Allow-Headers', 'Content-Type, Authorization, X-Custom-Header');
  res.sendStatus(204);
});" |}.

Definition pattern_missing_allow_origin : ErrorPattern :=
{| id := "missing-allow-origin";
   name := "Missing Access-Control-Allow-Origin";
   detector := detect_missing_allow_origin;
   explanation :=
     "The request includes an Origin header, but the server response is missing the Access-Control-Allow-Origin header. This is the most common CORS error.";
   solution :=
     "Add the Access-Control-Allow-Origin header to your response. Use a CORS middleware or set the header manually.";
   codeExample :=
"// Using cors middleware (recommended):
import cors from 'cors';
app.use(cors());

// Or manually for specific routes:
app.get('/api/data', (req, res) => {
  res.setHeader('Access-Control-Allow-Origin', req.headers.origin || '*');
  res.json({ data: 'your data' });
});

// Or for specific origin:
app.use(cors({ origin: 'https://example.com' }));" |}.

Definition pattern_missing_allow_headers : ErrorPattern :=
{| id := "missing-allow-headers";
   name := "Missing Access-Control-Allow-Headers on Preflight";
   detector := detect_missing_allow_headers;
   explanation :=
     "The preflight request includes Access-Control-Request-Headers, but the response is missing Access-Control-Allow-Headers. The browser needs explicit permission to send custom headers.";
   solution :=
     "Include the Access-Control-Allow-Headers header in your preflight response with the list of allowed headers.";
   codeExample :=
"// With cors middleware:
app.use(cors({ 
  allowedHeaders: ['Content-Type', 'Authorization']
}));

// Or handle OPTIONS manually:
app.options('*', (req, res) => {
  res.setHeader('Access-Control-Allow-Headers', req.headers['access-control-request-headers'] || '*');
  res.sendStatus(204);
});" |}.

Definition pattern_missing_allow_methods : ErrorPattern :=
{| id := "missing-allow-methods";
   name := "Missing Access-Control-Allow-Methods on Preflight";
   detector := detect_missing_allow_methods;
   explanation :=
     "The preflight OPTIONS request is missing the Access-Control-Allow-Methods header. This header tells the browser which HTTP methods are allowed for the actual request.";
   solution :=
     "Add the Access-Control-Allow-Methods header to your preflight response, listing all HTTP methods your API supports.";
   codeExample :=
"// With cors middleware:
app.use(cors({ 
  methods: ['GET', 'POST', 'PUT', 'DELETE', 'PATCH']
}));

// Or manually:
app.options('*', (req, res) => {
  res.setHeader('Access-Control-Allow-Methods', 'GET, POST, PUT, DELETE, PATCH');
  res.sendStatus(204);
});" |}.

Definition pattern_credentials_mismatch : ErrorPattern :=
{| id := "credentials-mismatch";
   name := "Credentials Mode Mismatch";
   detector := detect_credentials_mismatch;
   explanation :=
     "The frontend is sending credentials (cookies, authorization headers) but the server is not responding with Access-Control-Allow-Credentials: true. Credentials will be blocked.";
   solution :=
     "Enable credentials in your CORS configuration on the server, and ensure you're using a specific origin (not wildcard).";
   codeExample :=
"// Backend (Express):
app.use(cors({ 
  origin: 'https://example.com',
  credentials: true 
}));

// Frontend (fetch):
fetch('https://api.example.com/data', {
  credentials: 'include' // This sends cookies
});

// Frontend (axios):
axios.get('https://api.example.com/data', {
  withCredentials: true
});" |}.

Definition pattern_origin_null_blocked : ErrorPattern :=
{| id := "origin-null-blocked";
   name := "Origin 'null' Blocked";
   detector := detect_origin_null_blocked;
   explanation :=
     "The request has Origin: null (common with file:// protocol, sandboxed iframes, or redirects), but the server is not configured to allow it. This is a security-sensitive scenario.";
   solution :=
     "If you need to support null origins (e.g., for local file testing), explicitly allow it. However, be cautious as this can be a security risk in production.";
   codeExample :=
"// For development/testing only:
app.use(cors({ 
  origin: (origin, callback) => {
    // Allow null origin for local development
    if (!origin || origin === 'null') {
      callback(null, true);
    } else {
      callback(null, origin);
    }
  }
}));

// Better: Use a local development server instead of file://
// npx http-server or python -m http.server" |}.

Definition pattern_port_mismatch : ErrorPattern :=
{| id := "port-mismatch";
   name := "Same Domain Different Port Blocked";
   detector := detect_port_mismatch;
   explanation :=
     "The request is from the same domain but a different port (e.g., localhost:3000 vs localhost:5000). Browsers treat different ports as different origins, so CORS applies.";
   solution :=
     "Include the full origin with the port number in your CORS configuration, or use a dynamic origin validator.";
   codeExample :=
"// Allow specific ports:
app.use(cors({ 
  origin: ['http://localhost:3000', 'http://localhost:5000']
}));

// Or allow all localhost ports (development only):
app.use(cors({ 
  origin: (origin, callback) => {
    if (!origin || origin.startsWith('http://localhost:')) {
      callback(null, true);
    } else {
      callback(new Error('Not allowed by CORS'));
    }
  }
}));" |}.

Definition COMMON_PATTERNS : list ErrorPattern :=
  [ pattern_wildcard_credentials_conflict;
    pattern_multiple_origins_misconfiguration;
    pattern_preflight_only_failure;
    pattern_custom_headers_not_allowed;
    pattern_missing_allow_origin;
    pattern_missing_allow_headers;
    pattern_missing_allow_methods;
    pattern_credentials_mismatch;
    pattern_origin_null_blocked;
    pattern_port_mismatch ].

End Catalog.

(** The loop of [detectPattern] over a catalog: the first pattern whose
    detector returns [true]; a detector that throws is stepped over. *)
Fixpoint detectPattern_in (patterns : list ErrorPattern) (req : Request) (res : Response)
  : option ErrorPattern :=
  match patterns with
  | [] => None
  | pattern :: rest =>
      match detector pattern req res with
      | Ok true => Some pattern
      | Ok false => detectPattern_in rest req res
      | Throw _ => (* Continue to next pattern if detector throws *)
          detectPattern_in rest req res
      end
  end.

Definition detectPattern (URL : string -> option URLRecord)
    (req : Request) (res : Response) : option ErrorPattern :=
  detectPattern_in (COMMON_PATTERNS URL) req res.

(** ** Vocabulary of the statements about the catalog *)

(** The detector of [p] returns [true] on the pair; a detector that returns
    [false] and one that throws do not fire. *)
Definition fires (req : Request) (res : Response) (p : ErrorPattern) : bool :=
  match detector p req res with
  | Ok true => true
  | _ => false
  end.

End PatternMatcher.


(* ===================================================================== *)
(** * src/core/securityAdvisor.ts *)
(* ===================================================================== *)

Module SecurityAdvisor.

Inductive Level := info | warning | critical.

Record SecurityIssue := {
  level : Level;
  title : string;
  description : string;
  recommendation : string
}.

(** ** CORS configuration objects

    [interface CorsConfiguration], declared alike in securityAdvisor.ts and
    in analyzer.ts.  A configuration is a JavaScript object: [keys] lists its
    own properties in insertion order ([Object.keys]), the other fields give
    their values, [None] for [undefined].  A property that is set to
    [undefined] is in [keys] with the field [None]. *)

Inductive Key := Korigin | Kmethods | KallowedHeaders | KexposedHeaders | Kcredentials | KmaxAge.

#[export] Instance Key_eq_dec : EqDecision Key.
Proof. solve_decision. Defined.

Definition key_name (k : Key) : string :=
  match k with
  | Korigin => "origin"
  | Kmethods => "methods"
  | KallowedHeaders => "allowedHeaders"
  | KexposedHeaders => "exposedHeaders"
  | Kcredentials => "credentials"
  | KmaxAge => "maxAge"
  end.

(** [string | string[] | boolean]; and the number that [analyzeHeaders]
    passes on when the allow-origin header of the response is a number. *)
Inductive OriginValue :=
| OString (s : string)
| OArray (a : list string)
| OBoolean (b : bool)
| ONumber (n : Z).

Record CorsConfiguration := {
  keys : list Key;
  origin : option OriginValue;
  methods : option (list string);
  allowedHeaders : option (list string);
  exposedHeaders : option (list string);
  credentials : option bool;
  maxAge : option number
}.

(** The object [{}]. *)
Definition emptyConfiguration : CorsConfiguration :=
  {| keys := []; origin := None; methods := None; allowedHeaders := None;
     exposedHeaders := None; credentials := None; maxAge := None |}.

Inductive Environment := development | production.

Definition SENSITIVE_HEADERS : list string :=
  [ "authorization"; "cookie"; "set-cookie"; "x-csrf-token"; "x-xsrf-token";
    "x-api-key"; "x-auth-token"; "x-access-token"; "x-refresh-token" ].

Definition POTENTIALLY_DANGEROUS_METHODS : list string :=
  [ "DELETE"; "PUT"; "PATCH"; "TRACE" ].

Definition isWildcard (config : CorsConfiguration) : bool :=
  match origin config with
  | Some (OString s) => s =? "*"
  | Some (OBoolean b) => b
  | Some (OArray a) => array_includes a "*"
  | _ => false
  end.

Definition severityOrder (l : Level) : Z :=
  match l with
  | critical => 0
  | warning => 1
  | info => 2
  end.

(** The issues in the order the four checks push them, before the sort. *)
Definition pushedIssues (config : CorsConfiguration) (environment : Environment)
  : list SecurityIssue :=
  let issues := [] in
  (* Check 1: Wildcard origin in production (warning level) *)
  let issues :=
    match environment with
    | production =>
        if isWildcard config then
          issues ++ [ {| level := warning;
                         title := "Wildcard Origin in Production";
                         description :=
                           "Access-Control-Allow-Origin is set to '*' (wildcard) in production environment. This allows any website to make requests to your API, which may expose sensitive data or functionality.";
                         recommendation :=
                           "Specify exact allowed origins instead of using wildcard. Use an array of trusted domains or implement dynamic origin validation based on a whitelist." |} ]
        else issues
    | development => issues
    end in
  (* Check 2: Credentials + wildcard (critical level) *)
  let issues :=
    if bool_decide (credentials config = Some true) && isWildcard config then
      issues ++ [ {| level := critical;
                     title := "Credentials with Wildcard Origin";
                     description :=
                       "Access-Control-Allow-Credentials is set to 'true' while Access-Control-Allow-Origin is '*' (wildcard). This combination is forbidden by the CORS specification and will cause all requests to fail. Additionally, this represents a severe security vulnerability if it were allowed.";
                     recommendation :=
                       "Replace the wildcard origin with specific allowed origins. When using credentials, you must specify exact origins (e.g., 'https://example.com'). Never use wildcard with credentials." |} ]
    else issues in
  (* Check 3: Sensitive headers in Access-Control-Expose-Headers (warning level) *)
  let issues :=
    match exposedHeaders config with
    | Some ((_ :: _) as exposed) =>
        let exposedSensitiveHeaders :=
          List.filter (fun header => array_includes SENSITIVE_HEADERS (toLowerCase header))
                      exposed in
        if (0 <? length exposedSensitiveHeaders)%nat then
          issues ++ [ {| level := warning;
                         title := "Sensitive Headers Exposed";
                         description :=
                           "The following sensitive headers are exposed via Access-Control-Expose-Headers: " +:+ join ", " exposedSensitiveHeaders +:+
       ". This allows client-side JavaScript to read these headers, which may contain sensitive information like authentication tokens or session data.";
                         recommendation :=
                           "Review the list of exposed headers and remove any that contain sensitive information. Only expose headers that are safe for client-side JavaScript to access. Consider using secure, httpOnly cookies for sensitive data instead." |} ]
        else issues
    | _ => issues
    end in
  (* Check 4: Unnecessary methods in Access-Control-Allow-Methods (info level) *)
  let issues :=
    match methods config with
    | Some ((_ :: _) as allowed) =>
        let unnecessaryMethods :=
          List.filter (fun method =>
                         array_includes POTENTIALLY_DANGEROUS_METHODS (toUpperCase method))
                      allowed in
        if (0 <? length unnecessaryMethods)%nat then
          issues ++ [ {| level := info;
                         title := "Potentially Unnecessary HTTP Methods Allowed";
                         description :=
                           "The following HTTP methods are allowed: " +:+ join ", " unnecessaryMethods +:+
       ". While not necessarily a security issue, allowing methods like DELETE, PUT, or PATCH increases the attack surface of your API.";
                         recommendation :=
                           "Follow the principle of least privilege: only allow HTTP methods that your API actually needs. If your API is read-only, consider allowing only GET and HEAD. Review each allowed method and ensure it's necessary for your use case." |} ]
        else issues
    | _ => issues
    end in
  issues.

(** [(a, b) => severityOrder[a.level] - severityOrder[b.level]] does not
    put [b] before [a]. *)
Definition severity_le (a b : SecurityIssue) : bool :=
  (severityOrder (level a) - severityOrder (level b) <=? 0)%Z.

Definition checkSecurity (config : CorsConfiguration) (environment : Environment)
  : list SecurityIssue :=
  (* Sort issues by severity: critical first, then warning, then info *)
  sort_by severity_le (pushedIssues config environment).

(** ** Vocabulary of the statements about configurations *)

(** Scenario 5 of the specification. *)
Definition scenario5 : CorsConfiguration :=
  {| keys := [Korigin; Kcredentials; Kmethods; KexposedHeaders];
     origin := Some (OString "*");
     methods := Some ["GET"; "DELETE"];
     allowedHeaders := None;
     exposedHeaders := Some ["Authorization"];
     credentials := Some true;
     maxAge := None |}.

(** The configured origin resolves to the wildcard allow-origin header. *)
Definition wildcard_origin (config : CorsConfiguration) : Prop :=
  origin config = Some (OBoolean true) \/ origin config = Some (OString "*").

End SecurityAdvisor.


(* ===================================================================== *)
(** * src/backend/analyzer.ts *)
(* ===================================================================== *)

Module Analyzer.

Import SecurityAdvisor.

Record Diagnosis := {
  issue : string;
  description : string;
  recommendation : string;
  codeExample : option string;
  pattern : option string;
  severity : option Level
}.

(** [${v}] for a value read from a header map. *)
Definition template_value (o : option HeaderValue) : string :=
  match o with
  | Some v => to_string v
  | None => "undefined"
  end.

(** [v || undefined] *)
Definition or_undefined (o : option HeaderValue) : option HeaderValue :=
  if truthy_opt o then o else None.

(** [v?.split(",").map((x) => x.trim())] *)
Definition split_trim (o : option HeaderValue) : result (option (list string)) :=
  match o with
  | None => Ok None
  | Some v => s ← as_string v; Ok (Some (List.map trim (split s ",")))
  end.

Definition context (origin : option HeaderValue) : CodeGenerator.CodeContext :=
  {| CodeGenerator.origin := origin; CodeGenerator.origins := None;
     CodeGenerator.methods := None; CodeGenerator.headers := None;
     CodeGenerator.credentials := None; CodeGenerator.issue := None |}.

Section AnalyzeHeaders.

Variable URL : string -> option PatternMatcher.URLRecord.

Definition analyzeHeaders (req : Request) (res : Response) : result (list Diagnosis) :=
  let diagnoses : list Diagnosis := [] in
  (* Parse headers for easier access *)
  let reqHeaders := parseHeaders (Some (Utils.headers req)) in
  let resHeaders := parseHeaders (Some (getHeaders res)) in
  (* Extract and normalize origin from request *)
  let requestOrigin := reqHeaders !! "origin" in
  normalizedOrigin ← normalizeOrigin_value requestOrigin;
  (* Check if this is a preflight request *)
  let isPreflight := isPreflightRequest req in
  (* Check 1: Missing Access-Control-Allow-Origin *)
  let allowOrigin := resHeaders !! "access-control-allow-origin" in
  let diagnoses :=
    if truthy_opt requestOrigin && negb (truthy_opt allowOrigin) then
      diagnoses ++
      [ {| issue := "Missing Access-Control-Allow-Origin";
           description :=
             "The request includes an Origin header (" +:+ template_value requestOrigin +:+ "), but the server response is missing the Access-Control-Allow-Origin header. This is the most common CORS error and will cause the browser to block the response.";
           recommendation :=
             "Add the Access-Control-Allow-Origin header to your response. Use a CORS middleware like 'cors' for Express, or set the header manually in your route handlers.";
           codeExample :=
             Some (CodeGenerator.code
                     (CodeGenerator.generateExpressExample "missing allow origin"
                        (context (or_undefined requestOrigin))));
           pattern := None;
           severity := Some critical |} ]
    else diagnoses in
  (* Check 2: Origin validation - does the response origin match the request? *)
  diagnoses ←
    (if truthy_opt requestOrigin && truthy_opt allowOrigin
        && negb (is_string allowOrigin "*") then
       normalizedAllowOrigin ← normalizeOrigin_value allowOrigin;
       if negb (normalizedOrigin =? normalizedAllowOrigin) then
         Ok (diagnoses ++
             [ {| issue := "Origin Mismatch";
                  description :=
                    "The request origin (" +:+ template_value requestOrigin +:+ ") does not match the Access-Control-Allow-Origin header (" +:+ template_value allowOrigin +:+ "). The browser will block this response.";
                  recommendation :=
                    "Ensure your CORS configuration includes the requesting origin, or use a dynamic origin validator to check against a whitelist of allowed origins.";
                  codeExample :=
                    Some (CodeGenerator.code
                            (CodeGenerator.generateExpressExample "origin mismatch"
                               (context (or_undefined requestOrigin))));
                  pattern := None;
                  severity := Some critical |} ])
       else Ok diagnoses
     else Ok diagnoses);
  (* Check 3: Credentials + wildcard conflict *)
  let allowCredentials := resHeaders !! "access-control-allow-credentials" in
  let diagnoses :=
    if is_string allowOrigin "*" && is_string allowCredentials "true" then
      diagnoses ++
      [ {| issue := "Wildcard Origin with Credentials";
           description :=
             "Access-Control-Allow-Origin is set to '*' (wildcard) while Access-Control-Allow-Credentials is 'true'. This combination is forbidden by the CORS specification and will cause all requests to fail.";
           recommendation :=
             "Replace the wildcard '*' with the specific origin from the request. When using credentials, you must specify an exact origin.";
           codeExample :=
             Some (CodeGenerator.code
                     (CodeGenerator.generateExpressExample "wildcard credentials conflict"
                        {| CodeGenerator.origin := or_undefined requestOrigin;
                           CodeGenerator.origins := None;
                           CodeGenerator.methods := None;
                           CodeGenerator.headers := None;
                           CodeGenerator.credentials := Some true;
                           CodeGenerator.issue := None |}));
           pattern := Some "wildcard-credentials-conflict";
           severity := Some critical |} ]
    else diagnoses in
  (* Check 4: Preflight-specific checks *)
  diagnoses ←
    (if isPreflight then
       (* Check for Access-Control-Allow-Methods *)
       let allowMethods := resHeaders !! "access-control-allow-methods" in
       let diagnoses :=
         if negb (truthy_opt allowMethods) then
           diagnoses ++
           [ {| issue := "Missing Access-Control-Allow-Methods on Preflight";
                description :=
                  "This is a preflight OPTIONS request, but the response is missing the Access-Control-Allow-Methods header. The browser needs to know which HTTP methods are allowed.";
                recommendation :=
                  "Add the Access-Control-Allow-Methods header to your preflight response, listing all HTTP methods your API supports (e.g., 'GET, POST, PUT, DELETE').";
                codeExample :=
                  Some (CodeGenerator.code
                          (CodeGenerator.generateExpressExample "preflight missing methods"
                             {| CodeGenerator.origin := or_undefined requestOrigin;
                                CodeGenerator.origins := None;
                                CodeGenerator.methods :=
                                  Some ["GET"; "POST"; "PUT"; "DELETE"; "PATCH"];
                                CodeGenerator.headers := None;
                                CodeGenerator.credentials := None;
                                CodeGenerator.issue := None |}));
                pattern := None;
                severity := Some critical |} ]
         else diagnoses in
       (* Check for Access-Control-Allow-Headers when custom headers are requested *)
       let requestHeaders := reqHeaders !! "access-control-request-headers" in
       let allowHeaders := resHeaders !! "access-control-allow-headers" in
       if truthy_opt requestHeaders && negb (truthy_opt allowHeaders) then
         requested ← split_trim requestHeaders;
         Ok (diagnoses ++
             [ {| issue := "Missing Access-Control-Allow-Headers on Preflight";
                  description :=
                    "The browser is requesting permission to send custom headers (" +:+ template_value requestHeaders +:+ "), but the server is not responding with Access-Control-Allow-Headers to grant permission.";
                  recommendation :=
                    "Add the Access-Control-Allow-Headers header to your preflight response, listing all custom headers your API accepts.";
                  codeExample :=
                    Some (CodeGenerator.code
                            (CodeGenerator.generateExpressExample "custom headers not allowed"
                               {| CodeGenerator.origin := or_undefined requestOrigin;
                                  CodeGenerator.origins := None;
                                  CodeGenerator.methods := None;
                                  CodeGenerator.headers := requested;
                                  CodeGenerator.credentials := None;
                                  CodeGenerator.issue := None |}));
                  pattern := Some "custom-headers-not-allowed";
                  severity := Some critical |} ])
       else Ok diagnoses
     else Ok diagnoses);
  (* Check 5: Detect common patterns *)
  let diagnoses :=
    match PatternMatcher.detectPattern URL req res with
    | Some p =>
        if negb (existsb (fun d => bool_decide (pattern d = Some (PatternMatcher.id p)))
                         diagnoses) then
          diagnoses ++
          [ {| issue := PatternMatcher.name p;
               description := PatternMatcher.explanation p;
               recommendation := PatternMatcher.solution p;
               codeExample := Some (PatternMatcher.codeExample p);
               pattern := Some (PatternMatcher.id p);
               severity := Some warning |} ]
        else diagnoses
    | None => diagnoses
    end in
  (* Check 6: Security validation *)
  (* Extract current configuration from response headers *)
  let allowMethodsHeader := resHeaders !! "access-control-allow-methods" in
  methods_ ← split_trim allowMethodsHeader;
  allowedHeaders_ ← split_trim (resHeaders !! "access-control-allow-headers");
  exposedHeaders_ ← split_trim (resHeaders !! "access-control-expose-headers");
  let currentConfig : CorsConfiguration :=
    {| keys := [Korigin; Kmethods; KallowedHeaders; KexposedHeaders; Kcredentials; KmaxAge];
       origin :=
         match allowOrigin with
         | Some (HStr s) => if s =? "" then Some (OBoolean false) else Some (OString s)
         | Some (HNum n) => if (n =? 0)%Z then Some (OBoolean false) else Some (ONumber n)
         | None => Some (OBoolean false)
         end;
       methods := methods_;
       allowedHeaders := allowedHeaders_;
       exposedHeaders := exposedHeaders_;
       credentials := Some (is_string allowCredentials "true");
       maxAge :=
         match resHeaders !! "access-control-max-age" with
         | Some v => if truthy v then Some (parseInt10 (to_string v)) else None
         | None => None
         end |} in
  let securityIssues := checkSecurity currentConfig production in
  let diagnoses :=
    diagnoses ++
    List.map (fun issue_ =>
                {| issue := title issue_;
                   description := SecurityAdvisor.description issue_;
                   recommendation := SecurityAdvisor.recommendation issue_;
                   codeExample := None;
                   pattern := None;
                   severity := Some (level issue_) |})
             securityIssues in
  Ok diagnoses.

End AnalyzeHeaders.

(** ** [compareConfiguration] *)

(** The values a property of a configuration can hold ([any]). *)
Inductive Value :=
| VUndefined
| VBoolean (b : bool)
| VNumber (n : number)
| VString (s : string)
| VArray (a : list string).

Record IncorrectEntry := { property : string; current : Value; expected : Value }.

Record ConfigurationDiff := {
  missing : list string;
  incorrect : list IncorrectEntry;
  extra : list string;
  summary : string
}.

Definition of_array (o : option (list string)) : Value :=
  match o with
  | Some a => VArray a
  | None => VUndefined
  end.

(** [config[key]] *)
Definition get (config : CorsConfiguration) (key : Key) : Value :=
  match key with
  | Korigin =>
      match origin config with
      | Some (OString s) => VString s
      | Some (OArray a) => VArray a
      | Some (OBoolean b) => VBoolean b
      | Some (ONumber n) => VNumber (Int n)
      | None => VUndefined
      end
  | Kmethods => of_array (methods config)
  | KallowedHeaders => of_array (allowedHeaders config)
  | KexposedHeaders => of_array (exposedHeaders config)
  | Kcredentials =>
      match credentials config with
      | Some b => VBoolean b
      | None => VUndefined
      end
  | KmaxAge =>
      match maxAge config with
      | Some n => VNumber n
      | None => VUndefined
      end
  end.

(** The effect of [config[key].sort()] on the object [config]: the array
    that the property holds is sorted in place.  This is exact as long as
    no other property holds the same array; [Aliasing] below has the
    arrays in a heap. *)
Definition sort_property (config : CorsConfiguration) (key : Key) : CorsConfiguration :=
  {| keys := keys config;
     origin :=
       match key, origin config with
       | Korigin, Some (OArray a) => Some (OArray (sort_strings a))
       | _, o => o
       end;
     methods :=
       match key with
       | Kmethods => sort_strings <$> methods config
       | _ => methods config
       end;
     allowedHeaders :=
       match key with
       | KallowedHeaders => sort_strings <$> allowedHeaders config
       | _ => allowedHeaders config
       end;
     exposedHeaders :=
       match key with
       | KexposedHeaders => sort_strings <$> exposedHeaders config
       | _ => exposedHeaders config
       end;
     credentials := credentials config;
     maxAge := maxAge config |}.

(** Helper to normalize values for comparison: the value [normalize]
    returns.  For an array it is the argument itself after [value.sort()],
    which [sort_property] accounts for in the object that holds it. *)
Definition normalize (value : Value) : Value :=
  match value with
  | VArray a => VArray (sort_strings a)
  | _ => value
  end.

(** [a === b] on values that are not both arrays. *)
Definition strict_equal (a b : Value) : bool :=
  match a, b with
  | VUndefined, VUndefined => true
  | VBoolean x, VBoolean y => bool_decide (x = y)
  | VNumber x, VNumber y => number_eqb x y
  | VString x, VString y => x =? y
  | _, _ => false
  end.

(** [sortedA.every((val, idx) => val === sortedB[idx])] *)
Fixpoint every_equal (sortedA sortedB : list string) : bool :=
  match sortedA with
  | [] => true
  | val :: restA =>
      match sortedB with
      | other :: restB => (val =? other) && every_equal restA restB
      | [] => false
      end
  end.

(** Helper to check if values are equal *)
Definition isEqual (a b : Value) : bool :=
  match a, b with
  | VArray a, VArray b =>
      if negb (length a =? length b)%nat then false
      else
        let sortedA := sort_strings a in
        let sortedB := sort_strings b in
        every_equal sortedA sortedB
  | _, _ => strict_equal a b
  end.

Definition is_undefined (v : Value) : bool :=
  match v with
  | VUndefined => true
  | _ => false
  end.

Definition json_stringify (v : Value) : string :=
  match v with
  | VUndefined => "undefined"
  | VBoolean b => if b then "true" else "false"
  | VNumber n => number_toJSON n
  | VString s => json_string s
  | VArray a => json_array a
  end.

(** The state of the first loop of [compareConfiguration]: the two argument
    objects and the lists collected so far. *)
Record CompareState := {
  st_current : CorsConfiguration;
  st_expected : CorsConfiguration;
  st_missing : list string;
  st_incorrect : list IncorrectEntry
}.

(** One turn of the loop over [Object.keys(expected)]. *)
Definition compare_step (st : CompareState) (key : Key) : CompareState :=
  let expectedValue := get (st_expected st) key in
  let currentValue := get (st_current st) key in
  if is_undefined currentValue then
    (* Property is missing in current config *)
    {| st_current := st_current st; st_expected := st_expected st;
       st_missing := st_missing st ++ [key_name key];
       st_incorrect := st_incorrect st |}
  else
    (* both calls of [normalize] run, each sorting its array in place *)
    let current' := sort_property (st_current st) key in
    let expected' := sort_property (st_expected st) key in
    if negb (isEqual (normalize currentValue) (normalize expectedValue)) then
      (* Property exists but has incorrect value *)
      {| st_current := current'; st_expected := expected';
         st_missing := st_missing st;
         st_incorrect :=
           st_incorrect st ++
           [ {| property := key_name key;
                current := normalize currentValue;
                expected := normalize expectedValue |} ] |}
    else
      {| st_current := current'; st_expected := expected';
         st_missing := st_missing st; st_incorrect := st_incorrect st |}.

(** [compareConfiguration] returns the diff; the two argument objects are
    returned next to it in the state the call leaves them in. *)
Definition compareConfiguration (current expected : CorsConfiguration)
  : ConfigurationDiff * CorsConfiguration * CorsConfiguration :=
  (* Check all properties in expected configuration *)
  let expectedKeys := keys expected in
  let st :=
    fold_left compare_step expectedKeys
      {| st_current := current; st_expected := expected;
         st_missing := []; st_incorrect := [] |} in
  let current_after := st_current st in
  let expected_after := st_expected st in
  let missing := st_missing st in
  let incorrect := st_incorrect st in
  (* Check for extra properties in current config *)
  let currentKeys := keys current_after in
  let extra :=
    List.map key_name
      (List.filter (fun key => is_undefined (get expected_after key)) currentKeys) in
  (* Generate human-readable summary *)
  let summary :=
    if (length missing =? 0)%nat && (length incorrect =? 0)%nat && (length extra =? 0)%nat
    then "Configurations match perfectly."
    else
      let parts : list string := [] in
      let parts :=
        if (0 <? length missing)%nat then
          parts ++ [ "Missing properties: " +:+ join ", " missing
                     +:+ ". These need to be added to your CORS configuration." ]
        else parts in
      let parts :=
        if (0 <? length incorrect)%nat then
          let incorrectDetails :=
            join "; "
              (List.map
                 (fun '{| property := property_; current := current_; expected := expected_ |} =>
                    property_ +:+ " (current: " +:+ json_stringify current_
                    +:+ ", expected: " +:+ json_stringify expected_ +:+ ")")
                 incorrect) in
          parts ++ [ "Incorrect values: " +:+ incorrectDetails
                     +:+ ". These need to be updated." ]
        else parts in
      let parts :=
        if (0 <? length extra)%nat then
          parts ++ [ "Extra properties: " +:+ join ", " extra
                     +:+ ". These are not needed but won't cause issues." ]
        else parts in
      join " " parts in
  ({| missing := missing; incorrect := incorrect; extra := extra; summary := summary |},
   current_after, expected_after).

(** ** [testOrigin] *)

Record Preflight := { required : bool; preflight_allowed : bool }.

Record TestResult := {
  allowed : bool;
  reason : option string;
  headers : gmap string string;
  preflight : Preflight
}.

Definition testOrigin (origin_ : string) (config : CorsConfiguration) : TestResult :=
  let normalizedOrigin := normalizeOrigin (Some origin_) in
  let headers : gmap string string := ∅ in
  (* Check if origin is allowed *)
  let '(allowed, reason, headers) :=
    match origin config with
    | Some (OBoolean true) =>
        (true, None, <["Access-Control-Allow-Origin" := "*"]> headers)
    | Some (OString configOrigin) =>
        if configOrigin =? "*" then
          (true, None, <["Access-Control-Allow-Origin" := "*"]> headers)
        else
          let normalizedConfigOrigin := normalizeOrigin (Some configOrigin) in
          if normalizedOrigin =? normalizedConfigOrigin then
            (true, None, <["Access-Control-Allow-Origin" := configOrigin]> headers)
          else
            (false,
             Some ("Origin '" +:+ origin_ +:+ "' does not match configured origin '"
                   +:+ configOrigin +:+ "'"),
             headers)
    | Some (OArray configOrigins) =>
        let normalizedOrigins := List.map (fun o => normalizeOrigin (Some o)) configOrigins in
        if array_includes normalizedOrigins normalizedOrigin then
          (true, None, <["Access-Control-Allow-Origin" := origin_]> headers)
        else
          (false,
           Some ("Origin '" +:+ origin_ +:+ "' is not in the list of allowed origins: "
                 +:+ join ", " configOrigins),
           headers)
    | _ =>
        (false, Some "CORS is not configured (origin is false or undefined)", headers)
    end in
  (* Add credentials header if configured *)
  let '(allowed, reason, headers) :=
    if bool_decide (credentials config = Some true) then
      if bool_decide (headers !! "Access-Control-Allow-Origin" = Some "*") then
        (false,
         Some ("Cannot use wildcard origin (" +:+ "*) with credentials. Must specify exact origin."),
         <["Access-Control-Allow-Credentials" := "true"]> headers)
      else if allowed then
        (allowed, reason, <["Access-Control-Allow-Credentials" := "true"]> headers)
      else (allowed, reason, headers)
    else (allowed, reason, headers) in
  (* Add methods header if configured *)
  let headers :=
    match methods config with
    | Some ((_ :: _) as m) => <["Access-Control-Allow-Methods" := join ", " m]> headers
    | _ => headers
    end in
  (* Add allowed headers if configured *)
  let headers :=
    match allowedHeaders config with
    | Some ((_ :: _) as h) => <["Access-Control-Allow-Headers" := join ", " h]> headers
    | _ => headers
    end in
  (* Add exposed headers if configured *)
  let headers :=
    match exposedHeaders config with
    | Some ((_ :: _) as h) => <["Access-Control-Expose-Headers" := join ", " h]> headers
    | _ => headers
    end in
  (* Add max age if configured *)
  let headers :=
    match maxAge config with
    | Some n => <["Access-Control-Max-Age" := number_toString n]> headers
    | None => headers
    end in
  (* Determine if preflight is required and allowed *)
  let preflightRequired :=
    match methods config with
    | Some m =>
        existsb (fun m => negb (array_includes ["GET"; "HEAD"; "POST"] (toUpperCase m))) m
    | None => false
    end
    || match allowedHeaders config with
       | Some h => (0 <? length h)%nat
       | None => false
       end in
  let preflightAllowed :=
    allowed
    && (negb preflightRequired
        || (bool_decide (is_Some (headers !! "Access-Control-Allow-Methods"))
            && bool_decide (is_Some (headers !! "Access-Control-Allow-Headers")))) in
  {| allowed := allowed;
     reason := reason;
     headers := headers;
     preflight := {| required := preflightRequired; preflight_allowed := preflightAllowed |} |}.

(** ** Vocabulary of the statements about [compareConfiguration] *)

(** The value is defined and is not [NaN]. *)
Definition proper_value (v : Value) : bool :=
  match v with
  | VUndefined => false
  | VNumber n => negb (isNaN n)
  | _ => true
  end.

(** A valid configuration: each of its own properties holds a value of its
    declared type, none is set to [undefined] and [maxAge] is not [NaN]. *)
Definition valid (config : CorsConfiguration) : bool :=
  forallb (fun key => proper_value (get config key)) (keys config).

Definition example_config : CorsConfiguration :=
  {| keys := [Korigin; Kmethods; Kcredentials];
     origin := Some (OString "https://example.com");
     methods := Some ["POST"; "GET"];
     allowedHeaders := None;
     exposedHeaders := None;
     credentials := Some true;
     maxAge := None |}.

Definition wildcard_with_credentials : CorsConfiguration :=
  {| keys := [Korigin; Kcredentials; Kmethods; KmaxAge];
     origin := Some (OString "*");
     methods := Some ["GET"; "PUT"];
     allowedHeaders := None;
     exposedHeaders := None;
     credentials := Some true;
     maxAge := Some (Int 600) |}.

End Analyzer.

(* ===================================================================== *)
(** * src/backend/expressMiddleware.ts: the error history *)
(* ===================================================================== *)

Module ExpressMiddleware.

Import Analyzer.

(** [timestamp] is the time value of the [Date], in milliseconds. *)
Record CorsError := {
  timestamp : Z;
  route : string;
  method : string;
  origin : string;
  diagnoses : list Diagnosis;
  count : nat
}.

(** [Omit<CorsError, "count">], the argument of [add]. *)
Record NewError := {
  new_timestamp : Z;
  new_route : string;
  new_method : string;
  new_origin : string;
  new_diagnoses : list Diagnosis
}.

(** [class ErrorHistory]: its two private fields. *)
Record ErrorHistory := {
  errors : list CorsError;
  maxSize : Z
}.

(** [new ErrorHistory(maxSize)] *)
Definition new_ErrorHistory (maxSize : Z) : ErrorHistory :=
  {| errors := []; maxSize := maxSize |}.

Section History.

(** [x.localeCompare(y)] of the platform: negative, zero or positive. *)
Variable localeCompare : string -> string -> Z.

(** [(x, y) => x.issue.localeCompare(y.issue)] does not put [y] before [x]. *)
Definition issue_le (x y : Diagnosis) : bool :=
  (localeCompare (issue x) (issue y) <=? 0)%Z.

(** [sortedA.every((diagA, idx) => ...)] against [sortedB[idx]].  The two
    arrays have the same length where [diagnosesMatch] calls it. *)
Fixpoint every_match (sortedA sortedB : list Diagnosis) : bool :=
  match sortedA with
  | [] => true
  | diagA :: restA =>
      match sortedB with
      | diagB :: restB =>
          (issue diagA =? issue diagB)
          && (description diagA =? description diagB)
          && (recommendation diagA =? recommendation diagB)
          && every_match restA restB
      | [] => false
      end
  end.

(** Checks if two diagnosis arrays are equivalent *)
Definition diagnosesMatch (a b : list Diagnosis) : bool :=
  if negb (length a =? length b)%nat then false
  else
    (* Sort by issue name for consistent comparison *)
    let sortedA := sort_by issue_le a in
    let sortedB := sort_by issue_le b in
    every_match sortedA sortedB.

(** The predicate of [this.errors.find] in [add]. *)
Definition same_error (error : NewError) (e : CorsError) : bool :=
  (route e =? new_route error)
  && (method e =? new_method error)
  && (origin e =? new_origin error)
  && diagnosesMatch (diagnoses e) (new_diagnoses error).

(** [existingError.count++; existingError.timestamp = error.timestamp] *)
Definition occurred_again (error : NewError) (e : CorsError) : CorsError :=
  {| timestamp := new_timestamp error;
     route := route e; method := method e; origin := origin e;
     diagnoses := diagnoses e;
     count := S (count e) |}.

(** The mutation of the object that [find] returned: the first entry that
    satisfies [p], in its place in the array. *)
Fixpoint update_first (p : CorsError -> bool) (f : CorsError -> CorsError)
    (l : list CorsError) : list CorsError :=
  match l with
  | [] => []
  | e :: l' => if p e then f e :: l' else e :: update_first p f l'
  end.

(** [const newError: CorsError = { ...error, count: 1 }] *)
Definition newError (error : NewError) : CorsError :=
  {| timestamp := new_timestamp error;
     route := new_route error; method := new_method error;
     origin := new_origin error; diagnoses := new_diagnoses error;
     count := 1 |}.

(** Adds an error to the history.
    If an identical error exists, increments its count instead *)
Definition add (h : ErrorHistory) (error : NewError) : ErrorHistory :=
  match List.find (same_error error) (errors h) with
  | Some existingError =>
      (* Increment count and update timestamp *)
      {| errors := update_first (same_error error) (occurred_again error) (errors h);
         maxSize := maxSize h |}
  | None =>
      (* Add new error *)
      let errors := newError error :: errors h in   (* unshift *)
      (* Maintain circular buffer size *)
      let errors :=
        if (maxSize h <? Z.of_nat (length errors))%Z
        then removelast errors                      (* pop *)
        else errors in
      {| errors := errors; maxSize := maxSize h |}
  end.

(** ** Vocabulary of the statements about the ledger *)

(** [error] comes with the route, method, origin and diagnosis signature
    of [first]. *)
Definition same_key (first error : NewError) : bool :=
  (new_route first =? new_route error)
  && (new_method first =? new_method error)
  && (new_origin first =? new_origin error)
  && diagnosesMatch (new_diagnoses first) (new_diagnoses error).

(** The ledger after the adds of [errors], in their order. *)
Definition adds (h : ErrorHistory) (errors : list NewError) : ErrorHistory :=
  fold_left add errors h.

End History.

(** Returns all errors sorted by timestamp (newest first) *)
Definition getAll (h : ErrorHistory) : list CorsError :=
  sort_by (fun a b => (timestamp b - timestamp a <=? 0)%Z) (errors h).

(** Clears all errors from history *)
Definition clear (h : ErrorHistory) : ErrorHistory :=
  {| errors := []; maxSize := maxSize h |}.

(** What identifies an entry: all of it but its count and its timestamp. *)
Definition identity (e : CorsError) : string * string * string * list Diagnosis :=
  (route e, method e, origin e, diagnoses e).

(** The comparison of strings by code units, a stand-in for
    [localeCompare] where its choice does not matter. *)
Definition codeUnitCompare (a b : string) : Z :=
  match String.compare a b with
  | Lt => (-1)%Z
  | Eq => 0%Z
  | Gt => 1%Z
  end.

Definition sample (r : string) (t : Z) : NewError :=
  {| new_timestamp := t; new_route := r; new_method := "GET";
     new_origin := "https://example.com"; new_diagnoses := [] |}.

End ExpressMiddleware.

(* ===================================================================== *)
(** * src/core/utils.ts: console output *)
(* ===================================================================== *)

Module Logging.

(** What a console method is called with: the strings and the caught
    errors that the modelled code prints. *)
Inductive Printed :=
| PString (s : string)
| PError (e : Error).

(** One call of [console.log] or [console.error], with its arguments. *)
Inductive ConsoleCall :=
| console_log (args : list Printed)
| console_error (args : list Printed).

Inductive Color :=
| reset | bright | dim | red | green | yellow | blue | magenta | cyan | white | gray.

Definition ESC : string := String (ascii_of_N 27) "".

(** ANSI color codes for terminal output *)
Definition COLORS (color : Color) : string :=
  match color with
  | reset => ESC +:+ "[0m"
  | bright => ESC +:+ "[1m"
  | dim => ESC +:+ "[2m"
  | red => ESC +:+ "[31m"
  | green => ESC +:+ "[32m"
  | yellow => ESC +:+ "[33m"
  | blue => ESC +:+ "[34m"
  | magenta => ESC +:+ "[35m"
  | cyan => ESC +:+ "[36m"
  | white => ESC +:+ "[37m"
  | gray => ESC +:+ "[90m"
  end.

(** Applies ANSI color codes to text for terminal output *)
Definition colorize (text : string) (color : Color) : string :=
  COLORS color +:+ text +:+ COLORS reset.

Inductive LogLevel := log_info | log_warn | log_error.

(** [formatLog(level, message, data)]; [timestamp] is what
    [new Date().toISOString()] gives at the call.  The result is the
    sequence of console calls the function makes. *)
Definition formatLog (timestamp : string) (level : LogLevel) (message : string)
    (data : option Printed) : list ConsoleCall :=
  let prefix := "[CORS-DIAGNOSER]" in
  let '(coloredLevel, coloredPrefix) :=
    match level with
    | log_error => (colorize "ERROR" red, colorize prefix red)
    | log_warn => (colorize "WARN" yellow, colorize prefix yellow)
    | log_info => (colorize "INFO" cyan, colorize prefix cyan)
    end in
  let timestampFormatted := colorize timestamp gray in
  let formattedMessage :=
    timestampFormatted +:+ " " +:+ coloredPrefix +:+ " " +:+ coloredLevel +:+ " " +:+ message in
  [console_log [PString formattedMessage]]
  ++ match data with
     | Some d => [console_log [PString (colorize "Data:" dim)]; console_log [d]]
     | None => []
     end.

End Logging.

(* ===================================================================== *)
(** * src/backend/expressMiddleware.ts: the middleware *)
(* ===================================================================== *)

Module CorsDiagnoser.

Import SecurityAdvisor Analyzer ExpressMiddleware Logging.

(** [interface CorsMiddlewareOptions]; [None] for an option left out. *)
Record CorsMiddlewareOptions := {
  verbose : option bool;
  enableHistory : option bool;
  maxHistorySize : option Z;
  securityChecks : option bool
}.

(** What the process holds across requests: the module variable
    [errorHistory] and the console. *)
Record World := {
  errorHistory : option ErrorHistory;
  console : list ConsoleCall
}.

(** [corsDiagnoser(options)], up to the middleware function it returns:
    the error history is created when it is enabled and there is none
    yet. *)
Definition corsDiagnoser (options : CorsMiddlewareOptions) (w : World) : World :=
  let enableHistory := default true (enableHistory options) in
  let maxHistorySize := default 100%Z (maxHistorySize options) in
  (* Initialize error history if enabled *)
  match errorHistory w with
  | None =>
      if enableHistory
      then {| errorHistory := Some (new_ErrorHistory maxHistorySize); console := console w |}
      else w
  | Some _ => w
  end.

(** What [corsMiddleware] captures of a request before it goes on:
    [req.path || req.url], [req.method], [req.headers.origin || ""], and
    the request and response themselves. *)
Record Captured := {
  cap_route : string;
  cap_method : string;
  cap_origin : string;
  cap_req : Request;
  cap_res : Response
}.

Definition level_name (l : Level) : string :=
  match l with
  | info => "info"
  | warning => "warning"
  | critical => "critical"
  end.

Definition newline : string := String (ascii_of_N 10) "".

(** The console calls of one turn of [filteredDiagnoses.forEach]. *)
Definition log_diagnosis (index : nat) (diagnosis : Diagnosis) : list ConsoleCall :=
  [ console_log [PString (newline +:+ Z_toString (Z.of_nat index + 1) +:+ ". "
                          +:+ issue diagnosis)];
    console_log [PString ("   Severity: "
                          +:+ match severity diagnosis with
                              | Some l => level_name l
                              | None => "warning"
                              end)];
    console_log [PString ("   " +:+ description diagnosis)];
    console_log [PString ("   Recommendation: " +:+ recommendation diagnosis)] ]
  ++ match codeExample diagnosis with
     | Some example =>
         if example =? "" then []
         else
           [ console_log [PString (newline +:+ "   Code Example:")];
             console_log
               [PString (join newline
                           (List.map (fun line => "   " +:+ line)
                                     (split example (ascii_of_N 10))))] ]
     | None => []
     end
  ++ match pattern diagnosis with
     | Some p => if p =? "" then [] else [console_log [PString ("   Pattern: " +:+ p)]]
     | None => []
     end.

Section Middleware.

Variable URL : string -> option PatternMatcher.URLRecord.
Variable localeCompare : string -> string -> Z.

(** [performAnalysis()], the closure of one request.  [analyzed] is its
    flag; [isoNow] and [now] are the readings of the clock by [formatLog]
    and by [new Date()] for the history.  The result is the flag and the
    world after the call; the function returns nothing and never throws. *)
Definition performAnalysis (options : CorsMiddlewareOptions) (c : Captured)
    (isoNow : string) (now : Z) (analyzed : bool) (w : World) : bool * World :=
  let verbose := default false (verbose options) in
  let enableHistory := default true (enableHistory options) in
  let securityChecks := default true (securityChecks options) in
  if analyzed then (analyzed, w)
  else
    let analyzed := true in
    match analyzeHeaders URL (cap_req c) (cap_res c) with
    | Ok diagnoses =>
        (* Filter out security checks if disabled *)
        let filteredDiagnoses :=
          if securityChecks then diagnoses
          else
            List.filter
              (fun d => match severity d with Some info => false | _ => true end)
              diagnoses in
        (* Log if issues found or verbose mode is enabled *)
        if (0 <? length filteredDiagnoses)%nat then
          let logged :=
            formatLog isoNow log_error
              ("CORS issues detected on " +:+ cap_method c +:+ " " +:+ cap_route c
               +:+ " from origin: " +:+ cap_origin c) None
            (* Log each diagnosis *)
            ++ List.concat (imap log_diagnosis filteredDiagnoses)
            ++ [console_log [PString newline]] in
          (* Store in history if enabled *)
          let history :=
            match errorHistory w with
            | Some h =>
                if enableHistory then
                  Some (add localeCompare h
                          {| new_timestamp := now;
                             new_route := cap_route c;
                             new_method := cap_method c;
                             new_origin := cap_origin c;
                             new_diagnoses := filteredDiagnoses |})
                else Some h
            | None => None
            end in
          (analyzed, {| errorHistory := history; console := console w ++ logged |})
        else if verbose then
          (analyzed,
           {| errorHistory := errorHistory w;
              console :=
                console w ++
                formatLog isoNow log_info
                  ("No CORS issues detected on " +:+ cap_method c +:+ " " +:+ cap_route c
                   +:+ " from origin: " +:+ cap_origin c) None |})
        else (analyzed, w)
    | Throw analysisError =>
        (* Never throw - log error but don't break the server *)
        (analyzed,
         {| errorHistory := errorHistory w;
            console :=
              console w ++
              [console_error [PString "[CORS-DIAGNOSER] Error during analysis:";
                              PError analysisError]] |})
    end.

(** The calls of [performAnalysis] over the life of one request: one for
    each [res.send], [res.json] and [finish] event, each with its clock
    readings. *)
Definition performAnalysis_calls (options : CorsMiddlewareOptions) (c : Captured)
    (clock : list (string * Z)) (analyzed : bool) (w : World) : bool * World :=
  fold_left (fun st t => performAnalysis options c t.1 t.2 st.1 st.2) clock (analyzed, w).

End Middleware.

(** Returns the error history sorted by timestamp (newest first)
    Returns empty array if history is not enabled *)
Definition getErrorHistory (w : World) : list CorsError :=
  match errorHistory w with
  | None => []
  | Some h => getAll h
  end.

(** Clears all errors from the history *)
Definition clearErrorHistory (w : World) : World :=
  match errorHistory w with
  | Some h => {| errorHistory := Some (clear h); console := console w |}
  | None => w
  end.

End CorsDiagnoser.


(* ===================================================================== *)
(** * src/backend/analyzer.ts: [compareConfiguration] on shared arrays *)
(* ===================================================================== *)

(** In [Analyzer] a property holds its array, which is exact as long as no
    array is held twice.  In JavaScript an array is an object: one array
    can be held by two properties, of one configuration or of both, and
    [value.sort()] sorts it for all of them.  Here the arrays live in a
    heap and a property holds a reference. *)
Module Aliasing.

Import SecurityAdvisor Analyzer.

Abbreviation ref := positive.

(** The arrays, by reference. *)
Abbreviation Heap := (gmap ref (list string)).

(** What a property holds ([any]). *)
Inductive Property :=
| PUndefined
| PBoolean (b : bool)
| PNumber (n : number)
| PString (s : string)
| PArray (r : ref).

(** A configuration object: [Object.keys(config)] and [config[key]]. *)
Record Configuration := {
  own_keys : list Key;
  holds : Key -> Property
}.

Record IncorrectEntry := Entry { property : string; current : Property; expected : Property }.

Record ConfigurationDiff := {
  missing : list string;
  incorrect : list IncorrectEntry;
  extra : list string;
  summary : string
}.

(** The array behind a reference. *)
Definition array (h : Heap) (r : ref) : list string := default [] (h !! r).

(** Helper to normalize values for comparison: [value.sort()] sorts the
    array in the heap; the value returned is the argument itself. *)
Definition normalize (h : Heap) (value : Property) : Heap :=
  match value with
  | PArray r => alter sort_strings r h
  | _ => h
  end.

(** Helper to check if values are equal *)
Definition isEqual (h : Heap) (a b : Property) : bool :=
  match a, b with
  | PArray x, PArray y =>
      let a := array h x in
      let b := array h y in
      if negb (length a =? length b)%nat then false
      else
        let sortedA := sort_strings a in
        let sortedB := sort_strings b in
        every_equal sortedA sortedB
  | PUndefined, PUndefined => true
  | PBoolean x, PBoolean y => bool_decide (x = y)
  | PNumber x, PNumber y => number_eqb x y
  | PString x, PString y => x =? y
  | _, _ => false
  end.

Definition is_undefined (v : Property) : bool :=
  match v with
  | PUndefined => true
  | _ => false
  end.

Definition json_stringify (h : Heap) (v : Property) : string :=
  match v with
  | PUndefined => "undefined"
  | PBoolean b => if b then "true" else "false"
  | PNumber n => number_toJSON n
  | PString s => json_string s
  | PArray r => json_array (array h r)
  end.

(** [(item) => ...], the description of an entry of [incorrect] *)
Definition describe (h : Heap) (item : IncorrectEntry) : string :=
  property item +:+ " (current: " +:+ json_stringify h (current item)
  +:+ ", expected: " +:+ json_stringify h (expected item) +:+ ")".

(** The state of the first loop of [compareConfiguration]: the heap and
    the lists collected so far. *)
Record CompareState := {
  st_heap : Heap;
  st_missing : list string;
  st_incorrect : list IncorrectEntry
}.

Section Compare.

Variables current expected : Configuration.

(** One turn of the loop over [Object.keys(expected)]. *)
Definition compare_step (st : CompareState) (key : Key) : CompareState :=
  let expectedValue := holds expected key in
  let currentValue := holds current key in
  if is_undefined currentValue then
    (* Property is missing in current config *)
    {| st_heap := st_heap st;
       st_missing := st_missing st ++ [key_name key];
       st_incorrect := st_incorrect st |}
  else
    (* both calls of [normalize] run, each sorting its array in place *)
    let h := normalize (st_heap st) currentValue in
    let h := normalize h expectedValue in
    if negb (isEqual h currentValue expectedValue) then
      (* Property exists but has incorrect value *)
      {| st_heap := h;
         st_missing := st_missing st;
         st_incorrect :=
           st_incorrect st ++
           [ Entry (key_name key) currentValue expectedValue ] |}
    else
      {| st_heap := h; st_missing := st_missing st; st_incorrect := st_incorrect st |}.

(** [compareConfiguration] returns the diff; the heap that the call leaves
    is returned next to it. *)
Definition compareConfiguration (h : Heap) : ConfigurationDiff * Heap :=
  (* Check all properties in expected configuration *)
  let expectedKeys := own_keys expected in
  let st :=
    fold_left compare_step expectedKeys
      {| st_heap := h; st_missing := []; st_incorrect := [] |} in
  let h := st_heap st in
  let missing := st_missing st in
  let incorrect := st_incorrect st in
  (* Check for extra properties in current config *)
  let currentKeys := own_keys current in
  let extra :=
    List.map key_name
      (List.filter (fun key => is_undefined (holds expected key)) currentKeys) in
  (* Generate human-readable summary *)
  let summary :=
    if (length missing =? 0)%nat && (length incorrect =? 0)%nat && (length extra =? 0)%nat
    then "Configurations match perfectly."
    else
      let parts : list string := [] in
      let parts :=
        if (0 <? length missing)%nat then
          parts ++ [ "Missing properties: " +:+ join ", " missing
                     +:+ ". These need to be added to your CORS configuration." ]
        else parts in
      let parts :=
        if (0 <? length incorrect)%nat then
          let incorrectDetails :=
            join "; " (List.map (describe h) incorrect) in
          parts ++ [ "Incorrect values: " +:+ incorrectDetails
                     +:+ ". These need to be updated." ]
        else parts in
      let parts :=
        if (0 <? length extra)%nat then
          parts ++ [ "Extra properties: " +:+ join ", " extra
                     +:+ ". These are not needed but won't cause issues." ]
        else parts in
      join " " parts in
  ({| missing := missing; incorrect := incorrect; extra := extra; summary := summary |}, h).

End Compare.

End Aliasing.

(* ===================================================================== *)
(** * Vocabulary of the statements about the parts above *)
(* ===================================================================== *)

Module Vocabulary.

Import SecurityAdvisor.

(** The values that the entries of the bag offer for the name [k], in the
    order of the bag. *)
Definition header_candidates (k : string) (entries : RawHeaders) : list HeaderValue :=
  omap (fun entry : string * RawValue =>
          if toLowerCase entry.1 =? k then
            match first_value entry.2 with
            | Some v => if truthy v then Some v else None
            | None => None
            end
          else None)
       entries.

(** Some exposed header is on the list of sensitive headers, whatever its
    case. *)
Definition exposes_sensitive (config : SecurityAdvisor.CorsConfiguration) : bool :=
  match SecurityAdvisor.exposedHeaders config with
  | Some exposed =>
      existsb (fun header =>
                 array_includes SecurityAdvisor.SENSITIVE_HEADERS (toLowerCase header))
              exposed
  | None => false
  end.

(** Some allowed method is DELETE, PUT, PATCH or TRACE, whatever its case. *)
Definition allows_dangerous (config : SecurityAdvisor.CorsConfiguration) : bool :=
  match SecurityAdvisor.methods config with
  | Some allowed =>
      existsb (fun method =>
                 array_includes SecurityAdvisor.POTENTIALLY_DANGEROUS_METHODS
                                (toUpperCase method))
              allowed
  | None => false
  end.

(** The allow-origin value that the origin check of [testOrigin] grants
    the tested origin, if it grants one. *)
Definition granted_origin (origin_ : string) (config : SecurityAdvisor.CorsConfiguration)
  : option string :=
  match SecurityAdvisor.origin config with
  | Some (SecurityAdvisor.OBoolean true) => Some "*"
  | Some (SecurityAdvisor.OString configOrigin) =>
      if configOrigin =? "*" then Some "*"
      else if normalizeOrigin (Some origin_) =? normalizeOrigin (Some configOrigin)
           then Some configOrigin else None
  | Some (SecurityAdvisor.OArray configOrigins) =>
      if existsb (fun o => normalizeOrigin (Some origin_) =? normalizeOrigin (Some o))
                 configOrigins
      then Some origin_ else None
  | _ => None
  end.

(** The array is configured and is not empty. *)
Definition configured (a : option (list string)) : bool :=
  match a with
  | Some (_ :: _) => true
  | _ => false
  end.

(** The headers that [testOrigin] serves once it has added, to the
    headers [h] of its origin and credentials steps, those of the
    configured methods, allowed headers, exposed headers and max age. *)
Definition configured_headers (config : SecurityAdvisor.CorsConfiguration)
    (h : gmap string string) : gmap string string :=
  let headers := h in
  let headers :=
    match SecurityAdvisor.methods config with
    | Some ((_ :: _) as m) => <["Access-Control-Allow-Methods" := join ", " m]> headers
    | _ => headers
    end in
  let headers :=
    match SecurityAdvisor.allowedHeaders config with
    | Some ((_ :: _) as h) => <["Access-Control-Allow-Headers" := join ", " h]> headers
    | _ => headers
    end in
  let headers :=
    match SecurityAdvisor.exposedHeaders config with
    | Some ((_ :: _) as h) => <["Access-Control-Expose-Headers" := join ", " h]> headers
    | _ => headers
    end in
  match SecurityAdvisor.maxAge config with
  | Some n => <["Access-Control-Max-Age" := number_toString n]> headers
  | None => headers
  end.

(** The property [k] is one that [compareConfiguration] hands to
    [normalize]: a key of [expected] whose value in [current] is defined. *)
Definition normalized_key (current : SecurityAdvisor.CorsConfiguration)
    (expectedKeys : list SecurityAdvisor.Key) (k : SecurityAdvisor.Key) : bool :=
  bool_decide (k ∈ expectedKeys) && negb (Analyzer.is_undefined (Analyzer.get current k)).

(** The value of the property differs between the two configurations, as
    [isEqual] sees it. *)
Definition differs (current expected : SecurityAdvisor.CorsConfiguration)
    (k : SecurityAdvisor.Key) : bool :=
  negb (Analyzer.is_undefined (Analyzer.get current k))
  && negb (Analyzer.isEqual (Analyzer.get current k) (Analyzer.get expected k)).

(** The list is in the order of the comparator. *)
Definition ordered {A : Type} (le : A -> A -> bool) : list A -> Prop :=
  StronglySorted (fun a b => le a b = true).

(** The entry of [incorrect] that [compareConfiguration] makes of the
    property [k]. *)
Definition incorrect_entry (current expected : SecurityAdvisor.CorsConfiguration)
    (k : SecurityAdvisor.Key) : Analyzer.IncorrectEntry :=
  {| Analyzer.property := SecurityAdvisor.key_name k;
     Analyzer.current := Analyzer.normalize (Analyzer.get current k);
     Analyzer.expected := Analyzer.normalize (Analyzer.get expected k) |}.

(** The state of the loop of [compareConfiguration] over the keys of
    [expected], after the keys [done]. *)
Definition compared (current expected : SecurityAdvisor.CorsConfiguration)
    (done : list SecurityAdvisor.Key) (st : Analyzer.CompareState) : Prop :=
  SecurityAdvisor.keys (Analyzer.st_current st) = SecurityAdvisor.keys current
  /\ SecurityAdvisor.keys (Analyzer.st_expected st) = SecurityAdvisor.keys expected
  /\ (forall k, Analyzer.get (Analyzer.st_current st) k =
                if normalized_key current done k
                then Analyzer.normalize (Analyzer.get current k)
                else Analyzer.get current k)
  /\ (forall k, Analyzer.get (Analyzer.st_expected st) k =
                if normalized_key current done k
                then Analyzer.normalize (Analyzer.get expected k)
                else Analyzer.get expected k)
  /\ Analyzer.st_missing st =
     List.map SecurityAdvisor.key_name
       (List.filter (fun k => Analyzer.is_undefined (Analyzer.get current k)) done)
  /\ Analyzer.st_incorrect st =
     List.map (incorrect_entry current expected)
       (List.filter (differs current expected) done).

(** The property value is the array behind the reference [r]. *)
Definition holds_array (r : positive) (v : Aliasing.Property) : bool :=
  match v with
  | Aliasing.PArray r' => bool_decide (r' = r)
  | _ => false
  end.

(** The array behind [r] is one that [compareConfiguration] hands to
    [normalize] at one of the keys [ks]: [current] defines the key, and
    [current] or [expected] holds the array under it. *)
Definition sorted_by_call (current expected : Aliasing.Configuration)
    (ks : list SecurityAdvisor.Key) (r : positive) : bool :=
  existsb (fun k =>
             negb (Aliasing.is_undefined (Aliasing.holds current k))
             && (holds_array r (Aliasing.holds current k)
                 || holds_array r (Aliasing.holds expected k)))
          ks.

(** The diagnosis that [analyzeHeaders] makes of a pattern of the catalog. *)
Definition pattern_diagnosis (p : PatternMatcher.ErrorPattern) : Analyzer.Diagnosis :=
  {| Analyzer.issue := PatternMatcher.name p;
     Analyzer.description := PatternMatcher.explanation p;
     Analyzer.recommendation := PatternMatcher.solution p;
     Analyzer.codeExample := Some (PatternMatcher.codeExample p);
     Analyzer.pattern := Some (PatternMatcher.id p);
     Analyzer.severity := Some warning |}.

(** The diagnosis that [analyzeHeaders] makes of a security issue. *)
Definition issue_diagnosis (i : SecurityIssue) : Analyzer.Diagnosis :=
  {| Analyzer.issue := title i;
     Analyzer.description := description i;
     Analyzer.recommendation := recommendation i;
     Analyzer.codeExample := None;
     Analyzer.pattern := None;
     Analyzer.severity := Some (level i) |}.

(** What identifies a diagnosis in a report: its title, its pattern and
    its severity. *)
Definition headline (d : Analyzer.Diagnosis)
  : string * option string * option SecurityAdvisor.Level :=
  (Analyzer.issue d, Analyzer.pattern d, Analyzer.severity d).

(** The two origins differ once normalized; a value that
    [normalizeOrigin] fails on differs from none. *)
Definition origins_differ (requestOrigin allowOrigin : option HeaderValue) : bool :=
  match normalizeOrigin_value requestOrigin, normalizeOrigin_value allowOrigin with
  | Ok normalizedOrigin, Ok normalizedAllowOrigin =>
      negb (normalizedOrigin =? normalizedAllowOrigin)
  | _, _ => false
  end.

(** The summaries of the diagnoses of the five ad hoc checks of
    [analyzeHeaders] for a request and a response, in the order of the
    checks. *)
Definition adhoc_summaries (req : Request) (res : Response)
  : list (string * option string * option SecurityAdvisor.Level) :=
  let reqHeaders := parseHeaders (Some (Utils.headers req)) in
  let resHeaders := parseHeaders (Some (getHeaders res)) in
  let requestOrigin := reqHeaders !! "origin" in
  let allowOrigin := resHeaders !! "access-control-allow-origin" in
  let allowCredentials := resHeaders !! "access-control-allow-credentials" in
  (if truthy_opt requestOrigin && negb (truthy_opt allowOrigin)
   then [("Missing Access-Control-Allow-Origin", None, Some SecurityAdvisor.critical)]
   else [])
  ++ (if truthy_opt requestOrigin && truthy_opt allowOrigin
         && negb (is_string allowOrigin "*") && origins_differ requestOrigin allowOrigin
      then [("Origin Mismatch", None, Some SecurityAdvisor.critical)]
      else [])
  ++ (if is_string allowOrigin "*" && is_string allowCredentials "true"
      then [("Wildcard Origin with Credentials", Some "wildcard-credentials-conflict",
             Some SecurityAdvisor.critical)]
      else [])
  ++ (if isPreflightRequest req
         && negb (truthy_opt (resHeaders !! "access-control-allow-methods"))
      then [("Missing Access-Control-Allow-Methods on Preflight", None,
             Some SecurityAdvisor.critical)]
      else [])
  ++ (if isPreflightRequest req
         && truthy_opt (reqHeaders !! "access-control-request-headers")
         && negb (truthy_opt (resHeaders !! "access-control-allow-headers"))
      then [("Missing Access-Control-Allow-Headers on Preflight",
             Some "custom-headers-not-allowed", Some SecurityAdvisor.critical)]
      else []).

(** The diagnosis that [analyzeHeaders] adds for the pattern found, after
    the diagnoses of the ad hoc checks: none when one of these names the
    pattern. *)
Definition reported_pattern (adhoc : list Analyzer.Diagnosis)
    (found : option PatternMatcher.ErrorPattern) : list Analyzer.Diagnosis :=
  match found with
  | Some p =>
      if existsb (fun d => bool_decide (Analyzer.pattern d = Some (PatternMatcher.id p)))
                 adhoc
      then [] else [pattern_diagnosis p]
  | None => []
  end.

(** What [diagnosesMatch] compares of a diagnosis. *)
Definition signature (d : Analyzer.Diagnosis) : string * string * string :=
  (Analyzer.issue d, Analyzer.description d, Analyzer.recommendation d).

(** The occurrences that the entries of a ledger stand for. *)
Definition occurrences (h : ExpressMiddleware.ErrorHistory) : nat :=
  sum_list (List.map ExpressMiddleware.count (ExpressMiddleware.errors h)).

(** What happens to the middleware module in the life of a server: a call
    of [corsDiagnoser], the first [performAnalysis] of a request, with
    its clock readings, or a call of [clearErrorHistory]. *)
Inductive Event :=
| Installed (options : CorsDiagnoser.CorsMiddlewareOptions)
| Responded (options : CorsDiagnoser.CorsMiddlewareOptions) (c : CorsDiagnoser.Captured)
            (isoNow : string) (now : Z)
| Cleared.

Section Run.

Variable URL : string -> option PatternMatcher.URLRecord.
Variable localeCompare : string -> string -> Z.

Definition step (w : CorsDiagnoser.World) (event : Event) : CorsDiagnoser.World :=
  match event with
  | Installed options => CorsDiagnoser.corsDiagnoser options w
  | Responded options c isoNow now =>
      (CorsDiagnoser.performAnalysis URL localeCompare options c isoNow now false w).2
  | Cleared => CorsDiagnoser.clearErrorHistory w
  end.

Definition run (events : list Event) (w : CorsDiagnoser.World) : CorsDiagnoser.World :=
  fold_left step events w.

End Run.

End Vocabulary.

Export Vocabulary.

(* ===================================================================== *)
(** * Facts about the built-ins *)
(* ===================================================================== *)

Module JsFacts.

Lemma chars_str (l : list ascii) : chars (str l) = l.
Proof. apply list_ascii_of_string_of_list_ascii. Qed.

Lemma str_chars (s : string) : str (chars s) = s.
Proof. apply string_of_list_ascii_of_string. Qed.

Lemma chars_append (s t : string) : chars (s +:+ t) = chars s ++ chars t.
Proof. induction s as [|c s IH]; simpl; [reflexivity|]. unfold chars in *. simpl. now rewrite IH. Qed.

Lemma eqb_empty_chars (s : string) : (s =? "") = true <-> chars s = [].
Proof. destruct s; simpl; split; intros H; try reflexivity; discriminate. Qed.

(** Case analysis over the 256 code units. *)
Ltac each_char c := destruct c as [[|] [|] [|] [|] [|] [|] [|] [|]].

Lemma upper_chars_ascii (c : ascii) : (code c <? 128)%N = true -> upper_chars c = [upper_char c].
Proof. each_char c; vm_compute; intros H; first [reflexivity | discriminate H]. Qed.

Lemma isWhiteSpace_upper_char (c : ascii) : isWhiteSpace (upper_char c) = isWhiteSpace c.
Proof. each_char c; reflexivity. Qed.

Lemma lower_upper_char (c : ascii) : lower_char (upper_char c) = lower_char c.
Proof. each_char c; reflexivity. Qed.

Lemma isWhiteSpace_lower_char (c : ascii) : isWhiteSpace (lower_char c) = isWhiteSpace c.
Proof. each_char c; reflexivity. Qed.

Lemma lower_char_slash (c : ascii) : Ascii.eqb "/" (lower_char c) = Ascii.eqb "/" c.
Proof. each_char c; reflexivity. Qed.

Lemma flat_map_upper_ascii (l : list ascii) :
  forallb (fun c => (code c <? 128)%N) l = true ->
  flat_map upper_chars l = List.map upper_char l.
Proof.
  induction l as [|c l IH]; simpl; [reflexivity|].
  intros H. apply andb_prop in H as [Hc Hl].
  rewrite (upper_chars_ascii c Hc), (IH Hl). reflexivity.
Qed.

Section TrimMap.
Variable f : ascii -> ascii.
Hypothesis f_white : forall c, isWhiteSpace (f c) = isWhiteSpace c.

Lemma trimStart_l_map (l : list ascii) :
  trimStart_l (List.map f l) = List.map f (trimStart_l l).
Proof.
  induction l as [|c l IH]; simpl; [reflexivity|].
  rewrite f_white. destruct (isWhiteSpace c); [exact IH | reflexivity].
Qed.

Lemma trim_l_map (l : list ascii) : trim_l (List.map f l) = List.map f (trim_l l).
Proof.
  unfold trim_l, trimEnd_l.
  rewrite trimStart_l_map, <- map_rev, trimStart_l_map, map_rev. reflexivity.
Qed.
End TrimMap.

End JsFacts.

(* ===================================================================== *)
(** * Header normalizer: [normalizeOrigin] and [parseHeaders] *)
(* ===================================================================== *)

Module UtilsFacts.

Import JsFacts.

Lemma normalizeOrigin_unfold (s : string) :
  normalizeOrigin (Some s) =
  if s =? "" then ""
  else
    let n := List.map lower_char (trim_l (chars s)) in
    if endsWith_l n ["/"%char] then str (removelast n) else str n.
Proof.
  unfold normalizeOrigin. destruct (s =? ""); [reflexivity|].
  unfold toLowerCase, trim, endsWith, slice_0_m1. rewrite !chars_str. reflexivity.
Qed.

Lemma trimStart_l_app_nonwhite (l : list ascii) (c : ascii) :
  isWhiteSpace c = false -> trimStart_l (l ++ [c]) = trimStart_l l ++ [c].
Proof.
  intros Hc. induction l as [|d l IH]; simpl.
  - now rewrite Hc.
  - destruct (isWhiteSpace d); [exact IH | reflexivity].
Qed.

Lemma trimEnd_l_app_nonwhite (l : list ascii) (c : ascii) :
  isWhiteSpace c = false -> trimEnd_l (l ++ [c]) = l ++ [c].
Proof.
  intros Hc. unfold trimEnd_l. rewrite rev_app_distr. simpl. rewrite Hc.
  simpl. now rewrite rev_involutive.
Qed.

Lemma endsWith_l_snoc (l : list ascii) (c : ascii) :
  endsWith_l (l ++ [c]) ["/"%char] = Ascii.eqb "/" c.
Proof.
  unfold endsWith_l. rewrite rev_app_distr.
  change (rev [c]) with [c]. change (rev ["/"%char]) with ["/"%char].
  cbn [app startsWith_l]. destruct (Ascii.eqb "/" c); [|reflexivity].
  destruct (rev l); reflexivity.
Qed.

(** With a slash appended, the result is the lower-cased origin without its
    leading white space: the appended slash shields what came before it. *)
Lemma normalizeOrigin_slash_appended (O : string) :
  normalizeOrigin (Some (O +:+ "/")) = str (List.map lower_char (trimStart_l (chars O))).
Proof.
  rewrite normalizeOrigin_unfold.
  assert (Hne : (O +:+ "/" =? "") = false).
  { destruct (O +:+ "/" =? "") eqn:E; [|reflexivity].
    apply eqb_empty_chars in E. rewrite chars_append in E.
    now destruct (chars O). }
  rewrite Hne, chars_append. cbn zeta.
  change (chars "/") with ["/"%char].
  unfold trim_l. rewrite trimStart_l_app_nonwhite by reflexivity.
  rewrite trimEnd_l_app_nonwhite by reflexivity.
  rewrite map_app. simpl List.map at 2.
  change (lower_char "/") with "/"%char.
  rewrite endsWith_l_snoc. simpl. now rewrite removelast_last.
Qed.

Lemma trimStart_l_last (l : list ascii) (c : ascii) :
  isWhiteSpace c = false -> exists l', trimStart_l (l ++ [c]) = l' ++ [c].
Proof.
  intros Hc. rewrite trimStart_l_app_nonwhite by exact Hc. eauto.
Qed.

Lemma normalizeOrigin_clean (O : string) :
  ends_clean O = true ->
  normalizeOrigin (Some O) = str (List.map lower_char (trimStart_l (chars O))).
Proof.
  unfold ends_clean. intros H. rewrite normalizeOrigin_unfold.
  destruct (O =? "") eqn:E.
  - apply eqb_empty_chars in E. now rewrite E.
  - destruct (rev (chars O)) as [|c r] eqn:Hr.
    + apply (f_equal (@rev ascii)) in Hr. rewrite rev_involutive in Hr. simpl in Hr.
      apply eqb_empty_chars in Hr. congruence.
    + apply (f_equal (@rev ascii)) in Hr. rewrite rev_involutive in Hr. simpl in Hr.
      apply andb_prop in H as [Hw Hs].
      apply negb_true_iff in Hw. apply negb_true_iff in Hs.
      rewrite Hr. cbn zeta. unfold trim_l.
      rewrite trimStart_l_app_nonwhite by exact Hw.
      rewrite trimEnd_l_app_nonwhite by exact Hw.
      rewrite map_app. simpl List.map at 2.
      rewrite endsWith_l_snoc, lower_char_slash, Hs. reflexivity.
Qed.

Lemma normalizeOrigin_upper (O : string) :
  ascii_only O = true ->
  normalizeOrigin (Some (toUpperCase O)) = normalizeOrigin (Some O).
Proof.
  unfold ascii_only. intros H. rewrite !normalizeOrigin_unfold.
  unfold toUpperCase. rewrite (flat_map_upper_ascii _ H), chars_str.
  assert (Hempty : (str (List.map upper_char (chars O)) =? "") = (O =? "")).
  { destruct O; reflexivity. }
  rewrite Hempty. destruct (O =? ""); [reflexivity|]. cbn zeta.
  rewrite (trim_l_map upper_char isWhiteSpace_upper_char), map_map.
  rewrite (map_ext _ lower_char lower_upper_char). reflexivity.
Qed.

(** C6 (as amended).  For every origin string [O]: when [O] is ASCII,
    [normalizeOrigin] gives the same result on [O] and on
    [O.toUpperCase()]; when [O] does not end in white space nor in a slash,
    an appended slash is absorbed.  [normalizeOrigin] maps [null],
    [undefined] and the empty string to the empty string, and any other
    string to its trimmed, lower-cased form less one trailing slash; on a
    string it does not throw. *)
Theorem normalizeOrigin_case_and_slash (O : string) :
  (ascii_only O = true ->
   normalizeOrigin (Some (toUpperCase O)) = normalizeOrigin (Some O))
  /\ (ends_clean O = true ->
      normalizeOrigin (Some (O +:+ "/")) = normalizeOrigin (Some O))
  /\ normalizeOrigin None = ""
  /\ normalizeOrigin (Some "") = ""
  /\ (O <> "" ->
      normalizeOrigin (Some O) =
      let normalized := toLowerCase (trim O) in
      if endsWith normalized "/" then slice_0_m1 normalized else normalized)
  /\ normalizeOrigin_value (Some (HStr O)) = Ok (normalizeOrigin (Some O)).
Proof.
  split; [apply normalizeOrigin_upper|].
  split; [intros H; now rewrite normalizeOrigin_slash_appended, normalizeOrigin_clean|].
  repeat split.
  intros HO. unfold normalizeOrigin.
  destruct (String.eqb_spec O ""); [contradiction | reflexivity].
Qed.

Lemma normalizeOrigin_case_and_slash_witness :
  normalizeOrigin (Some (toUpperCase "https://Example.com")) = "https://example.com"
  /\ normalizeOrigin (Some ("https://Example.com" +:+ "/")) = "https://example.com".
Proof.
  destruct (normalizeOrigin_case_and_slash "https://Example.com") as (Hcase & Hslash & _).
  split.
  - rewrite Hcase; reflexivity.
  - rewrite Hslash; reflexivity.
Defined.

(** C6, as stated, fails: a slash appended to an origin that already ends
    in a slash is not absorbed (one slash is stripped, one stays), and
    upper-casing is not neutral outside ASCII (U+00DF becomes [SS]). *)
Lemma normalizeOrigin_slash_not_absorbed :
  normalizeOrigin (Some ("https://a.com/" +:+ "/")) <> normalizeOrigin (Some "https://a.com/")
  /\ normalizeOrigin (Some (toUpperCase (str [ascii_of_N 223])))
     <> normalizeOrigin (Some (str [ascii_of_N 223])).
Proof. split; vm_compute; discriminate. Qed.


(** ** [parseHeaders] *)

Lemma fold_parseHeaders_Forall (P : HeaderValue -> Prop) (entries : RawHeaders) :
  (forall key value v,
      (key, value) ∈ entries -> first_value value = Some v -> truthy v = true -> P v) ->
  forall m : HeaderMap,
    map_Forall (fun _ v => P v) m ->
    map_Forall (fun _ v => P v) (fold_left parseHeaders_step entries m).
Proof.
  induction entries as [|[key value] entries IH]; intros HP m Hm; cbn [fold_left]; [exact Hm|].
  apply IH.
  - intros k' val v Hin. apply (HP k' val v). now right.
  - assert (Hstep : parseHeaders_step m (key, value) =
                    match first_value value with
                    | Some v => if truthy v then <[toLowerCase key := v]> m else m
                    | None => m
                    end).
    { destruct value; reflexivity. }
    rewrite Hstep. destruct (first_value value) as [v|] eqn:Hv; [|exact Hm].
    destruct (truthy v) eqn:Ht; [|exact Hm].
    apply map_Forall_insert_2; [|exact Hm].
    apply (HP key value v); [left|exact Hv|exact Ht].
Qed.

Lemma parseHeaders_truthy (headers : option RawHeaders) :
  map_Forall (fun _ v => truthy v = true) (parseHeaders headers).
Proof.
  destruct headers as [entries|]; simpl; [|apply map_Forall_empty].
  apply fold_parseHeaders_Forall; [|apply map_Forall_empty].
  intros _ _ v _ _ Ht. exact Ht.
Qed.

Lemma parseHeaders_strings (headers : RawHeaders) :
  strings_only headers = true ->
  map_Forall (fun _ v => exists s, v = HStr s /\ s <> "") (parseHeaders (Some headers)).
Proof.
  intros Hs. simpl.
  apply fold_parseHeaders_Forall; [|apply map_Forall_empty].
  intros key value v Hin Hv Ht.
  destruct v as [s|n].
  - exists s. split; [reflexivity|]. intros ->. discriminate Ht.
  - exfalso. unfold strings_only in Hs. rewrite forallb_forall in Hs.
    apply list_elem_of_In in Hin. specialize (Hs _ Hin). simpl in Hs.
    destruct value as [|v|a]; simpl in Hv; [discriminate Hv| |].
    + injection Hv as ->. discriminate Hs.
    + destruct a; discriminate Hv.
Qed.

Lemma parseHeaders_step_empty_valued (m : HeaderMap) (key : string) (value : RawValue) :
  empty_valued value = true -> parseHeaders_step m (key, value) = m.
Proof.
  unfold parseHeaders_step.
  destruct value as [|[s|n]|[|s a]]; simpl; intros H; try discriminate H; try reflexivity.
  - now rewrite H.
  - now rewrite H.
Qed.

Lemma parseHeaders_skip_empty_valued (l1 l2 : RawHeaders) (key : string) (value : RawValue) :
  empty_valued value = true ->
  parseHeaders (Some (l1 ++ (key, value) :: l2)) = parseHeaders (Some (l1 ++ l2)).
Proof.
  intros H. unfold parseHeaders. rewrite !fold_left_app. cbn [fold_left].
  now rewrite parseHeaders_step_empty_valued.
Qed.

End UtilsFacts.

(* ===================================================================== *)
(** * Pattern catalog: [detectPattern] *)
(* ===================================================================== *)

Module PatternMatcherFacts.

Import PatternMatcher.

Lemma fires_true req res p : fires req res p = true <-> detector p req res = Ok true.
Proof.
  unfold fires. destruct (detector p req res) as [[|]|e]; split; intros H;
    try reflexivity; try discriminate H.
Qed.

Lemma detectPattern_in_find patterns req res :
  detectPattern_in patterns req res = List.find (fires req res) patterns.
Proof.
  induction patterns as [|p patterns IH]; simpl; [reflexivity|].
  unfold fires at 1. destruct (detector p req res) as [[|]|e]; auto.
Qed.

Lemma find_first {A} (f : A -> bool) (l : list A) (x : A) :
  List.find f l = Some x <->
  exists before after,
    l = before ++ x :: after /\ f x = true /\ Forall (fun y => f y <> true) before.
Proof.
  induction l as [|y l IH]; simpl.
  - split; [discriminate|]. intros (b & a & H & _). now destruct b.
  - destruct (f y) eqn:Hy.
    + split.
      * intros [= ->]. exists [], l. repeat split; [exact Hy | constructor].
      * intros ([|z b] & a & Hl & Hx & Hb).
        -- now injection Hl as -> _.
        -- injection Hl as -> _. inversion Hb; subst. congruence.
    + rewrite IH. split.
      * intros (b & a & -> & Hx & Hb). exists (y :: b), a.
        repeat split; [exact Hx|]. constructor; [congruence | exact Hb].
      * intros ([|z b] & a & Hl & Hx & Hb).
        -- injection Hl as -> _. congruence.
        -- injection Hl as -> ->. inversion Hb; subst. eauto.
Qed.

Lemma find_none {A} (f : A -> bool) (l : list A) :
  List.find f l = None <-> Forall (fun y => f y <> true) l.
Proof.
  induction l as [|y l IH]; simpl.
  - split; [constructor | reflexivity].
  - destruct (f y) eqn:Hy.
    + split; [discriminate|]. intros H. inversion H; subst. congruence.
    + rewrite IH. split.
      * intros H. constructor; [congruence | exact H].
      * intros H. now inversion H.
Qed.

Lemma find_skip {A} (f : A -> bool) (l1 l2 : list A) (x : A) :
  f x = false -> List.find f (l1 ++ x :: l2) = List.find f (l1 ++ l2).
Proof.
  intros Hx. induction l1 as [|y l1 IH]; simpl.
  - now rewrite Hx.
  - now rewrite IH.
Qed.

(** C4.  [detectPattern] scans the catalog in declaration order: it returns
    the first pattern whose detector returns [true], and none when no
    detector does.  A detector that throws counts as no match: the scan
    goes on, and the result is what it would be without that entry. *)
Theorem detectPattern_first_match
    (URL : string -> option URLRecord) (req : Request) (res : Response) :
  List.map id (COMMON_PATTERNS URL) =
    [ "wildcard-credentials-conflict"; "multiple-origins-misconfiguration";
      "preflight-only-failure"; "custom-headers-not-allowed";
      "missing-allow-origin"; "missing-allow-headers"; "missing-allow-methods";
      "credentials-mismatch"; "origin-null-blocked"; "port-mismatch" ]
  /\ (forall p,
        detectPattern URL req res = Some p <->
        exists before after,
          COMMON_PATTERNS URL = before ++ p :: after
          /\ detector p req res = Ok true
          /\ Forall (fun q => detector q req res <> Ok true) before)
  /\ (detectPattern URL req res = None <->
      Forall (fun q => detector q req res <> Ok true) (COMMON_PATTERNS URL))
  /\ (forall before q after e,
        detector q req res = Throw e ->
        detectPattern_in (before ++ q :: after) req res =
        detectPattern_in (before ++ after) req res).
Proof.
  split; [reflexivity|]. unfold detectPattern. split; [|split].
  - intros p. rewrite detectPattern_in_find, find_first.
    split; intros (b & a & Hl & Hp & Hb); exists b, a; (split; [exact Hl|]).
    + split; [now apply fires_true|].
      eapply Forall_impl; [exact Hb|]. intros q Hq Hq'. apply Hq. now apply fires_true.
    + split; [now apply fires_true|].
      eapply Forall_impl; [exact Hb|]. intros q Hq Hq'. apply Hq. now apply fires_true.
  - rewrite detectPattern_in_find, find_none.
    split; intros H; (eapply Forall_impl; [exact H|]); intros q Hq Hq'; apply Hq;
      now apply fires_true.
  - intros b q a e Hq. rewrite !detectPattern_in_find. apply find_skip.
    unfold fires. now rewrite Hq.
Qed.

(** A detector of the catalog that does throw: with a numeric allow-origin
    header, [allowOrigin.includes] is not a function.  The scan steps over
    it and finds the pattern of a later entry. *)
Example detectPattern_skips_throwing_detector (URL : string -> option URLRecord) :
  let req := {| method := "GET"; headers := [("Cookie", RValue (HStr "sid=1"))] |} in
  let res := {| getHeaders := [("Access-Control-Allow-Origin", RValue (HNum 5))] |} in
  detect_multiple_origins_misconfiguration req res = Throw TypeError
  /\ id <$> detectPattern URL req res = Some "credentials-mismatch".
Proof. split; reflexivity. Qed.

Lemma detectPattern_first_match_witness :
  let URL := fun _ : string => None in
  let req := {| method := "GET"; headers := [("Cookie", RValue (HStr "sid=1"))] |} in
  let res := {| getHeaders := [("Access-Control-Allow-Origin", RValue (HNum 5))] |} in
  detectPattern_in
    ([pattern_wildcard_credentials_conflict]
       ++ pattern_multiple_origins_misconfiguration :: [pattern_credentials_mismatch])
    req res =
  detectPattern_in
    ([pattern_wildcard_credentials_conflict] ++ [pattern_credentials_mismatch]) req res
  /\ id <$> detectPattern URL req res = Some "credentials-mismatch".
Proof.
  intros URL req res.
  destruct (detectPattern_first_match URL req res) as (_ & Hsome & _ & Hskip).
  split.
  - apply (Hskip _ _ _ TypeError). reflexivity.
  - rewrite (proj2 (Hsome pattern_credentials_mismatch)); [reflexivity|].
    exists (firstn 7 (COMMON_PATTERNS URL)), (skipn 8 (COMMON_PATTERNS URL)).
    split; [reflexivity|]. split; [reflexivity|].
    repeat constructor; discriminate.
Defined.

End PatternMatcherFacts.

(* ===================================================================== *)
(** * Security rule set: [checkSecurity] *)
(* ===================================================================== *)

Module SortFacts.

(** [sort_by] along a rank: the comparator [(a, b) => rank a - rank b]. *)
Section Ranked.
Context {A : Type} (rank : A -> Z).

Definition rank_le (a b : A) : bool := (rank a - rank b <=? 0)%Z.

Lemma insert_sorted_perm (x : A) (l : list A) :
  Permutation (insert_sorted rank_le x l) (x :: l).
Proof.
  induction l as [|y l IH]; simpl; [reflexivity|].
  destruct (rank_le x y); [reflexivity|].
  rewrite IH. apply perm_swap.
Qed.

Lemma sort_by_perm (l : list A) : Permutation (sort_by rank_le l) l.
Proof.
  induction l as [|x l IH]; simpl; [reflexivity|].
  unfold sort_by in *. simpl. rewrite insert_sorted_perm. now rewrite IH.
Qed.

Definition rank_sorted : list A -> Prop :=
  StronglySorted (fun a b => (rank a <= rank b)%Z).

Lemma insert_sorted_sorted (x : A) (l : list A) :
  rank_sorted l -> rank_sorted (insert_sorted rank_le x l).
Proof.
  unfold rank_sorted. induction l as [|y l IH]; intros Hl; simpl.
  - constructor; constructor.
  - inversion Hl as [|? ? Hl' Hy]; subst.
    unfold rank_le at 1. destruct (Z.leb_spec (rank x - rank y) 0) as [Hxy|Hxy].
    + constructor; [exact Hl|]. constructor; [lia|].
      eapply Forall_impl; [exact Hy|]. simpl. intros z Hz. lia.
    + constructor; [now apply IH|].
      rewrite (insert_sorted_perm x l). constructor; [lia | exact Hy].
Qed.

Lemma sort_by_sorted (l : list A) : rank_sorted (sort_by rank_le l).
Proof.
  induction l as [|x l IH]; [constructor|].
  unfold sort_by in *. simpl. now apply insert_sorted_sorted.
Qed.

(** Stability: the elements of one rank keep their order. *)
Lemma insert_sorted_stable (k : Z) (x : A) (l : list A) :
  List.filter (fun a => (rank a =? k)%Z) (insert_sorted rank_le x l) =
  List.filter (fun a => (rank a =? k)%Z) (x :: l).
Proof.
  induction l as [|y l IH]; [reflexivity|].
  cbn [insert_sorted]. unfold rank_le at 1.
  destruct (Z.leb_spec (rank x - rank y) 0) as [Hxy|Hxy]; [reflexivity|].
  cbn [List.filter] in *. rewrite IH.
  destruct (Z.eqb_spec (rank x) k), (Z.eqb_spec (rank y) k); try reflexivity. lia.
Qed.

Lemma sort_by_stable (k : Z) (l : list A) :
  List.filter (fun a => (rank a =? k)%Z) (sort_by rank_le l) =
  List.filter (fun a => (rank a =? k)%Z) l.
Proof.
  induction l as [|x l IH]; [reflexivity|].
  unfold sort_by in *. cbn [foldr]. rewrite insert_sorted_stable.
  cbn [List.filter]. now rewrite IH.
Qed.

End Ranked.

End SortFacts.

Module SecurityAdvisorFacts.

Import SecurityAdvisor SortFacts.

Lemma severity_le_rank : severity_le = rank_le (fun i => severityOrder (level i)).
Proof. reflexivity. Qed.

(** C2.  [checkSecurity] returns its issues sorted by severity rank,
    critical before warning before info; issues of one severity keep the
    order in which the checks pushed them; the empty configuration gives
    the empty list; scenario 5 gives four issues: critical, warning,
    warning, info. *)
Theorem checkSecurity_sorted_stable (config : CorsConfiguration) (environment : Environment) :
  StronglySorted
    (fun a b => (severityOrder (level a) <= severityOrder (level b))%Z)
    (checkSecurity config environment)
  /\ Permutation (checkSecurity config environment) (pushedIssues config environment)
  /\ (forall k,
        List.filter (fun i => (severityOrder (level i) =? k)%Z)
                    (checkSecurity config environment) =
        List.filter (fun i => (severityOrder (level i) =? k)%Z)
                    (pushedIssues config environment))
  /\ checkSecurity emptyConfiguration environment = []
  /\ List.map level (checkSecurity scenario5 production) =
     [critical; warning; warning; info].
Proof.
  unfold checkSecurity. rewrite severity_le_rank.
  split; [apply sort_by_sorted|].
  split; [apply sort_by_perm|].
  split; [intros k; apply sort_by_stable|].
  split; [destruct environment; reflexivity | reflexivity].
Qed.

End SecurityAdvisorFacts.

(* ===================================================================== *)
(** * Analyzer: [testOrigin] *)
(* ===================================================================== *)

Module TestOriginFacts.

Import SecurityAdvisor Analyzer.

(** [testOrigin] after its first two steps: the decision [a], the reason [r]
    and the headers [h] that the origin and credentials checks leave. *)
Lemma testOrigin_stage (origin_ : string) (config : CorsConfiguration) :
  exists (a : bool) (r : option string) (h : gmap string string),
    (forall k, k <> "Access-Control-Allow-Origin" -> k <> "Access-Control-Allow-Credentials" -> h !! k = None)
    /\ (wildcard_origin config -> credentials config = Some true ->
        a = false /\ r = Some ("Cannot use wildcard origin (" +:+ "*) with credentials. Must specify exact origin.")
        /\ h !! "Access-Control-Allow-Origin" = Some "*" /\ h !! "Access-Control-Allow-Credentials" = Some "true")
    /\ testOrigin origin_ config =
       let headers := h in
  let headers :=
    match methods config with
    | Some ((_ :: _) as m) => <["Access-Control-Allow-Methods" := join ", " m]> headers
    | _ => headers
    end in
  let headers :=
    match allowedHeaders config with
    | Some ((_ :: _) as h) => <["Access-Control-Allow-Headers" := join ", " h]> headers
    | _ => headers
    end in
  let headers :=
    match exposedHeaders config with
    | Some ((_ :: _) as h) => <["Access-Control-Expose-Headers" := join ", " h]> headers
    | _ => headers
    end in
  let headers :=
    match maxAge config with
    | Some n => <["Access-Control-Max-Age" := number_toString n]> headers
    | None => headers
    end in
  let preflightRequired :=
    match methods config with
    | Some m =>
        existsb (fun m => negb (array_includes ["GET"; "HEAD"; "POST"] (toUpperCase m))) m
    | None => false
    end
    || match allowedHeaders config with
       | Some h => (0 <? length h)%nat
       | None => false
       end in
  let preflightAllowed :=
    a
    && (negb preflightRequired
        || (bool_decide (is_Some (headers !! "Access-Control-Allow-Methods"))
            && bool_decide (is_Some (headers !! "Access-Control-Allow-Headers")))) in
  {| allowed := a;
     reason := r;
     headers := headers;
     preflight := {| required := preflightRequired; preflight_allowed := preflightAllowed |} |}.
Proof.
  unfold testOrigin.
  lazymatch goal with
  | |- context [match ?M with pair _ _ => _ end] =>
      lazymatch M with
      | context [origin config] => set (S1 := M)
      end
  end.
  assert (H1 : (forall k, k <> "Access-Control-Allow-Origin" -> S1.2 !! k = None)
               /\ (wildcard_origin config ->
                   S1.2 !! "Access-Control-Allow-Origin" = Some "*")).
  { subst S1. split.
    - intros k Hk. repeat case_match; cbn [snd]; by simplify_map_eq.
    - intros [-> | ->]; reflexivity. }
  destruct S1 as [[a1 r1] h1]. cbn [snd] in H1. destruct H1 as [H1 H1'].
  lazymatch goal with
  | |- context [match ?M with pair _ _ => _ end] => set (S2 := M)
  end.
  assert (H2 : (forall k, k <> "Access-Control-Allow-Origin" ->
                          k <> "Access-Control-Allow-Credentials" -> S2.2 !! k = None)
               /\ (wildcard_origin config ->
                   credentials config = Some true ->
                   S2 = (false,
                         Some ("Cannot use wildcard origin (" +:+ "*) with credentials. Must specify exact origin."),
                         <["Access-Control-Allow-Credentials" := "true"]> h1))).
  { subst S2. split.
    - intros k Hk Hk'. repeat case_match; cbn [snd]; simplify_map_eq; by auto.
    - intros Ho Hc. rewrite Hc, (H1' Ho). reflexivity. }
  destruct H2 as [H2 H2'].
  destruct S2 as [[a r] h] eqn:E2. cbn [snd] in H2.
  exists a, r, h. split; [exact H2|]. split; [|reflexivity].
  intros Ho Hc. specialize (H2' Ho Hc). injection H2' as -> -> ->.
  repeat split. 
  - rewrite lookup_insert_ne by done. auto.
  - by rewrite lookup_insert_eq.
Qed.

(** C3.  When [config.credentials] is true and the configured origin is
    [true] or the wildcard string, [testOrigin] answers [allowed = false]
    for every tested origin, with the reason that the wildcard cannot be
    used with credentials. *)
Theorem testOrigin_wildcard_credentials (origin_ : string) (config : CorsConfiguration) :
  credentials config = Some true ->
  wildcard_origin config ->
  allowed (testOrigin origin_ config) = false
  /\ reason (testOrigin origin_ config) =
     Some ("Cannot use wildcard origin (" +:+ "*) with credentials. Must specify exact origin.").
Proof.
  intros Hc Ho.
  destruct (testOrigin_stage origin_ config) as (a & r & h & _ & Hw & ->).
  destruct (Hw Ho Hc) as (-> & -> & _). split; reflexivity.
Qed.

(** C10.  When [testOrigin] rejects a wildcard origin because of
    credentials, the headers it returns still hold the wildcard allow-origin
    header and the allow-credentials header; and for every configuration
    the methods, allowed headers, exposed headers and max-age are
    serialized into the returned headers whatever the decision is. *)
Theorem testOrigin_headers (origin_ : string) (config : CorsConfiguration) :
  let result := testOrigin origin_ config in
  (credentials config = Some true -> wildcard_origin config ->
   allowed result = false
   /\ headers result !! "Access-Control-Allow-Origin" = Some "*"
   /\ headers result !! "Access-Control-Allow-Credentials" = Some "true")
  /\ headers result !! "Access-Control-Allow-Methods" =
     match methods config with
     | Some ((_ :: _) as m) => Some (join ", " m)
     | _ => None
     end
  /\ headers result !! "Access-Control-Allow-Headers" =
     match allowedHeaders config with
     | Some ((_ :: _) as h) => Some (join ", " h)
     | _ => None
     end
  /\ headers result !! "Access-Control-Expose-Headers" =
     match exposedHeaders config with
     | Some ((_ :: _) as h) => Some (join ", " h)
     | _ => None
     end
  /\ headers result !! "Access-Control-Max-Age" = number_toString <$> maxAge config.
Proof.
  destruct (testOrigin_stage origin_ config) as (a & r & h & Hk & Hw & ->).
  cbn zeta. cbn [allowed headers].
  split.
  { intros Hc Ho. destruct (Hw Ho Hc) as (-> & _ & Ho' & Hc').
    split; [reflexivity|].
    split; repeat case_match; by simplify_map_eq. }
  repeat split; repeat case_match; simplify_map_eq; try reflexivity; by apply Hk.
Qed.

Lemma testOrigin_wildcard_credentials_witness :
  allowed (testOrigin "https://app.example.com" wildcard_with_credentials) = false.
Proof.
  apply (testOrigin_wildcard_credentials "https://app.example.com" wildcard_with_credentials).
  - reflexivity.
  - right. reflexivity.
Defined.

Lemma testOrigin_headers_witness :
  let result := testOrigin "https://app.example.com" wildcard_with_credentials in
  headers result !! "Access-Control-Allow-Origin" = Some "*"
  /\ headers result !! "Access-Control-Allow-Credentials" = Some "true"
  /\ headers result !! "Access-Control-Allow-Methods" = Some "GET, PUT"
  /\ headers result !! "Access-Control-Max-Age" = Some "600".
Proof.
  intros result.
  destruct (testOrigin_headers "https://app.example.com" wildcard_with_credentials)
    as (Hw & Hm & _ & _ & Ha).
  destruct Hw as (_ & Ho & Hc); [reflexivity | right; reflexivity |].
  split; [exact Ho|]. split; [exact Hc|]. split; [exact Hm | exact Ha].
Defined.

(** A max-age that is not a small integer is serialized as [toString()]
    gives it: [1e21] in exponent form, [0.5] with its fraction. *)
Example testOrigin_max_age_rendering :
  let config n := {| keys := [Korigin; KmaxAge];
                     origin := Some (OBoolean false); methods := None;
                     allowedHeaders := None; exposedHeaders := None;
                     credentials := None; maxAge := Some n |} in
  headers (testOrigin "https://app.example.com" (config (Num "1e+21")))
    !! "Access-Control-Max-Age" = Some "1e+21"
  /\ headers (testOrigin "https://app.example.com" (config (Num "0.5")))
       !! "Access-Control-Max-Age" = Some "0.5".
Proof. split; reflexivity. Qed.

End TestOriginFacts.

(* ===================================================================== *)
(** * Analyzer: [compareConfiguration] *)
(* ===================================================================== *)

Module CompareFacts.

Import SecurityAdvisor Analyzer.

Lemma every_equal_refl (l : list string) : every_equal l l = true.
Proof. induction l as [|s l IH]; simpl; [reflexivity|]. now rewrite String.eqb_refl. Qed.

Lemma isEqual_refl (v : Value) : proper_value v = true -> isEqual v v = true.
Proof.
  destruct v as [|b|n|s|a]; simpl; intros H; try discriminate H.
  - now apply bool_decide_eq_true.
  - unfold number_eqb. rewrite H. apply String.eqb_refl.
  - apply String.eqb_refl.
  - rewrite Nat.eqb_refl. apply every_equal_refl.
Qed.

Lemma proper_value_normalize (v : Value) : proper_value (normalize v) = proper_value v.
Proof. now destruct v as [|b|n|s|a]. Qed.

Lemma get_sort_property (config : CorsConfiguration) (key key' : Key) :
  get (sort_property config key) key' =
  if bool_decide (key = key') then normalize (get config key') else get config key'.
Proof.
  destruct config as [ks [[s|a|b|n]|] [m|] [ah|] [eh|] [c|] [n'|]];
    destruct key, key'; reflexivity.
Qed.

Lemma proper_value_sort_property (config : CorsConfiguration) (key key' : Key) :
  proper_value (get (sort_property config key) key') = proper_value (get config key').
Proof.
  rewrite get_sort_property. case_bool_decide; [apply proper_value_normalize | reflexivity].
Qed.

(** The loop over the keys of [X], run on [X] against itself. *)
Lemma compare_loop_same (ks : list Key) (c : CorsConfiguration) :
  (forall key, key ∈ ks -> proper_value (get c key) = true) ->
  exists c',
    fold_left compare_step ks
      {| st_current := c; st_expected := c; st_missing := []; st_incorrect := [] |} =
    {| st_current := c'; st_expected := c'; st_missing := []; st_incorrect := [] |}
    /\ keys c' = keys c
    /\ forall key, proper_value (get c' key) = proper_value (get c key).
Proof.
  revert c. induction ks as [|k ks IH]; intros c Hc; cbn [fold_left].
  - exists c. repeat split; reflexivity.
  - assert (Hk : proper_value (get c k) = true) by (apply Hc; left).
    assert (Hstep : compare_step
              {| st_current := c; st_expected := c; st_missing := []; st_incorrect := [] |} k =
              {| st_current := sort_property c k; st_expected := sort_property c k;
                 st_missing := []; st_incorrect := [] |}).
    { unfold compare_step. cbn [st_current st_expected st_missing st_incorrect].
      destruct (is_undefined (get c k)) eqn:Hu.
      - destruct (get c k); discriminate.
      - rewrite isEqual_refl by (now rewrite proper_value_normalize). reflexivity. }
    rewrite Hstep.
    destruct (IH (sort_property c k)) as (c' & Hfold & Hkeys & Hget).
    { intros key Hin. rewrite proper_value_sort_property. apply Hc. now right. }
    exists c'. split; [exact Hfold|]. split; [exact Hkeys|].
    intros key. rewrite Hget. apply proper_value_sort_property.
Qed.

Lemma filter_undefined_nil (c : CorsConfiguration) (ks : list Key) :
  (forall key, key ∈ ks -> proper_value (get c key) = true) ->
  List.filter (fun key => is_undefined (get c key)) ks = [].
Proof.
  induction ks as [|k ks IH]; intros H; [reflexivity|]. cbn [List.filter].
  assert (Hk : proper_value (get c k) = true) by (apply H; left).
  destruct (get c k); try discriminate Hk; cbn [is_undefined];
    apply IH; intros key Hin; apply H; now right.
Qed.

(** C8 (as amended).  For every configuration [X] each of whose own
    properties holds a defined value, [maxAge] not being [NaN],
    [compareConfiguration(X, X)] returns a diff with empty [missing],
    [incorrect] and [extra] lists and the summary that the configurations
    match. *)
Theorem compareConfiguration_same (X : CorsConfiguration) :
  valid X = true ->
  let diff := (compareConfiguration X X).1.1 in
  missing diff = [] /\ incorrect diff = [] /\ extra diff = []
  /\ summary diff = "Configurations match perfectly.".
Proof.
  intros HX. unfold valid in HX. rewrite forallb_forall in HX.
  destruct (compare_loop_same (keys X) X) as (c' & Hfold & Hkeys & Hget).
  { intros key Hin. apply HX. now apply list_elem_of_In. }
  assert (Hextra : List.filter (fun key => is_undefined (get c' key)) (keys c') = []).
  { rewrite Hkeys. apply filter_undefined_nil.
    intros key Hin. rewrite Hget. apply HX. now apply list_elem_of_In. }
  unfold compareConfiguration. rewrite Hfold.
  cbn [st_current st_expected st_missing st_incorrect fst snd].
  rewrite Hextra. cbn. repeat split.
Qed.

Lemma compareConfiguration_same_witness :
  let diff := (compareConfiguration example_config example_config).1.1 in
  missing diff = [] /\ incorrect diff = [] /\ extra diff = []
  /\ summary diff = "Configurations match perfectly.".
Proof. exact (compareConfiguration_same example_config eq_refl). Defined.

(** C8, as stated, fails.  A property may be set to [undefined]
    ([methods?: string[]] admits it), and [maxAge] may be [NaN]: compared
    with itself, the first configuration reports the property as missing
    and as extra, the second reports [maxAge] as incorrect, since [NaN] is
    not equal to itself; neither summary says that the configurations
    match. *)
Example compareConfiguration_same_undefined_property :
  let X := {| keys := [Korigin; Kmethods];
              origin := Some (OString "*"); methods := None;
              allowedHeaders := None; exposedHeaders := None;
              credentials := None; maxAge := None |} in
  let Y := {| keys := [Korigin; KmaxAge];
              origin := Some (OString "*"); methods := None;
              allowedHeaders := None; exposedHeaders := None;
              credentials := None; maxAge := Some NaN |} in
  missing (compareConfiguration X X).1.1 = ["methods"]
  /\ extra (compareConfiguration X X).1.1 = ["methods"]
  /\ summary (compareConfiguration X X).1.1 <> "Configurations match perfectly."
  /\ List.map property (incorrect (compareConfiguration Y Y).1.1) = ["maxAge"]
  /\ summary (compareConfiguration Y Y).1.1 <> "Configurations match perfectly.".
Proof. repeat split; try reflexivity; vm_compute; discriminate. Qed.

(** C7 fails on the code.  [normalize] sorts its argument with
    [value.sort()], in place: after the call the [methods] arrays of both
    arguments are sorted, neither argument is what it was.  ([isEqual],
    next to it, sorts copies.) *)
Theorem compareConfiguration_sorts_its_arguments :
  let current := example_config in
  let expected :=
    {| keys := [Korigin; Kmethods];
       origin := Some (OString "https://example.com");
       methods := Some ["PUT"; "GET"];
       allowedHeaders := None; exposedHeaders := None;
       credentials := None; maxAge := None |} in
  let '(diff, current_after, expected_after) := compareConfiguration current expected in
  methods current = Some ["POST"; "GET"]
  /\ methods current_after = Some ["GET"; "POST"]
  /\ methods expected = Some ["PUT"; "GET"]
  /\ methods expected_after = Some ["GET"; "PUT"]
  /\ current_after <> current
  /\ expected_after <> expected.
Proof. vm_compute. repeat split; discriminate. Qed.

End CompareFacts.

(* ===================================================================== *)
(** * Analyzer: [analyzeHeaders] *)
(* ===================================================================== *)

Module AnalyzeHeadersFacts.

Import SecurityAdvisor Analyzer PatternMatcher UtilsFacts.

Section WithURL.

Variable URL : string -> option URLRecord.





(** ** The analysis reads the bags through [parseHeaders] only *)

Section SameView.

Variables (req req' : Request) (res res' : Response).
Hypothesis same_method : Utils.method req = Utils.method req'.
Hypothesis same_request_view :
  parseHeaders (Some (Utils.headers req)) = parseHeaders (Some (Utils.headers req')).
Hypothesis same_response_view :
  parseHeaders (Some (getHeaders res)) = parseHeaders (Some (getHeaders res')).

Lemma isPreflightRequest_same_view : isPreflightRequest req = isPreflightRequest req'.
Proof.
  unfold isPreflightRequest. now rewrite same_method, same_request_view.
Qed.

Lemma detectors_same_view :
  Forall (fun p => detector p req res = detector p req' res') (COMMON_PATTERNS URL).
Proof.
  repeat constructor; cbn [detector pattern_wildcard_credentials_conflict
    pattern_multiple_origins_misconfiguration pattern_preflight_only_failure
    pattern_custom_headers_not_allowed pattern_missing_allow_origin
    pattern_missing_allow_headers pattern_missing_allow_methods
    pattern_credentials_mismatch pattern_origin_null_blocked pattern_port_mismatch];
  unfold detect_wildcard_credentials_conflict, detect_multiple_origins_misconfiguration,
    detect_preflight_only_failure, detect_custom_headers_not_allowed,
    detect_missing_allow_origin, detect_missing_allow_headers,
    detect_missing_allow_methods, detect_credentials_mismatch,
    detect_origin_null_blocked, detect_port_mismatch;
  rewrite ?isPreflightRequest_same_view, ?same_request_view, ?same_response_view;
  reflexivity.
Qed.

Lemma detectPattern_in_same (patterns : list ErrorPattern) :
  Forall (fun p => detector p req res = detector p req' res') patterns ->
  detectPattern_in patterns req res = detectPattern_in patterns req' res'.
Proof.
  induction 1 as [|p patterns Hp _ IH]; simpl; [reflexivity|].
  now rewrite Hp, IH.
Qed.

Lemma detectPattern_same_view : detectPattern URL req res = detectPattern URL req' res'.
Proof. apply detectPattern_in_same, detectors_same_view. Qed.

Lemma analyzeHeaders_same_view : analyzeHeaders URL req res = analyzeHeaders URL req' res'.
Proof.
  unfold analyzeHeaders.
  now rewrite detectPattern_same_view, isPreflightRequest_same_view,
    same_request_view, same_response_view.
Qed.

End SameView.

End WithURL.

Lemma fold_parseHeaders_without_empty (headers : RawHeaders) (m : HeaderMap) :
  fold_left parseHeaders_step (without_empty_values headers) m =
  fold_left parseHeaders_step headers m.
Proof.
  revert m. induction headers as [|[key value] headers IH]; intros m; [reflexivity|].
  unfold without_empty_values in *. cbn [List.filter snd fold_left].
  destruct (empty_valued value) eqn:E; cbn [negb fold_left].
  - now rewrite (parseHeaders_step_empty_valued m key value E).
  - apply IH.
Qed.

Lemma parseHeaders_without_empty (headers : RawHeaders) :
  parseHeaders (Some (without_empty_values headers)) = parseHeaders (Some headers).
Proof. apply fold_parseHeaders_without_empty. Qed.

(** C9 (as amended).  No key of the view that [parseHeaders] builds holds
    the empty string, whatever the bag; on a bag of the declared type (each
    value a string, an array of strings or [undefined]) every value of the
    view is a non-empty string.  An entry whose value, or whose first array
    element, is the empty string sets no key: the view, and with it the
    preflight test, the pattern catalog and the analyzer, cannot tell such
    an entry from an absent one. *)
Theorem parseHeaders_no_empty_value
    (URL : string -> option URLRecord) (req : Request) (res : Response) :
  (forall headers : option RawHeaders,
      map_Forall (fun _ v => v <> HStr "") (parseHeaders headers))
  /\ (strings_only (Utils.headers req) = true ->
      map_Forall (fun _ v => exists s, v = HStr s /\ s <> "")
                 (parseHeaders (Some (Utils.headers req))))
  /\ (forall l1 l2 key value,
        empty_valued value = true ->
        parseHeaders (Some (l1 ++ (key, value) :: l2)) = parseHeaders (Some (l1 ++ l2)))
  /\ let req' := {| Utils.method := Utils.method req;
                    Utils.headers := without_empty_values (Utils.headers req) |} in
     let res' := {| getHeaders := without_empty_values (getHeaders res) |} in
     parseHeaders (Some (Utils.headers req')) = parseHeaders (Some (Utils.headers req))
     /\ parseHeaders (Some (getHeaders res')) = parseHeaders (Some (getHeaders res))
     /\ isPreflightRequest req' = isPreflightRequest req
     /\ detectPattern URL req' res' = detectPattern URL req res
     /\ analyzeHeaders URL req' res' = analyzeHeaders URL req res.
Proof.
  split.
  { intros headers k v Hv ->. now apply (parseHeaders_truthy headers) in Hv. }
  split; [apply parseHeaders_strings|].
  split; [apply parseHeaders_skip_empty_valued|].
  cbn zeta.
  pose proof (parseHeaders_without_empty (Utils.headers req)) as Hreq.
  pose proof (parseHeaders_without_empty (getHeaders res)) as Hres.
  split; [exact Hreq|]. split; [exact Hres|].
  split; [now apply isPreflightRequest_same_view|].
  split; [now apply detectPattern_same_view | now apply analyzeHeaders_same_view].
Qed.

Lemma parseHeaders_no_empty_value_witness :
  map_Forall (fun _ v => exists s, v = HStr s /\ s <> "")
    (parseHeaders (Some [("Origin", RValue (HStr "https://example.com"));
                         ("Cookie", RValue (HStr ""));
                         ("Accept", RArray [""; "text/html"])]))
  /\ parseHeaders (Some ([("Origin", RValue (HStr "https://example.com"))]
                         ++ ("Cookie", RValue (HStr "")) :: []))
     = parseHeaders (Some ([("Origin", RValue (HStr "https://example.com"))] ++ [])).
Proof.
  pose (req := {| Utils.method := "GET";
                  Utils.headers := [("Origin", RValue (HStr "https://example.com"));
                                    ("Cookie", RValue (HStr ""));
                                    ("Accept", RArray [""; "text/html"])] |}).
  destruct (parseHeaders_no_empty_value (fun _ => None) req {| getHeaders := [] |})
    as (_ & Hstrings & Hskip & _).
  split.
  - apply Hstrings. reflexivity.
  - apply Hskip. reflexivity.
Defined.

(** C9, as stated, fails.  The bag of [res.getHeaders()] may hold a number,
    and the view keeps a number that is not zero: not every value of the
    view is a non-empty string. *)
Lemma parseHeaders_keeps_a_number :
  let view := parseHeaders (Some [("Content-Length", RValue (HNum 42))]) in
  view !! "content-length" = Some (HNum 42)
  /\ ~ map_Forall (fun _ v => exists s, v = HStr s /\ s <> "") view.
Proof.
  intros view. split; [reflexivity|].
  intros H. destruct (H "content-length" (HNum 42)) as (s & Hs & _); [reflexivity|].
  discriminate Hs.
Qed.



End AnalyzeHeadersFacts.

(* ===================================================================== *)
(** * History ledger: [ErrorHistory] *)
(* ===================================================================== *)

Module ErrorHistoryFacts.

Import Analyzer ExpressMiddleware.

Section History.

Variable localeCompare : string -> string -> Z.

Abbreviation add := (add localeCompare).
Abbreviation same_error := (same_error localeCompare).
Abbreviation diagnosesMatch := (diagnosesMatch localeCompare).
Abbreviation same_key := (same_key localeCompare).
Abbreviation adds := (adds localeCompare).

Lemma every_match_refl (l : list Diagnosis) : every_match l l = true.
Proof.
  induction l as [|d l IH]; simpl; [reflexivity|].
  now rewrite !String.eqb_refl, IH.
Qed.

Lemma diagnosesMatch_refl (a : list Diagnosis) : diagnosesMatch a a = true.
Proof.
  unfold ExpressMiddleware.diagnosesMatch. rewrite Nat.eqb_refl. apply every_match_refl.
Qed.

Lemma same_error_newError (first error : NewError) :
  same_key first error = true -> same_error error (newError first) = true.
Proof. intros H. exact H. Qed.

Lemma same_error_occurred_again (error error' : NewError) (e : CorsError) :
  same_error error (occurred_again error' e) = same_error error e.
Proof. reflexivity. Qed.

Lemma same_key_refl (first : NewError) : same_key first first = true.
Proof.
  unfold ExpressMiddleware.same_key. now rewrite !String.eqb_refl, diagnosesMatch_refl.
Qed.

(** A first occurrence enters at the front; when the array then exceeds
    the capacity, its last element leaves. *)
Lemma add_miss (h : ErrorHistory) (error : NewError) :
  List.find (same_error error) (errors h) = None ->
  add h error =
  {| errors :=
       if (maxSize h <? Z.of_nat (S (length (errors h))))%Z
       then removelast (newError error :: errors h)
       else newError error :: errors h;
     maxSize := maxSize h |}.
Proof. intros H. unfold ExpressMiddleware.add. now rewrite H. Qed.

(** A repeated occurrence changes the entry that [find] returns, where it
    stands. *)
Lemma add_hit_head (h : ErrorHistory) (error : NewError) (e : CorsError) (rest : list CorsError) :
  errors h = e :: rest ->
  same_error error e = true ->
  add h error = {| errors := occurred_again error e :: rest; maxSize := maxSize h |}.
Proof.
  intros Hh He. unfold ExpressMiddleware.add. rewrite Hh. simpl. now rewrite He.
Qed.

Lemma update_first_identity (p : CorsError -> bool) (error : NewError) (l : list CorsError) :
  List.map identity (update_first p (occurred_again error) l) = List.map identity l.
Proof.
  induction l as [|e l IH]; simpl; [reflexivity|].
  destruct (p e); simpl; [reflexivity | now rewrite IH].
Qed.

Lemma removelast_length {A} (l : list A) : length (removelast l) = pred (length l).
Proof.
  induction l as [|x [|y l] IH]; try reflexivity.
  change (removelast (x :: y :: l)) with (x :: removelast (y :: l)).
  cbn [length]. rewrite IH. reflexivity.
Qed.

(** The repeated occurrences of an entry that stands at the front. *)
Lemma adds_hits (rest : list CorsError) (first : NewError) (errors_ : list NewError) :
  forall (e : CorsError) (C : Z),
    identity e = identity (newError first) ->
    Forall (fun error => same_key first error = true) errors_ ->
    exists e',
      adds {| errors := e :: rest; maxSize := C |} errors_ =
      {| errors := e' :: rest; maxSize := C |}
      /\ identity e' = identity e
      /\ count e' = (count e + length errors_)%nat.
Proof.
  induction errors_ as [|error errors_ IH]; intros e C He Hall.
  - exists e. repeat split. simpl. lia.
  - inversion Hall as [|? ? Herr Hrest]; subst.
    assert (Hsame : same_error error e = true).
    { unfold identity in He. simpl in He. injection He as Hr Hm Ho Hd.
      unfold ExpressMiddleware.same_error. rewrite Hr, Hm, Ho, Hd. exact Herr. }
    unfold ExpressMiddleware.adds. cbn [fold_left].
    rewrite (add_hit_head {| errors := e :: rest; maxSize := C |} error e rest eq_refl Hsame).
    cbn [maxSize].
    destruct (IH (occurred_again error e) C He Hrest) as (e' & Hadds & Hid & Hcount).
    exists e'. split; [exact Hadds|]. split; [exact Hid|].
    rewrite Hcount. simpl. lia.
Qed.

(** C5 (as amended).  With a capacity of at least one, after [N >= 1] adds
    that share route, method, origin and diagnosis signature, made to a
    ledger that held no entry for them, exactly one entry for that key
    exists and its count is [N].  An add that would take a ledger of
    capacity [C] beyond [C] entries evicts the entry at the end of the
    array, the one inserted earliest, and [C] entries remain: new entries
    go to the front, and a repeated occurrence changes the count and the
    timestamp of its entry only, never its place. *)
Theorem add_counts_and_evicts (h : ErrorHistory) (first : NewError) (more : list NewError) (other : NewError) :
  ((1 <= maxSize h)%Z ->
   List.find (same_error first) (errors h) = None ->
   Forall (fun error => same_key first error = true) more ->
   let h' := adds h (first :: more) in
   exists e,
     List.filter (same_error first) (errors h') = [e]
     /\ count e = length (first :: more)
     /\ identity e = identity (newError first))
  /\ (List.find (same_error other) (errors h) = None ->
      Z.of_nat (length (errors h)) = maxSize h ->
      errors (add h other) = removelast (newError other :: errors h)
      /\ Z.of_nat (length (errors (add h other))) = maxSize h)
  /\ (List.find (same_error other) (errors h) = None ->
      (Z.of_nat (length (errors h)) < maxSize h)%Z ->
      errors (add h other) = newError other :: errors h)
  /\ (is_Some (List.find (same_error other) (errors h)) ->
      List.map identity (errors (add h other)) = List.map identity (errors h)).
Proof.
  split; [|split; [|split]].
  - intros HC Hfresh Hmore h'.
    assert (Hrest : exists rest,
               add h first = {| errors := newError first :: rest; maxSize := maxSize h |}
               /\ List.filter (same_error first) rest = []).
    { rewrite (add_miss h first Hfresh).
      assert (Hnone : List.filter (same_error first) (errors h) = []).
      { clear -Hfresh. induction (errors h) as [|e l IH]; [reflexivity|].
        simpl in *. destruct (same_error first e); [discriminate|]. now apply IH. }
      destruct (maxSize h <? Z.of_nat (S (length (errors h))))%Z eqn:E.
      - destruct (errors h) as [|e l] eqn:El.
        + apply Z.ltb_lt in E. simpl in E. lia.
        + exists (removelast (e :: l)). split; [reflexivity|].
          clear -Hnone. revert e Hnone. induction l as [|x l IH]; intros e Hnone; [reflexivity|].
          change (removelast (e :: x :: l)) with (e :: removelast (x :: l)).
          simpl in Hnone. cbn [List.filter].
          destruct (same_error first e); [discriminate|]. now apply IH.
      - exists (errors h). split; [reflexivity | exact Hnone]. }
    destruct Hrest as (rest & Hadd & Hfilter).
    subst h'. unfold ExpressMiddleware.adds. cbn [fold_left]. rewrite Hadd.
    destruct (adds_hits rest first more (newError first) (maxSize h) eq_refl Hmore)
      as (e' & Hadds & Hid & Hcount).
    unfold ExpressMiddleware.adds in Hadds. rewrite Hadds. cbn [errors]. exists e'.
    split; [|split; [|exact Hid]].
    + cbn [List.filter].
      assert (Hsame : same_error first e' = true).
      { unfold identity in Hid. simpl in Hid. injection Hid as Hr Hm Ho Hd.
        unfold ExpressMiddleware.same_error. rewrite Hr, Hm, Ho, Hd.
        apply same_key_refl. }
      now rewrite Hsame, Hfilter.
    + rewrite Hcount. reflexivity.
  - intros Hmiss Hfull. rewrite (add_miss h other Hmiss). cbn [errors].
    assert (E : (maxSize h <? Z.of_nat (S (length (errors h))))%Z = true) by (apply Z.ltb_lt; lia).
    rewrite E. split; [reflexivity|].
    rewrite removelast_length. simpl. exact Hfull.
  - intros Hmiss Hroom. rewrite (add_miss h other Hmiss). cbn [errors].
    assert (E : (maxSize h <? Z.of_nat (S (length (errors h))))%Z = false) by (apply Z.ltb_ge; lia).
    now rewrite E.
  - intros [e He]. unfold ExpressMiddleware.add. rewrite He. cbn [errors].
    apply update_first_identity.
Qed.

(** Eviction follows insertion, not the last occurrence: with capacity 2,
    after the adds of /a, /b and /a again, the add of /c evicts /a, the
    entry seen last but inserted first. *)
Example eviction_is_not_lru :
  let error r t := {| new_timestamp := t; new_route := r; new_method := "GET";
                      new_origin := "https://example.com"; new_diagnoses := [] |} in
  let h := adds (new_ErrorHistory 2%Z) [error "/a" 1%Z; error "/b" 2%Z; error "/a" 3%Z] in
  List.map (fun e => (route e, count e, timestamp e)) (errors h)
    = [("/b", 1%nat, 2%Z); ("/a", 2%nat, 3%Z)]
  /\ List.map route (errors (add h (error "/c" 4%Z))) = ["/c"; "/b"].
Proof. split; reflexivity. Qed.

End History.

Lemma add_counts_and_evicts_witness :
  (exists e,
      List.filter (same_error codeUnitCompare (sample "/a" 1%Z))
        (errors (adds codeUnitCompare (new_ErrorHistory 2%Z)
                   [sample "/a" 1%Z; sample "/a" 2%Z; sample "/a" 3%Z])) = [e]
      /\ count e = 3%nat)
  /\ List.map route
       (errors (add codeUnitCompare
                  {| errors := [newError (sample "/b" 2%Z); newError (sample "/a" 1%Z)];
                     maxSize := 2%Z |}
                  (sample "/c" 3%Z))) = ["/c"; "/b"]
  /\ List.map route
       (errors (add codeUnitCompare
                  {| errors := [newError (sample "/a" 1%Z)]; maxSize := 2%Z |}
                  (sample "/b" 2%Z))) = ["/b"; "/a"]
  /\ List.map route
       (errors (add codeUnitCompare
                  {| errors := [newError (sample "/b" 2%Z); newError (sample "/a" 1%Z)];
                     maxSize := 2%Z |}
                  (sample "/a" 3%Z))) = ["/b"; "/a"].
Proof.
  split; [|split; [|split]].
  - destruct (add_counts_and_evicts codeUnitCompare (new_ErrorHistory 2%Z) (sample "/a" 1%Z)
                [sample "/a" 2%Z; sample "/a" 3%Z] (sample "/a" 1%Z)) as (H & _).
    destruct H as (e & He & Hc & _).
    + simpl. lia.
    + reflexivity.
    + repeat constructor.
    + exists e. split; [exact He | exact Hc].
  - destruct (add_counts_and_evicts codeUnitCompare
                {| errors := [newError (sample "/b" 2%Z); newError (sample "/a" 1%Z)];
                   maxSize := 2%Z |}
                (sample "/c" 3%Z) [] (sample "/c" 3%Z)) as (_ & H & _).
    destruct H as (H & _); [reflexivity | reflexivity |].
    rewrite H. reflexivity.
  - destruct (add_counts_and_evicts codeUnitCompare
                {| errors := [newError (sample "/a" 1%Z)]; maxSize := 2%Z |}
                (sample "/b" 2%Z) [] (sample "/b" 2%Z)) as (_ & _ & H & _).
    rewrite H; [reflexivity | reflexivity | simpl; lia].
  - destruct (add_counts_and_evicts codeUnitCompare
                {| errors := [newError (sample "/b" 2%Z); newError (sample "/a" 1%Z)];
                   maxSize := 2%Z |}
                (sample "/a" 3%Z) [] (sample "/a" 3%Z)) as (_ & _ & _ & H).
    assert (Hid : forall l, List.map route l = List.map (fun i => i.1.1.1) (List.map identity l)).
    { intros l. rewrite map_map. reflexivity. }
    rewrite Hid, H; [reflexivity|]. eexists. reflexivity.
Defined.

(** C5, as stated, fails: with capacity 0 the entry of a first add is
    evicted at once, and after one add no entry with count 1 exists. *)
Lemma add_capacity_zero_keeps_nothing :
  let h := adds codeUnitCompare (new_ErrorHistory 0%Z) [sample "/a" 1%Z] in
  errors h = []
  /\ ~ (exists e, List.filter (same_error codeUnitCompare (sample "/a" 1%Z)) (errors h) = [e]
                  /\ count e = 1%nat).
Proof.
  split; [reflexivity|]. intros (e & He & _). discriminate He.
Qed.

End ErrorHistoryFacts.

(* ===================================================================== *)
(** * More about the header utilities *)
(* ===================================================================== *)

Module UtilsExtra.

Import JsFacts UtilsFacts.

Lemma lower_char_idem (c : ascii) : lower_char (lower_char c) = lower_char c.
Proof. each_char c; reflexivity. Qed.

Lemma toLowerCase_idem (s : string) : toLowerCase (toLowerCase s) = toLowerCase s.
Proof.
  unfold toLowerCase. rewrite chars_str, map_map.
  now rewrite (map_ext _ lower_char lower_char_idem).
Qed.

Lemma parseHeaders_snoc (entries : RawHeaders) (key : string) (value : RawValue) :
  parseHeaders (Some (entries ++ [(key, value)])) =
  match first_value value with
  | Some v =>
      if truthy v then <[toLowerCase key := v]> (parseHeaders (Some entries))
      else parseHeaders (Some entries)
  | None => parseHeaders (Some entries)
  end.
Proof.
  unfold parseHeaders. rewrite fold_left_app. cbn [fold_left].
  unfold parseHeaders_step. destruct value; reflexivity.
Qed.

Lemma header_candidates_snoc (k : string) (entries : RawHeaders) (e : string * RawValue) :
  header_candidates k (entries ++ [e]) =
  header_candidates k entries ++ header_candidates k [e].
Proof. unfold header_candidates. apply omap_app. Qed.

(** X1.  The view maps a name to the value of the last entry of the bag
    whose lower-cased name it is and whose value (the first element of an
    array) is truthy: later entries override earlier ones, whatever the
    case of their names. *)
Theorem parseHeaders_lookup_last (entries : RawHeaders) (k : string) :
  parseHeaders (Some entries) !! k = last (header_candidates k entries).
Proof.
  induction entries as [|[key value] entries IH] using rev_ind; [reflexivity|].
  rewrite parseHeaders_snoc, header_candidates_snoc.
  assert (Hone : header_candidates k [(key, value)] =
                 if toLowerCase key =? k then
                   match first_value value with
                   | Some v => if truthy v then [v] else []
                   | None => []
                   end
                 else []).
  { unfold header_candidates. cbn [omap list_omap fst snd].
    destruct (toLowerCase key =? k); [|reflexivity].
    destruct (first_value value) as [v|]; [|reflexivity].
    destruct (truthy v); reflexivity. }
  rewrite Hone.
  destruct (String.eqb_spec (toLowerCase key) k) as [->|Hne].
  - destruct (first_value value) as [v|]; [|now rewrite app_nil_r].
    destruct (truthy v); [|now rewrite app_nil_r].
    now rewrite lookup_insert_eq, last_snoc.
  - rewrite app_nil_r. destruct (first_value value) as [v|]; [|exact IH].
    destruct (truthy v); [|exact IH]. now rewrite lookup_insert_ne.
Qed.

(** X2.  Every key of the view is lower-case: a lookup by a name that is
    not in lower case finds nothing, whatever the bag holds. *)
Theorem parseHeaders_keys_lower_case (headers : option RawHeaders) (k : string) :
  toLowerCase k <> k -> parseHeaders headers !! k = None.
Proof.
  intros Hk. destruct headers as [entries|]; [|reflexivity].
  induction entries as [|[key value] entries IH] using rev_ind; [reflexivity|].
  rewrite parseHeaders_snoc.
  destruct (first_value value) as [v|]; [|exact IH].
  destruct (truthy v); [|exact IH].
  rewrite lookup_insert_ne; [exact IH|].
  intros <-. apply Hk, toLowerCase_idem.
Qed.

Lemma parseHeaders_keys_lower_case_witness :
  parseHeaders (Some [("Origin", RValue (HStr "https://example.com"))]) !! "Origin" = None.
Proof. apply parseHeaders_keys_lower_case. vm_compute. discriminate. Defined.

Lemma trimStart_l_padding (w l : list ascii) :
  forallb isWhiteSpace w = true -> trimStart_l (w ++ l) = trimStart_l l.
Proof.
  induction w as [|c w IH]; [reflexivity|]. cbn [forallb app trimStart_l].
  intros H. apply andb_true_iff in H as [-> H]. now apply IH.
Qed.

Lemma trimEnd_l_padding (l w : list ascii) :
  forallb isWhiteSpace w = true -> trimEnd_l (l ++ w) = trimEnd_l l.
Proof.
  intros H. unfold trimEnd_l. rewrite rev_app_distr, trimStart_l_padding; [reflexivity|].
  apply forallb_forall. intros c Hc. apply in_rev in Hc.
  rewrite forallb_forall in H. now apply H.
Qed.

Lemma trim_l_padding (before l after : list ascii) :
  forallb isWhiteSpace before = true -> forallb isWhiteSpace after = true ->
  trim_l (before ++ l ++ after) = trim_l l.
Proof.
  intros Hb Ha. unfold trim_l. rewrite (trimStart_l_padding _ _ Hb).
  induction l as [|c l IH].
  - cbn [app]. rewrite <- (app_nil_r after), (trimStart_l_padding _ _ Ha). reflexivity.
  - cbn [app trimStart_l]. destruct (isWhiteSpace c); [exact IH|].
    now rewrite app_comm_cons, trimEnd_l_padding.
Qed.

(** X3.  [normalizeOrigin] ignores the white space around an origin. *)
Theorem normalizeOrigin_ignores_padding (before after : list ascii) (O : string) :
  forallb isWhiteSpace before = true -> forallb isWhiteSpace after = true ->
  normalizeOrigin (Some (str before +:+ O +:+ str after)) = normalizeOrigin (Some O).
Proof.
  intros Hb Ha. rewrite !normalizeOrigin_unfold.
  rewrite !chars_append, !chars_str, (trim_l_padding _ _ _ Hb Ha).
  destruct (String.eqb_spec O "") as [->|HO].
  - destruct (_ =? ""); reflexivity.
  - destruct (String.eqb_spec (str before +:+ O +:+ str after) "") as [E|_]; [|reflexivity].
    exfalso. apply HO. apply (f_equal chars) in E.
    rewrite !chars_append, !chars_str in E.
    apply app_eq_nil in E as [_ E]. apply app_eq_nil in E as [E _].
    rewrite <- (str_chars O), E. reflexivity.
Qed.

Lemma normalizeOrigin_ignores_padding_witness :
  normalizeOrigin (Some (str [" "%char; ascii_of_N 9] +:+ "https://Example.com/"
                         +:+ str [ascii_of_N 10]))
  = normalizeOrigin (Some "https://Example.com/").
Proof. apply normalizeOrigin_ignores_padding; reflexivity. Defined.

End UtilsExtra.

(* ===================================================================== *)
(** * More about the pattern catalog *)
(* ===================================================================== *)

Module PatternMatcherExtra.

Import PatternMatcher UtilsFacts PatternMatcherFacts.

(** A header that the view lacks a truthy value for is absent from it. *)
Lemma truthy_opt_has (headers : option RawHeaders) (k : string) :
  truthy_opt (parseHeaders headers !! k) = has (parseHeaders headers) k.
Proof.
  unfold has. destruct (parseHeaders headers !! k) as [v|] eqn:E; simpl.
  - now rewrite (parseHeaders_truthy headers k v E).
  - reflexivity.
Qed.

(** The detectors of the catalog, in its order, as [detectPattern] runs
    them. *)
Lemma detectPattern_cases (URL : string -> option URLRecord) (req : Request) (res : Response) :
  detectPattern URL req res =
  if fires req res pattern_wildcard_credentials_conflict
  then Some pattern_wildcard_credentials_conflict
  else if fires req res pattern_multiple_origins_misconfiguration
  then Some pattern_multiple_origins_misconfiguration
  else if fires req res pattern_preflight_only_failure
  then Some pattern_preflight_only_failure
  else if fires req res pattern_custom_headers_not_allowed
  then Some pattern_custom_headers_not_allowed
  else if fires req res pattern_missing_allow_origin
  then Some pattern_missing_allow_origin
  else if fires req res pattern_missing_allow_headers
  then Some pattern_missing_allow_headers
  else if fires req res pattern_missing_allow_methods
  then Some pattern_missing_allow_methods
  else if fires req res pattern_credentials_mismatch
  then Some pattern_credentials_mismatch
  else if fires req res pattern_origin_null_blocked
  then Some pattern_origin_null_blocked
  else if fires req res (pattern_port_mismatch URL)
  then Some (pattern_port_mismatch URL)
  else None.
Proof.
  unfold detectPattern. rewrite detectPattern_in_find. reflexivity.
Qed.

Lemma fires_missing_allow_methods (req : Request) (res : Response) :
  fires req res pattern_missing_allow_methods = true ->
  fires req res pattern_preflight_only_failure = true.
Proof.
  unfold fires. cbn [detector pattern_missing_allow_methods pattern_preflight_only_failure].
  unfold detect_missing_allow_methods, detect_preflight_only_failure.
  destruct (isPreflightRequest req); cbn [negb]; [|discriminate].
  rewrite truthy_opt_has.
  destruct (has (parseHeaders (Some (getHeaders res))) "access-control-allow-methods");
    [discriminate|].
  intros _. now rewrite orb_true_r.
Qed.

(** X4.  Two entries of the catalog are never the result of
    [detectPattern]: missing-allow-headers has the detector of
    custom-headers-not-allowed, which comes before it, and whenever
    missing-allow-methods would fire, preflight-only-failure fires before
    it. *)
Theorem detectPattern_shadowed_entries
    (URL : string -> option URLRecord) (req : Request) (res : Response) (p : ErrorPattern) :
  detectPattern URL req res = Some p ->
  id p <> "missing-allow-headers" /\ id p <> "missing-allow-methods".
Proof.
  rewrite detectPattern_cases.
  pose proof (fires_missing_allow_methods req res) as Hm.
  assert (Hh : fires req res pattern_missing_allow_headers =
               fires req res pattern_custom_headers_not_allowed) by reflexivity.
  rewrite Hh.
  destruct (fires req res pattern_wildcard_credentials_conflict);
    [intros [= <-]; split; discriminate|].
  destruct (fires req res pattern_multiple_origins_misconfiguration);
    [intros [= <-]; split; discriminate|].
  destruct (fires req res pattern_preflight_only_failure);
    [intros [= <-]; split; discriminate|].
  destruct (fires req res pattern_custom_headers_not_allowed);
    [intros [= <-]; split; discriminate|].
  destruct (fires req res pattern_missing_allow_origin);
    [intros [= <-]; split; discriminate|].
  destruct (fires req res pattern_missing_allow_methods);
    [now specialize (Hm eq_refl)|].
  destruct (fires req res pattern_credentials_mismatch);
    [intros [= <-]; split; discriminate|].
  destruct (fires req res pattern_origin_null_blocked);
    [intros [= <-]; split; discriminate|].
  destruct (fires req res (pattern_port_mismatch URL));
    [intros [= <-]; split; discriminate | discriminate].
Qed.

Lemma detectPattern_shadowed_entries_witness :
  let req := {| method := "GET"; headers := [("Origin", RValue (HStr "https://example.com"))] |} in
  let res := {| getHeaders := [] |} in
  id pattern_missing_allow_origin <> "missing-allow-headers"
  /\ id pattern_missing_allow_origin <> "missing-allow-methods".
Proof.
  intros req res.
  apply (detectPattern_shadowed_entries (fun _ => None) req res pattern_missing_allow_origin).
  reflexivity.
Defined.

Lemma isPreflightRequest_not_options (req : Request) :
  method req <> "OPTIONS" -> isPreflightRequest req = false.
Proof.
  intros H. unfold isPreflightRequest.
  destruct (String.eqb_spec (method req) "OPTIONS"); [contradiction | reflexivity].
Qed.

(** X5.  For a request whose method is not exactly [OPTIONS], whatever
    headers it carries, [detectPattern] returns none of the patterns of a
    preflight. *)
Theorem detectPattern_not_options
    (URL : string -> option URLRecord) (req : Request) (res : Response) (p : ErrorPattern) :
  method req <> "OPTIONS" ->
  detectPattern URL req res = Some p ->
  id p <> "preflight-only-failure" /\ id p <> "custom-headers-not-allowed"
  /\ id p <> "missing-allow-headers" /\ id p <> "missing-allow-methods".
Proof.
  intros Hm. pose proof (isPreflightRequest_not_options req Hm) as Hp.
  rewrite detectPattern_cases.
  assert (H1 : fires req res pattern_preflight_only_failure = false).
  { unfold fires. cbn [detector pattern_preflight_only_failure].
    unfold detect_preflight_only_failure. now rewrite Hp. }
  assert (H2 : fires req res pattern_custom_headers_not_allowed = false).
  { unfold fires. cbn [detector pattern_custom_headers_not_allowed].
    unfold detect_custom_headers_not_allowed. now rewrite Hp. }
  assert (H3 : fires req res pattern_missing_allow_headers = false) by exact H2.
  assert (H4 : fires req res pattern_missing_allow_methods = false).
  { unfold fires. cbn [detector pattern_missing_allow_methods].
    unfold detect_missing_allow_methods. now rewrite Hp. }
  rewrite H1, H2, H3, H4.
  repeat lazymatch goal with
  | |- (if ?b then _ else _) = _ -> _ => destruct b; [intros [= <-]; repeat split; discriminate|]
  end.
  discriminate.
Qed.

Lemma detectPattern_not_options_witness :
  let req := {| method := "options";
                headers := [("Origin", RValue (HStr "https://example.com"));
                            ("Access-Control-Request-Method", RValue (HStr "PUT"))] |} in
  let res := {| getHeaders := [] |} in
  detectPattern (fun _ => None) req res = Some pattern_missing_allow_origin
  /\ id pattern_missing_allow_origin <> "preflight-only-failure".
Proof.
  intros req res. split; [reflexivity|].
  apply (detectPattern_not_options (fun _ => None) req res pattern_missing_allow_origin).
  - vm_compute. discriminate.
  - reflexivity.
Defined.

End PatternMatcherExtra.

(* ===================================================================== *)
(** * More about [sort_by] *)
(* ===================================================================== *)

Module SortExtra.

(** [sort_by] along a comparator. *)
Section Ordered.
Context {A : Type} (le : A -> A -> bool).

Lemma insert_sorted_permutation (x : A) (l : list A) :
  Permutation (insert_sorted le x l) (x :: l).
Proof.
  induction l as [|y l IH]; simpl; [reflexivity|].
  destruct (le x y); [reflexivity|]. rewrite IH. apply perm_swap.
Qed.

Lemma sort_by_permutation (l : list A) : Permutation (sort_by le l) l.
Proof.
  induction l as [|x l IH]; [reflexivity|].
  unfold sort_by in *. cbn [foldr]. rewrite insert_sorted_permutation. now rewrite IH.
Qed.

Lemma sort_by_length (l : list A) : length (sort_by le l) = length l.
Proof. apply Permutation_length, sort_by_permutation. Qed.

(** Only the values of the comparator on the elements count. *)
Lemma sort_by_ext (le' : A -> A -> bool) (l : list A) :
  (forall a b, le a b = le' a b) -> sort_by le l = sort_by le' l.
Proof.
  intros H. induction l as [|x l IH]; [reflexivity|].
  unfold sort_by in *. cbn [foldr]. rewrite IH.
  generalize (foldr (insert_sorted le') [] l). intros s.
  induction s as [|y s IHs]; [reflexivity|].
  cbn [insert_sorted]. now rewrite H, IHs.
Qed.

(** A comparator that looks at the elements through [f] sorts the images
    as it sorts the elements. *)
Lemma sort_by_map {B : Type} (f : A -> B) (le' : B -> B -> bool) (l : list A) :
  (forall a b, le a b = le' (f a) (f b)) ->
  List.map f (sort_by le l) = sort_by le' (List.map f l).
Proof.
  intros H. induction l as [|x l IH]; [reflexivity|].
  unfold sort_by in *. cbn [foldr List.map]. rewrite <- IH.
  generalize (foldr (insert_sorted le) [] l). intros s.
  induction s as [|y s IHs]; [reflexivity|].
  cbn [insert_sorted List.map]. rewrite <- H.
  destruct (le x y); cbn [List.map]; [reflexivity | now rewrite IHs].
Qed.

(** From here on the comparator is a total order. *)
Hypothesis le_total : forall a b, le a b = true \/ le b a = true.
Hypothesis le_trans : forall a b c, le a b = true -> le b c = true -> le a c = true.
Hypothesis le_antisym : forall a b, le a b = true -> le b a = true -> a = b.

Lemma insert_sorted_ordered (x : A) (l : list A) : ordered le l -> ordered le (insert_sorted le x l).
Proof.
  unfold ordered. induction l as [|y l IH]; intros Hl; simpl.
  - constructor; constructor.
  - inversion Hl as [|? ? Hl' Hy]; subst. destruct (le x y) eqn:Hxy.
    + constructor; [exact Hl|]. constructor; [exact Hxy|].
      eapply Forall_impl; [exact Hy|]. intros z Hz. simpl in *. eauto.
    + constructor; [now apply IH|].
      rewrite (insert_sorted_permutation x l). constructor; [|exact Hy].
      destruct (le_total x y) as [H|H]; [congruence | exact H].
Qed.

Lemma sort_by_ordered (l : list A) : ordered le (sort_by le l).
Proof.
  induction l as [|x l IH]; [constructor|].
  unfold sort_by in *. cbn [foldr]. now apply insert_sorted_ordered.
Qed.

(** An ordered list is the only ordered arrangement of its elements. *)
Lemma ordered_unique (l1 l2 : list A) :
  ordered le l1 -> ordered le l2 -> Permutation l1 l2 -> l1 = l2.
Proof.
  unfold ordered. revert l2. induction l1 as [|x l1 IH]; intros l2 H1 H2 Hp.
  - apply Permutation_nil in Hp. now subst.
  - destruct l2 as [|y l2]; [symmetry in Hp; now apply Permutation_nil in Hp|].
    inversion H1 as [|? ? H1' Hx]; subst. inversion H2 as [|? ? H2' Hy]; subst.
    assert (Hxy : x = y).
    { assert (Hin1 : In x (y :: l2)) by (eapply Permutation_in; [exact Hp | now left]).
      assert (Hin2 : In y (x :: l1))
        by (eapply Permutation_in; [symmetry; exact Hp | now left]).
      destruct Hin1 as [->|Hin1]; [reflexivity|].
      destruct Hin2 as [->|Hin2]; [reflexivity|].
      rewrite List.Forall_forall in Hx, Hy.
      apply le_antisym; [now apply Hx | now apply Hy]. }
    subst y. f_equal. apply IH; [exact H1' | exact H2' |].
    now apply Permutation_cons_inv in Hp.
Qed.

Lemma sort_by_canonical (l1 l2 : list A) :
  Permutation l1 l2 -> sort_by le l1 = sort_by le l2.
Proof.
  intros Hp. apply ordered_unique; try apply sort_by_ordered.
  rewrite !sort_by_permutation. exact Hp.
Qed.

Lemma sort_by_idempotent (l : list A) : sort_by le (sort_by le l) = sort_by le l.
Proof. apply sort_by_canonical, sort_by_permutation. Qed.

End Ordered.

(** The code unit order of strings is a total order. *)
Lemma ascii_compare_N (a b : ascii) :
  Ascii.compare a b = N.compare (N_of_ascii a) (N_of_ascii b).
Proof. reflexivity. Qed.

Lemma string_compare_trans_lt (a b c : string) :
  String.compare a b = Lt -> String.compare b c = Lt -> String.compare a c = Lt.
Proof.
  revert b c. induction a as [|x a IH]; intros [|y b] [|z c]; simpl; try congruence.
  rewrite !ascii_compare_N.
  destruct (N.compare_spec (N_of_ascii x) (N_of_ascii y)) as [Hxy|Hxy|Hxy];
    destruct (N.compare_spec (N_of_ascii y) (N_of_ascii z)) as [Hyz|Hyz|Hyz];
    destruct (N.compare_spec (N_of_ascii x) (N_of_ascii z)) as [Hxz|Hxz|Hxz];
    try congruence; try lia; intros H1 H2; eauto.
Qed.

Lemma string_compare_refl (a : string) : String.compare a a = Eq.
Proof.
  induction a as [|x a IH]; simpl; [reflexivity|].
  now rewrite ascii_compare_N, N.compare_refl.
Qed.

Lemma string_leb_trans (a b c : string) :
  String.leb a b = true -> String.leb b c = true -> String.leb a c = true.
Proof.
  unfold String.leb.
  destruct (String.compare a b) eqn:Hab; try discriminate;
    destruct (String.compare b c) eqn:Hbc; try discriminate; intros _ _.
  - apply String.compare_eq_iff in Hab, Hbc. subst. now rewrite string_compare_refl.
  - apply String.compare_eq_iff in Hab. subst. now rewrite Hbc.
  - apply String.compare_eq_iff in Hbc. subst. now rewrite Hab.
  - now rewrite (string_compare_trans_lt a b c Hab Hbc).
Qed.

Lemma sort_strings_canonical (a b : list string) :
  Permutation a b -> sort_strings a = sort_strings b.
Proof.
  apply sort_by_canonical;
    [apply String.leb_total | apply string_leb_trans | apply String.leb_antisym].
Qed.

Lemma sort_strings_idempotent (a : list string) : sort_strings (sort_strings a) = sort_strings a.
Proof. apply sort_strings_canonical, sort_by_permutation. Qed.

End SortExtra.

(* ===================================================================== *)
(** * More about the security advisor *)
(* ===================================================================== *)

Module SecurityAdvisorExtra.

Import SecurityAdvisor.

Lemma filter_nonempty_existsb {A} (f : A -> bool) (l : list A) :
  (0 <? length (List.filter f l))%nat = existsb f l.
Proof.
  induction l as [|x l IH]; [reflexivity|]. simpl.
  destruct (f x); [reflexivity | exact IH].
Qed.

(** The issues by level and title, in the order the checks push them. *)
Lemma pushedIssues_levels_titles (config : CorsConfiguration) (environment : Environment) :
  List.map (fun i => (level i, title i)) (pushedIssues config environment) =
  (if match environment with production => isWildcard config | development => false end
   then [(warning, "Wildcard Origin in Production")] else [])
  ++ (if bool_decide (credentials config = Some true) && isWildcard config
      then [(critical, "Credentials with Wildcard Origin")] else [])
  ++ (if exposes_sensitive config
      then [(warning, "Sensitive Headers Exposed")] else [])
  ++ (if allows_dangerous config
      then [(info, "Potentially Unnecessary HTTP Methods Allowed")] else []).
Proof.
  unfold pushedIssues, exposes_sensitive, allows_dangerous.
  destruct (exposedHeaders config) as [[|eh exposed]|];
    destruct (methods config) as [[|m allowed]|];
    cbv beta iota zeta;
    rewrite ?filter_nonempty_existsb;
    repeat lazymatch goal with
    | |- context [existsb ?f (?x :: ?l)] =>
        let b := fresh "b" in
        generalize (existsb f (x :: l)); intros b; destruct b
    end;
    destruct environment, (isWildcard config),
      (bool_decide (credentials config = Some true)); reflexivity.
Qed.

(** The issues of [checkSecurity] are those that the checks push. *)
Lemma checkSecurity_levels_titles_elem
    (config : CorsConfiguration) (environment : Environment) (p : Level * string) :
  p ∈ List.map (fun i => (level i, title i)) (checkSecurity config environment)
  <-> p ∈ List.map (fun i => (level i, title i)) (pushedIssues config environment).
Proof.
  assert (H : Permutation
                (List.map (fun i => (level i, title i)) (checkSecurity config environment))
                (List.map (fun i => (level i, title i)) (pushedIssues config environment))).
  { apply Permutation_map. unfold checkSecurity.
    apply (SortFacts.sort_by_perm (fun i => severityOrder (level i))). }
  now rewrite H.
Qed.

(** X6.  [checkSecurity] returns at most four issues, each decided by its
    own rule and in this order: the critical one for credentials with a
    wildcard origin (in any environment), the warning for a wildcard origin
    (in production only), the warning for a sensitive exposed header, the
    info for a dangerous method. *)
Theorem checkSecurity_issues (config : CorsConfiguration) (environment : Environment) :
  List.map (fun i => (level i, title i)) (checkSecurity config environment) =
  (if bool_decide (credentials config = Some true) && isWildcard config
   then [(critical, "Credentials with Wildcard Origin")] else [])
  ++ (if match environment with production => isWildcard config | development => false end
      then [(warning, "Wildcard Origin in Production")] else [])
  ++ (if exposes_sensitive config
      then [(warning, "Sensitive Headers Exposed")] else [])
  ++ (if allows_dangerous config
      then [(info, "Potentially Unnecessary HTTP Methods Allowed")] else []).
Proof.
  unfold checkSecurity.
  rewrite (SortExtra.sort_by_map severity_le (fun i => (level i, title i))
             (fun p q => (severityOrder p.1 - severityOrder q.1 <=? 0)%Z))
    by reflexivity.
  rewrite pushedIssues_levels_titles.
  destruct environment, (isWildcard config), (bool_decide (credentials config = Some true)),
    (exposes_sensitive config), (allows_dangerous config); reflexivity.
Qed.

End SecurityAdvisorExtra.

(* ===================================================================== *)
(** * More about [testOrigin] *)
(* ===================================================================== *)

Module TestOriginExtra.

Import SecurityAdvisor Analyzer.

Lemma array_includes_map (f : string -> string) (a : list string) (x : string) :
  array_includes (List.map f a) x = existsb (fun o => x =? f o) a.
Proof. unfold array_includes. induction a as [|o a IH]; simpl; [reflexivity | now rewrite IH]. Qed.

(** The four configuration steps leave the other headers as they are. *)
Lemma configured_headers_other (config : CorsConfiguration) (h : gmap string string)
    (k : string) :
  k <> "Access-Control-Allow-Methods" -> k <> "Access-Control-Allow-Headers" ->
  k <> "Access-Control-Expose-Headers" -> k <> "Access-Control-Max-Age" ->
  configured_headers config h !! k = h !! k.
Proof.
  intros Hm Hh He Ha. unfold configured_headers.
  destruct (methods config) as [[|? ?]|], (allowedHeaders config) as [[|? ?]|],
    (exposedHeaders config) as [[|? ?]|], (maxAge config) as [?|];
    cbv zeta; rewrite ?lookup_insert_ne by congruence; reflexivity.
Qed.

Lemma configured_headers_methods (config : CorsConfiguration) (h : gmap string string) :
  configured_headers config h !! "Access-Control-Allow-Methods"
  = if configured (methods config)
    then Some (join ", " (default [] (methods config)))
    else h !! "Access-Control-Allow-Methods".
Proof.
  unfold configured_headers, configured.
  destruct (methods config) as [[|? ?]|], (allowedHeaders config) as [[|? ?]|],
    (exposedHeaders config) as [[|? ?]|], (maxAge config) as [?|];
    cbv zeta; rewrite ?lookup_insert_ne by discriminate; rewrite ?lookup_insert_eq;
    reflexivity.
Qed.

Lemma configured_headers_allowed (config : CorsConfiguration) (h : gmap string string) :
  configured_headers config h !! "Access-Control-Allow-Headers"
  = if configured (allowedHeaders config)
    then Some (join ", " (default [] (allowedHeaders config)))
    else h !! "Access-Control-Allow-Headers".
Proof.
  unfold configured_headers, configured.
  destruct (methods config) as [[|? ?]|], (allowedHeaders config) as [[|? ?]|],
    (exposedHeaders config) as [[|? ?]|], (maxAge config) as [?|];
    cbv zeta; rewrite ?lookup_insert_ne by discriminate; rewrite ?lookup_insert_eq;
    reflexivity.
Qed.

(** The decision, the reason and the two headers that the origin and the
    credentials steps of [testOrigin] leave. *)
Lemma testOrigin_decision_stage (origin_ : string) (config : CorsConfiguration) :
  let g := granted_origin origin_ config in
  let cred := bool_decide (credentials config = Some true) in
  exists (r : option string) (h : gmap string string),
    (forall k, k <> "Access-Control-Allow-Origin" ->
               k <> "Access-Control-Allow-Credentials" -> h !! k = None)
    /\ h !! "Access-Control-Allow-Origin" = g
    /\ h !! "Access-Control-Allow-Credentials" =
       (if cred && bool_decide (is_Some g) then Some "true" else None)
    /\ (r = None <->
        bool_decide (is_Some g) && negb (cred && bool_decide (g = Some "*")) = true)
    /\ testOrigin origin_ config =
       let a := bool_decide (is_Some g) && negb (cred && bool_decide (g = Some "*")) in
       let headers := configured_headers config h in
       let preflightRequired :=
         match methods config with
         | Some m =>
             existsb (fun m => negb (array_includes ["GET"; "HEAD"; "POST"] (toUpperCase m))) m
         | None => false
         end
         || match allowedHeaders config with
            | Some h => (0 <? length h)%nat
            | None => false
            end in
       let preflightAllowed :=
         a
         && (negb preflightRequired
             || (bool_decide (is_Some (headers !! "Access-Control-Allow-Methods"))
                 && bool_decide (is_Some (headers !! "Access-Control-Allow-Headers")))) in
       {| allowed := a;
          reason := r;
          headers := headers;
          preflight := {| required := preflightRequired;
                          preflight_allowed := preflightAllowed |} |}.
Proof.
  intros g cred. unfold testOrigin.
  lazymatch goal with
  | |- context [match ?M with pair _ _ => _ end] =>
      lazymatch M with
      | context [origin config] => set (S1 := M)
      end
  end.
  assert (H1 : exists r1,
             S1 = (bool_decide (is_Some g), r1,
                   match g with
                   | Some v => <["Access-Control-Allow-Origin" := v]> ∅
                   | None => ∅
                   end)
             /\ (r1 = None <-> is_Some g)).
  { subst S1 g. unfold granted_origin.
    destruct (origin config) as [[s|a|[|]|n]|]; rewrite ?array_includes_map;
      repeat lazymatch goal with
      | |- context [if ?b then _ else _] => destruct b
      end;
      eexists; (split; [reflexivity|]); split; intros H; try done; try by eexists.
    all: by destruct H. }
  destruct H1 as (r1 & -> & Hr1).
  lazymatch goal with
  | |- context [match ?M with pair _ _ => _ end] => set (S2 := M)
  end.
  assert (H2 : exists r h,
             S2 = (bool_decide (is_Some g) && negb (cred && bool_decide (g = Some "*")), r, h)
             /\ (forall k, k <> "Access-Control-Allow-Origin" ->
                           k <> "Access-Control-Allow-Credentials" -> h !! k = None)
             /\ h !! "Access-Control-Allow-Origin" = g
             /\ h !! "Access-Control-Allow-Credentials" =
                (if cred && bool_decide (is_Some g) then Some "true" else None)
             /\ (r = None <->
                 bool_decide (is_Some g) && negb (cred && bool_decide (g = Some "*")) = true)).
  { subst S2 cred. cbv beta iota.
    destruct (bool_decide (credentials config = Some true)).
    - destruct g as [v|] eqn:Eg.
      + rewrite lookup_insert_eq.
        destruct (decide (v = "*")) as [->|Hv].
        * rewrite !bool_decide_eq_true_2 by (done || by eexists).
          eexists _, _. split; [reflexivity|].
          split; [intros k Hk Hk'; by simplify_map_eq|].
          split; [by simplify_map_eq|]. split; [by simplify_map_eq|]. done.
        * rewrite (bool_decide_eq_false_2 (Some v = Some "*")) by congruence.
          rewrite bool_decide_eq_true_2 by (by eexists).
          eexists _, _. split; [reflexivity|].
          split; [intros k Hk Hk'; by simplify_map_eq|].
          split; [by simplify_map_eq|]. split; [by simplify_map_eq|].
          cbn. rewrite Hr1. split; [done | by eexists].
      + rewrite lookup_empty.
        rewrite (bool_decide_eq_false_2 (None = Some "*")) by done.
        rewrite (bool_decide_eq_false_2 (is_Some None)) by (by intros [? ?]).
        eexists _, _. split; [reflexivity|].
        split; [intros k Hk Hk'; by simplify_map_eq|].
        split; [done|]. split; [done|].
        cbn. rewrite Hr1. split; [by intros [? ?] | done].
    - eexists _, _. split; [cbn; by rewrite andb_true_r|].
      split; [intros k Hk Hk'; destruct g; by simplify_map_eq|].
      split; [destruct g; by simplify_map_eq|].
      split; [destruct g; by simplify_map_eq|].
      cbn. rewrite andb_true_r, Hr1. by rewrite bool_decide_eq_true. }
  destruct H2 as (r & h & -> & Hk & Ho & Hc & Hr).
  exists r, h. repeat (split; [assumption|]). reflexivity.
Qed.

Ltac testOrigin_stages origin_ config r h Hk Ho Hc Hr :=
  destruct (testOrigin_decision_stage origin_ config) as (r & h & Hk & Ho & Hc & Hr & ->);
  cbv zeta; cbn [allowed reason headers preflight required preflight_allowed].

(** X7.  [testOrigin] decides in two steps, and the headers show it: the
    allow-origin header is the value that the origin check grants, also
    when credentials then reject it; the origin is allowed when a value is
    granted, unless credentials are on and the value is the wildcard; the
    allow-credentials header is set when credentials are on and a value is
    granted. *)
Theorem testOrigin_decision (origin_ : string) (config : CorsConfiguration) :
  let result := testOrigin origin_ config in
  let g := granted_origin origin_ config in
  let cred := bool_decide (credentials config = Some true) in
  headers result !! "Access-Control-Allow-Origin" = g
  /\ allowed result = bool_decide (is_Some g) && negb (cred && bool_decide (g = Some "*"))
  /\ headers result !! "Access-Control-Allow-Credentials" =
     (if cred && bool_decide (is_Some g) then Some "true" else None).
Proof.
  testOrigin_stages origin_ config r h Hk Ho Hc Hr.
  split; [|split; [reflexivity|]].
  - rewrite <- Ho. now apply configured_headers_other.
  - rewrite <- Hc. now apply configured_headers_other.
Qed.

(** X8.  [testOrigin] gives a reason exactly when it rejects the origin;
    an allowed origin always comes with an allow-origin header, and an
    allow-credentials header never comes without one. *)
Theorem testOrigin_reason_iff_rejected (origin_ : string) (config : CorsConfiguration) :
  let result := testOrigin origin_ config in
  (reason result = None <-> allowed result = true)
  /\ (allowed result = true -> is_Some (headers result !! "Access-Control-Allow-Origin"))
  /\ (is_Some (headers result !! "Access-Control-Allow-Credentials") ->
      is_Some (headers result !! "Access-Control-Allow-Origin")).
Proof.
  testOrigin_stages origin_ config r h Hk Ho Hc Hr.
  assert (HO : forall m : gmap string string,
             m !! "Access-Control-Allow-Origin" = h !! "Access-Control-Allow-Origin" ->
             is_Some (granted_origin origin_ config) ->
             is_Some (m !! "Access-Control-Allow-Origin")).
  { intros m -> Hg. now rewrite Ho. }
  split; [exact Hr|]. split.
  - intros Ha. apply andb_prop in Ha as [Hg _]. apply bool_decide_eq_true in Hg.
    apply HO; [|exact Hg]. now apply configured_headers_other.
  - intros Hcred.
    assert (Hc' : is_Some (h !! "Access-Control-Allow-Credentials")).
    { revert Hcred. now rewrite configured_headers_other. }
    rewrite Hc in Hc'.
    destruct (bool_decide (credentials config = Some true)
              && bool_decide (is_Some (granted_origin origin_ config))) eqn:E;
      [|by destruct Hc'].
    apply andb_prop in E as [_ Hg]. apply bool_decide_eq_true in Hg.
    apply HO; [|exact Hg]. now apply configured_headers_other.
Qed.

Lemma testOrigin_reason_iff_rejected_witness :
  reason (testOrigin "https://evil.example" wildcard_with_credentials) <> None
  /\ is_Some (headers (testOrigin "https://evil.example" wildcard_with_credentials)
                !! "Access-Control-Allow-Origin").
Proof.
  destruct (testOrigin_reason_iff_rejected "https://evil.example" wildcard_with_credentials)
    as (Hr & _ & Hc).
  split.
  - intros H. apply Hr in H. discriminate H.
  - apply Hc. eexists. reflexivity.
Defined.

(** X9.  Preflight: it is allowed only when the origin is allowed and, if
    it is required, only when both [methods] and [allowedHeaders] are
    configured and not empty.  So a configuration that lists a method
    outside GET, HEAD and POST but no allowed header never passes the
    preflight. *)
Theorem testOrigin_preflight (origin_ : string) (config : CorsConfiguration) :
  let result := testOrigin origin_ config in
  preflight_allowed (preflight result) =
    allowed result
    && (negb (required (preflight result))
        || (configured (methods config) && configured (allowedHeaders config)))
  /\ (configured (allowedHeaders config) = false ->
      required (preflight result) = true ->
      preflight_allowed (preflight result) = false).
Proof.
  testOrigin_stages origin_ config r h Hk Ho Hc Hr.
  assert (Hm : forall m : gmap string string,
             m !! "Access-Control-Allow-Methods" =
               (if configured (methods config)
                then Some (join ", " (default [] (methods config))) else None) ->
             bool_decide (is_Some (m !! "Access-Control-Allow-Methods"))
             = configured (methods config)).
  { intros m ->. by destruct (configured (methods config)). }
  assert (Hh : forall m : gmap string string,
             m !! "Access-Control-Allow-Headers" =
               (if configured (allowedHeaders config)
                then Some (join ", " (default [] (allowedHeaders config))) else None) ->
             bool_decide (is_Some (m !! "Access-Control-Allow-Headers"))
             = configured (allowedHeaders config)).
  { intros m ->. by destruct (configured (allowedHeaders config)). }
  rewrite Hm, Hh.
  - split; [reflexivity|]. intros Hah Hreq. rewrite Hah, Hreq, andb_false_r.
    cbn. by rewrite andb_false_r.
  - rewrite configured_headers_allowed, Hk by discriminate. reflexivity.
  - rewrite configured_headers_methods, Hk by discriminate. reflexivity.
Qed.

Lemma testOrigin_preflight_witness :
  preflight_allowed (preflight (testOrigin "https://app.example.com"
    {| keys := [Korigin; Kmethods];
       origin := Some (OString "https://app.example.com");
       methods := Some ["GET"; "PUT"];
       allowedHeaders := None; exposedHeaders := None;
       credentials := None; maxAge := None |})) = false.
Proof.
  apply testOrigin_preflight; reflexivity.
Defined.

(** X10.  Matching goes through [normalizeOrigin]: against a configured
    origin string [O] that is ASCII and is not the wildcard, the upper-cased
    [O] is allowed, and so is [O] with a slash appended when [O] does not
    end in white space nor in a slash; the allow-origin header is the
    configured string as it is written, not the tested origin. *)
Theorem testOrigin_matches_normalized (O : string) (config : CorsConfiguration) :
  origin config = Some (OString O) ->
  O <> "*" ->
  (ascii_only O = true ->
   allowed (testOrigin (toUpperCase O) config) = true
   /\ headers (testOrigin (toUpperCase O) config) !! "Access-Control-Allow-Origin" = Some O)
  /\ (ends_clean O = true ->
      allowed (testOrigin (O +:+ "/") config) = true
      /\ headers (testOrigin (O +:+ "/") config) !! "Access-Control-Allow-Origin" = Some O).
Proof.
  intros Hc HO.
  assert (Hstar : (O =? "*") = false) by (now apply String.eqb_neq).
  assert (H : forall tested,
             normalizeOrigin (Some tested) = normalizeOrigin (Some O) ->
             allowed (testOrigin tested config) = true
             /\ headers (testOrigin tested config) !! "Access-Control-Allow-Origin" = Some O).
  { intros tested Hn.
    assert (Hg : granted_origin tested config = Some O).
    { unfold granted_origin. rewrite Hc, Hstar, Hn. now rewrite String.eqb_refl. }
    testOrigin_stages tested config r h Hk Ho Hcr Hr. rewrite Hg in *.
    split.
    - rewrite (bool_decide_eq_false_2 (Some O = Some "*")) by congruence.
      rewrite andb_false_r. reflexivity.
    - rewrite <- Ho. now apply configured_headers_other. }
  split; intros Hyp; apply H.
  - now apply UtilsFacts.normalizeOrigin_upper.
  - now rewrite UtilsFacts.normalizeOrigin_slash_appended, UtilsFacts.normalizeOrigin_clean.
Qed.

Lemma testOrigin_matches_normalized_witness :
  let config := {| keys := [Korigin];
                   origin := Some (OString "https://app.example.com");
                   methods := None; allowedHeaders := None; exposedHeaders := None;
                   credentials := None; maxAge := None |} in
  allowed (testOrigin (toUpperCase "https://app.example.com") config) = true
  /\ headers (testOrigin ("https://app.example.com" +:+ "/") config)
       !! "Access-Control-Allow-Origin" = Some "https://app.example.com".
Proof.
  intros config.
  destruct (testOrigin_matches_normalized "https://app.example.com" config)
    as (Hup & Hslash); [reflexivity | discriminate |].
  split.
  - apply Hup. reflexivity.
  - apply Hslash. reflexivity.
Defined.

End TestOriginExtra.

(* ===================================================================== *)
(** * More about [compareConfiguration] *)
(* ===================================================================== *)

Module CompareExtra.

Import SecurityAdvisor Analyzer SortExtra CompareFacts.

Lemma every_equal_eq (la lb : list string) :
  length la = length lb -> every_equal la lb = true -> la = lb.
Proof.
  revert lb. induction la as [|x la IH]; intros [|y lb]; simpl; try discriminate; [reflexivity|].
  intros [= Hlen] H. apply andb_prop in H as [Hxy H].
  apply String.eqb_eq in Hxy. subst. f_equal. now apply IH.
Qed.

Lemma isEqual_arrays (a b : list string) :
  isEqual (VArray a) (VArray b) = true <-> Permutation a b.
Proof.
  unfold isEqual. split.
  - destruct (Nat.eqb_spec (length a) (length b)) as [Hlen|]; [|discriminate].
    cbn [negb]. intros H. apply every_equal_eq in H.
    + rewrite <- (sort_by_permutation String.leb a), <- (sort_by_permutation String.leb b).
      unfold sort_strings in H. now rewrite H.
    + unfold sort_strings. now rewrite !sort_by_length.
  - intros Hp. rewrite (Permutation_length Hp), Nat.eqb_refl. cbn [negb].
    rewrite (sort_strings_canonical a b Hp). apply every_equal_refl.
Qed.

Lemma normalize_idempotent (v : Value) : normalize (normalize v) = normalize v.
Proof. destruct v; simpl; try reflexivity. now rewrite sort_strings_idempotent. Qed.

Lemma isEqual_normalize (u v : Value) : isEqual (normalize u) (normalize v) = isEqual u v.
Proof.
  destruct u as [|b|n|s|a], v as [|b'|n'|s'|a']; try reflexivity.
  cbn [normalize isEqual]. unfold sort_strings at 1 2.
  now rewrite !sort_by_length, !sort_strings_idempotent.
Qed.

Lemma is_undefined_normalize (v : Value) : is_undefined (normalize v) = is_undefined v.
Proof. now destruct v. Qed.

Lemma keys_sort_property (config : CorsConfiguration) (k : Key) :
  keys (sort_property config k) = keys config.
Proof. reflexivity. Qed.

Section Run.

Variables current expected : CorsConfiguration.

Abbreviation touched := (normalized_key current).
Abbreviation entry := (incorrect_entry current expected).
Abbreviation after := (compared current expected).

Lemma touched_snoc (done : list Key) (k k' : Key) :
  touched (done ++ [k]) k' =
  touched done k' || (bool_decide (k = k') && negb (is_undefined (get current k'))).
Proof.
  unfold normalized_key.
  destruct (is_undefined (get current k')); cbn [negb]; [now rewrite !andb_false_r|].
  rewrite !andb_true_r.
  apply eq_true_iff_eq. rewrite orb_true_iff, !bool_decide_eq_true.
  rewrite elem_of_app, list_elem_of_singleton. intuition congruence.
Qed.

Lemma after_step (done : list Key) (st : CompareState) (k : Key) :
  after done st -> after (done ++ [k]) (compare_step st k).
Proof.
  intros (Hkc & Hke & Hc & He & Hm & Hi).
  assert (Hu : is_undefined (get (st_current st) k) = is_undefined (get current k)).
  { rewrite Hc. destruct (touched done k); [apply is_undefined_normalize | reflexivity]. }
  assert (Hnc : normalize (get (st_current st) k) = normalize (get current k)).
  { rewrite Hc. destruct (touched done k); [apply normalize_idempotent | reflexivity]. }
  assert (Hne : normalize (get (st_expected st) k) = normalize (get expected k)).
  { rewrite He. destruct (touched done k); [apply normalize_idempotent | reflexivity]. }
  unfold compare_step. rewrite Hu, Hnc, Hne, isEqual_normalize.
  assert (Hd : differs current expected k =
               negb (is_undefined (get current k))
               && negb (isEqual (get current k) (get expected k))) by reflexivity.
  unfold compared. rewrite !List.filter_app, !map_app. cbn [List.filter]. rewrite Hd.
  destruct (is_undefined (get current k)) eqn:Eu; cbn [negb andb].
  - cbn [st_current st_expected st_missing st_incorrect List.map].
    rewrite app_nil_r, Hm, Hi.
    repeat split; try assumption.
    + intros k'. rewrite Hc, touched_snoc.
      destruct (decide (k = k')) as [<-|Hne']; [rewrite Eu | rewrite bool_decide_eq_false_2 by done];
        cbn; now rewrite ?andb_false_r, orb_false_r.
    + intros k'. rewrite He, touched_snoc.
      destruct (decide (k = k')) as [<-|Hne']; [rewrite Eu | rewrite bool_decide_eq_false_2 by done];
        cbn; now rewrite ?andb_false_r, orb_false_r.
  - assert (Hget : forall c0 c (k' : Key),
               (get c k' = if touched done k' then normalize (get c0 k') else get c0 k') ->
               get (sort_property c k) k' =
               if touched (done ++ [k]) k' then normalize (get c0 k') else get c0 k').
    { intros c0 c k' Hk'. rewrite get_sort_property, touched_snoc, Hk'.
      destruct (decide (k = k')) as [<-|Hne'].
      - rewrite !bool_decide_eq_true_2 by done. rewrite Eu. cbn [negb andb].
        rewrite orb_true_r. destruct (touched done k); [apply normalize_idempotent | reflexivity].
      - rewrite !bool_decide_eq_false_2 by done. cbn [andb]. now rewrite orb_false_r. }
    destruct (isEqual (get current k) (get expected k)); cbn [negb];
      cbn [st_current st_expected st_missing st_incorrect List.map];
      rewrite ?app_nil_r, Hm, Hi; repeat split; try assumption;
      try (intros k'; now apply Hget).
Qed.

Lemma after_loop (ks done : list Key) (st : CompareState) :
  after done st -> after (done ++ ks) (fold_left compare_step ks st).
Proof.
  revert done st. induction ks as [|k ks IH]; intros done st H; cbn [fold_left].
  - now rewrite app_nil_r.
  - replace (done ++ k :: ks) with ((done ++ [k]) ++ ks) by (now rewrite <- app_assoc).
    apply IH, after_step, H.
Qed.

(** What a call of [compareConfiguration] computes and what it leaves. *)
Lemma compareConfiguration_run :
  let '(diff, current_after, expected_after) := compareConfiguration current expected in
  missing diff =
    List.map key_name (List.filter (fun k => is_undefined (get current k)) (keys expected))
  /\ incorrect diff = List.map entry (List.filter (differs current expected) (keys expected))
  /\ extra diff =
     List.map key_name (List.filter (fun k => is_undefined (get expected k)) (keys current))
  /\ keys current_after = keys current
  /\ keys expected_after = keys expected
  /\ (forall k, get current_after k =
                if normalized_key current (keys expected) k
                then normalize (get current k) else get current k)
  /\ (forall k, get expected_after k =
                if normalized_key current (keys expected) k
                then normalize (get expected k) else get expected k).
Proof.
  unfold compareConfiguration.
  pose proof (after_loop (keys expected) []
                {| st_current := current; st_expected := expected;
                   st_missing := []; st_incorrect := [] |}) as H.
  destruct H as (Hkc & Hke & Hc & He & Hm & Hi).
  { repeat split. }
  cbn [app] in *. cbn [missing incorrect extra].
  repeat split; try assumption.
  rewrite Hkc. f_equal. apply List.filter_ext. intros k. rewrite He.
  destruct (touched (keys expected) k); [apply is_undefined_normalize | reflexivity].
Qed.

End Run.

Lemma key_name_inj (k k' : Key) : key_name k = key_name k' -> k = k'.
Proof. destruct k, k'; simpl; intros H; first [reflexivity | discriminate H]. Qed.

(** X11.  The diff of [compareConfiguration]: [missing] names the keys of
    [expected] that are undefined in [current], [incorrect] those that are
    defined in [current] with a value that differs, each in the order of
    the keys of [expected]; [extra] names the keys of [current] that are
    undefined in [expected]. *)
Theorem compareConfiguration_diff (current expected : CorsConfiguration) :
  let diff := (compareConfiguration current expected).1.1 in
  missing diff =
    List.map key_name (List.filter (fun k => is_undefined (get current k)) (keys expected))
  /\ List.map property (incorrect diff) =
     List.map key_name (List.filter (differs current expected) (keys expected))
  /\ extra diff =
     List.map key_name (List.filter (fun k => is_undefined (get expected k)) (keys current)).
Proof.
  pose proof (compareConfiguration_run current expected) as H.
  destruct (compareConfiguration current expected) as [[diff ca] ea].
  destruct H as (Hm & Hi & He & _). cbn [fst].
  split; [exact Hm|]. split; [|exact He].
  rewrite Hi, map_map. reflexivity.
Qed.

(** X12.  Arrays are compared as multisets: an array property that both
    configurations define is reported incorrect exactly when the two arrays
    are not permutations of each other (two arrays with the same elements
    and the same length can still differ, in how often an element
    occurs). *)
Theorem compareConfiguration_arrays
    (current expected : CorsConfiguration) (k : Key) (a b : list string) :
  k ∈ keys expected ->
  get current k = VArray a ->
  get expected k = VArray b ->
  key_name k ∈ List.map property (incorrect (compareConfiguration current expected).1.1)
  <-> ~ Permutation a b.
Proof.
  intros Hk Ha Hb.
  pose proof (compareConfiguration_run current expected) as H.
  destruct (compareConfiguration current expected) as [[diff ca] ea].
  destruct H as (_ & Hi & _). cbn [fst]. rewrite Hi, map_map. cbn [property].
  assert (Hd : differs current expected k = true <-> ~ Permutation a b).
  { unfold differs. rewrite Ha, Hb. cbn [is_undefined negb andb].
    rewrite negb_true_iff, <- not_true_iff_false. now rewrite isEqual_arrays. }
  rewrite <- Hd, list_elem_of_In, in_map_iff. split.
  - intros (k' & Hn & Hin). apply key_name_inj in Hn. subst k'.
    now apply filter_In in Hin.
  - intros Hdk. exists k. split; [reflexivity|]. apply filter_In.
    split; [now apply list_elem_of_In | exact Hdk].
Qed.

Lemma compareConfiguration_arrays_witness :
  let cfg a := {| keys := [Korigin; Kmethods]; origin := Some (OString "https://example.com");
                  methods := Some a; allowedHeaders := None; exposedHeaders := None;
                  credentials := None; maxAge := None |} in
  "methods" ∈ List.map property
    (incorrect (compareConfiguration (cfg ["GET"; "GET"; "PUT"]) (cfg ["GET"; "PUT"; "PUT"])).1.1).
Proof.
  intros cfg.
  apply (compareConfiguration_arrays (cfg ["GET"; "GET"; "PUT"]) (cfg ["GET"; "PUT"; "PUT"])
           Kmethods ["GET"; "GET"; "PUT"] ["GET"; "PUT"; "PUT"]).
  - right. left.
  - reflexivity.
  - reflexivity.
  - intros Hp.
    assert (H : count_occ string_dec ["GET"; "GET"; "PUT"] "GET"
                = count_occ string_dec ["GET"; "PUT"; "PUT"] "GET")
      by (now apply Permutation_count_occ).
    vm_compute in H. discriminate H.
Defined.

End CompareExtra.

Module AliasingFacts.

Import SecurityAdvisor SortExtra.

Lemma normalize_lookup (h : Aliasing.Heap) (v : Aliasing.Property) (r : positive) :
  Aliasing.normalize h v !! r
  = if holds_array r v then sort_strings <$> h !! r else h !! r.
Proof.
  destruct v as [| | | |r']; try reflexivity. cbn [Aliasing.normalize holds_array].
  case_bool_decide as E.
  - subst r'. apply lookup_alter_eq.
  - now apply lookup_alter_ne.
Qed.

Section Run.

Variables current expected : Aliasing.Configuration.
Variable h : Aliasing.Heap.

(** The heap after the keys [done] of the loop. *)
Lemma compare_loop_heap (ks done : list Key) (st : Aliasing.CompareState) :
  (forall r, Aliasing.st_heap st !! r
             = if sorted_by_call current expected done r
               then sort_strings <$> h !! r else h !! r) ->
  forall r,
    Aliasing.st_heap (fold_left (Aliasing.compare_step current expected) ks st) !! r
    = if sorted_by_call current expected (done ++ ks) r
      then sort_strings <$> h !! r else h !! r.
Proof.
  revert done st. induction ks as [|k ks IH]; intros done st H r; cbn [fold_left].
  - rewrite app_nil_r. apply H.
  - replace (done ++ k :: ks) with ((done ++ [k]) ++ ks) by (now rewrite <- app_assoc).
    apply IH. clear r IH. intros r.
    unfold sorted_by_call. rewrite existsb_app. cbn [existsb]. rewrite orb_false_r.
    fold (sorted_by_call current expected done r).
    unfold Aliasing.compare_step.
    destruct (Aliasing.is_undefined (Aliasing.holds current k)); cbn [negb andb].
    + cbn [Aliasing.st_heap]. rewrite orb_false_r. apply H.
    + assert (Hheap : forall b : bool,
                Aliasing.st_heap
                  (if b
                   then {| Aliasing.st_heap :=
                             Aliasing.normalize
                               (Aliasing.normalize (Aliasing.st_heap st)
                                                   (Aliasing.holds current k))
                               (Aliasing.holds expected k);
                           Aliasing.st_missing := Aliasing.st_missing st;
                           Aliasing.st_incorrect :=
                             Aliasing.st_incorrect st ++
                             [ Aliasing.Entry (key_name k) (Aliasing.holds current k)
                                              (Aliasing.holds expected k) ] |}
                   else {| Aliasing.st_heap :=
                             Aliasing.normalize
                               (Aliasing.normalize (Aliasing.st_heap st)
                                                   (Aliasing.holds current k))
                               (Aliasing.holds expected k);
                           Aliasing.st_missing := Aliasing.st_missing st;
                           Aliasing.st_incorrect := Aliasing.st_incorrect st |})
                = Aliasing.normalize
                    (Aliasing.normalize (Aliasing.st_heap st) (Aliasing.holds current k))
                    (Aliasing.holds expected k)) by (now intros []).
      cbv zeta. rewrite Hheap, !normalize_lookup, H.
      destruct (sorted_by_call current expected done r),
        (holds_array r (Aliasing.holds current k)),
        (holds_array r (Aliasing.holds expected k)), (h !! r) as [a|];
        cbn [orb fmap option_fmap option_map]; rewrite ?sort_strings_idempotent; reflexivity.
Qed.

End Run.

(** X13.  What [compareConfiguration] leaves of the arrays: an array that
    it hands to [normalize] (one held, by [current] or by [expected], under
    a key of [expected] that [current] defines) is sorted, for every
    property that holds it, compared or not; every other array is as it
    was. *)
Theorem compareConfiguration_leaves
    (current expected : Aliasing.Configuration) (h : Aliasing.Heap) (r : positive) :
  (Aliasing.compareConfiguration current expected h).2 !! r
  = if sorted_by_call current expected (Aliasing.own_keys expected) r
    then sort_strings <$> h !! r else h !! r.
Proof.
  unfold Aliasing.compareConfiguration. cbn [snd].
  apply (compare_loop_heap current expected h (Aliasing.own_keys expected) []).
  intros r'. reflexivity.
Qed.

Lemma compareConfiguration_leaves_witness :
  let current :=
    {| Aliasing.own_keys := [Kmethods; KallowedHeaders];
       Aliasing.holds := fun k => match k with
                                  | Kmethods | KallowedHeaders => Aliasing.PArray 1
                                  | _ => Aliasing.PUndefined
                                  end |} in
  let expected :=
    {| Aliasing.own_keys := [Kmethods];
       Aliasing.holds := fun k => match k with
                                  | Kmethods => Aliasing.PArray 2
                                  | _ => Aliasing.PUndefined
                                  end |} in
  let h : Aliasing.Heap := {[ 1%positive := ["PUT"; "GET"]; 2%positive := ["GET"] ]} in
  Aliasing.array (Aliasing.compareConfiguration current expected h).2 1 = ["GET"; "PUT"].
Proof.
  intros current expected h. unfold Aliasing.array.
  rewrite (compareConfiguration_leaves current expected h 1). reflexivity.
Defined.

End AliasingFacts.

(* ===================================================================== *)
(** * More about [analyzeHeaders] *)
(* ===================================================================== *)

Module AnalyzeHeadersExtra.

Import SecurityAdvisor Analyzer PatternMatcher PatternMatcherExtra SecurityAdvisorExtra.

Lemma bind_Ok_inv {A B : Type} (m : result A) (k : A -> result B) (b : B) :
  (x ← m; k x) = Ok b -> exists a, m = Ok a /\ k a = Ok b.
Proof. destruct m as [a|e]; [eauto | discriminate]. Qed.

(** One step into the body of a function: a call that may throw becomes
    its result. *)
Ltac peel H :=
  lazymatch type of H with
  | mbind (fun x => _) _ = Ok _ =>
      let y := fresh x in
      let E := fresh "E" y in
      apply bind_Ok_inv in H as (y & E & H)
  end.

(** The origin that [analyzeHeaders] reads from the response is a wild
    card when the header is the string of one asterisk. *)
Lemma isWildcard_of_header (allowOrigin : option HeaderValue) (ks : list Key)
    (ms ahs ehs : option (list string)) (cr : option bool) (age : option number) :
  isWildcard
    {| keys := ks;
       origin :=
         match allowOrigin with
         | Some (HStr s) => if s =? "" then Some (OBoolean false) else Some (OString s)
         | Some (HNum n) => if (n =? 0)%Z then Some (OBoolean false) else Some (ONumber n)
         | None => Some (OBoolean false)
         end;
       methods := ms; allowedHeaders := ahs; exposedHeaders := ehs;
       credentials := cr; maxAge := age |}
  = is_string allowOrigin "*".
Proof.
  unfold isWildcard. cbn [origin].
  destruct allowOrigin as [[s|n]|]; cbn [is_string].
  - destruct (String.eqb_spec s ""); [subst; reflexivity|reflexivity].
  - now destruct (n =? 0)%Z.
  - reflexivity.
Qed.

Section WithURL.

Variable URL : string -> option URLRecord.

(** The report of [analyzeHeaders], when it returns one: the diagnoses of
    the ad hoc checks, that of the pattern found, and the security issues
    of the configuration read from the response. *)
Lemma analyzeHeaders_flat (req : Request) (res : Response) (ds : list Diagnosis) :
  analyzeHeaders URL req res = Ok ds ->
  let resHeaders := parseHeaders (Some (getHeaders res)) in
  exists adhoc config,
    ds = adhoc ++ reported_pattern adhoc (detectPattern URL req res)
         ++ List.map issue_diagnosis (checkSecurity config production)
    /\ List.map headline adhoc = adhoc_summaries req res
    /\ isWildcard config = is_string (resHeaders !! "access-control-allow-origin") "*"
    /\ credentials config
       = Some (is_string (resHeaders !! "access-control-allow-credentials") "true")
    /\ split_trim (resHeaders !! "access-control-allow-methods") = Ok (methods config)
    /\ split_trim (resHeaders !! "access-control-allow-headers")
       = Ok (allowedHeaders config)
    /\ split_trim (resHeaders !! "access-control-expose-headers")
       = Ok (exposedHeaders config).
Proof.
  unfold analyzeHeaders. intros H. repeat peel H.
  injection H as <-.
  set (reqHeaders := parseHeaders (Some (Utils.headers req))) in *.
  set (resHeaders := parseHeaders (Some (getHeaders res))) in *.
  set (ro := reqHeaders !! "origin") in *.
  set (ao := resHeaders !! "access-control-allow-origin") in *.
  set (ac := resHeaders !! "access-control-allow-credentials") in *.
  assert (S2 : exists P2,
    List.map headline diagnoses
    = (if truthy_opt ro && negb (truthy_opt ao)
       then [("Missing Access-Control-Allow-Origin", None, Some critical)] else [])
      ++ P2
    /\ P2 = if truthy_opt ro && truthy_opt ao && negb (is_string ao "*")
               && origins_differ ro ao
            then [("Origin Mismatch", None, Some critical)] else []).
  { clear - Ediagnoses EnormalizedOrigin. unfold origins_differ.
    rewrite EnormalizedOrigin.
    destruct (truthy_opt ro), (truthy_opt ao), (is_string ao "*");
      cbn [andb negb] in *;
      try (injection Ediagnoses as <-; eexists; split; reflexivity).
    destruct (normalizeOrigin_value ao) as [nao|]; [|discriminate].
    cbn [mbind result_bind bind] in Ediagnoses.
    destruct (negb (normalizedOrigin =? nao));
      injection Ediagnoses as <-; eexists; split; reflexivity. }
  destruct S2 as (P2 & S2 & HP2).
  set (am := resHeaders !! "access-control-allow-methods") in *.
  set (rh := reqHeaders !! "access-control-request-headers") in *.
  set (ah := resHeaders !! "access-control-allow-headers") in *.
  assert (S4 : List.map headline diagnoses0
    = List.map headline diagnoses
      ++ (if is_string ao "*" && is_string ac "true"
          then [("Wildcard Origin with Credentials", Some "wildcard-credentials-conflict",
                 Some critical)]
          else [])
      ++ (if isPreflightRequest req && negb (truthy_opt am)
          then [("Missing Access-Control-Allow-Methods on Preflight", None,
                 Some critical)]
          else [])
      ++ (if isPreflightRequest req && truthy_opt rh && negb (truthy_opt ah)
          then [("Missing Access-Control-Allow-Headers on Preflight",
                 Some "custom-headers-not-allowed", Some critical)]
          else [])).
  { clear - Ediagnoses0.
    destruct (is_string ao "*" && is_string ac "true"), (isPreflightRequest req),
      (truthy_opt am), (truthy_opt rh), (truthy_opt ah);
      cbn [andb negb] in *;
      try (injection Ediagnoses0 as <-; rewrite ?List.map_app, <- ?app_assoc; cbn [app List.map]; rewrite ?app_nil_r; reflexivity).
    all: destruct (split_trim rh) as [requested|];
      cbn [mbind result_bind bind] in Ediagnoses0; [|discriminate].
    all: injection Ediagnoses0 as <-; rewrite ?List.map_app, <- ?app_assoc; cbn [app List.map]; rewrite ?app_nil_r; reflexivity. }
  exists diagnoses0.
  eexists.
  split; [|split; [|split; [|split; [|split; [|split]]]]].
  - rewrite app_assoc. apply (f_equal2 (@app Diagnosis)); [|reflexivity].
    unfold reported_pattern.
    destruct (detectPattern URL req res) as [p|]; [|now rewrite app_nil_r].
    destruct (existsb _ diagnoses0); cbn [negb]; [now rewrite app_nil_r | reflexivity].
  - rewrite S4, S2, HP2. unfold adhoc_summaries.
    rewrite <- !app_assoc. reflexivity.
  - apply isWildcard_of_header.
  - reflexivity.
  - exact Emethods_.
  - exact EallowedHeaders_.
  - exact EexposedHeaders_.
Qed.
(** Every diagnosis of the ad hoc checks is critical. *)
Lemma adhoc_summaries_critical (req : Request) (res : Response) :
  Forall (fun h => h.2 = Some critical) (adhoc_summaries req res).
Proof.
  unfold adhoc_summaries.
  repeat lazymatch goal with
  | |- context [if ?b then _ else _] => destruct b
  end; repeat constructor.
Qed.

(** The wild card with credentials is found by the ad hoc check and by
    the first detector of the catalog at once. *)
Lemma wildcard_credentials_found (req : Request) (res : Response) (adhoc : list Diagnosis) :
  let resHeaders := parseHeaders (Some (getHeaders res)) in
  is_string (resHeaders !! "access-control-allow-origin") "*" = true ->
  is_string (resHeaders !! "access-control-allow-credentials") "true" = true ->
  List.map headline adhoc = adhoc_summaries req res ->
  reported_pattern adhoc (detectPattern URL req res) = [].
Proof.
  intros resHeaders Hw Hc Hsum. rewrite detectPattern_cases.
  unfold fires at 1.
  cbn [detector pattern_wildcard_credentials_conflict].
  unfold detect_wildcard_credentials_conflict. fold resHeaders. rewrite Hw, Hc.
  cbn [andb reported_pattern id pattern_wildcard_credentials_conflict].
  assert (Hin : ("Wildcard Origin with Credentials", Some "wildcard-credentials-conflict",
                 Some critical) ∈ List.map headline adhoc).
  { rewrite Hsum. unfold adhoc_summaries. fold resHeaders. rewrite Hw, Hc.
    cbn [andb]. rewrite !elem_of_app. right. right. left. constructor. }
  apply list_elem_of_fmap in Hin as (d & Hd & Hin).
  assert (Hex : existsb (fun d => bool_decide (pattern d = Some "wildcard-credentials-conflict"))
                        adhoc = true).
  { apply existsb_exists. exists d. split; [now apply list_elem_of_In|].
    apply bool_decide_eq_true. unfold headline in Hd. congruence. }
  now rewrite Hex.
Qed.

(** A critical issue of [checkSecurity] is the one for credentials with a
    wild card. *)
Lemma checkSecurity_critical (config : CorsConfiguration) (environment : Environment)
    (i : SecurityIssue) :
  i ∈ checkSecurity config environment -> level i = critical ->
  credentials config = Some true /\ isWildcard config = true.
Proof.
  intros Hi Hl.
  assert (Hin : (critical, title i)
                ∈ List.map (fun i => (level i, title i)) (checkSecurity config environment)).
  { apply list_elem_of_fmap. exists i. now rewrite Hl. }
  rewrite checkSecurity_levels_titles_elem, pushedIssues_levels_titles in Hin.
  destruct (bool_decide (credentials config = Some true)) eqn:Ec;
    [apply bool_decide_eq_true in Ec|].
  - destruct (isWildcard config); [now split|].
    exfalso. cbn [andb] in Hin.
    repeat lazymatch type of Hin with
    | context [if ?b then _ else _] => destruct b
    end; cbn [app] in Hin; rewrite ?elem_of_cons, elem_of_nil in Hin;
      intuition discriminate.
  - exfalso. cbn [andb] in Hin.
    repeat lazymatch type of Hin with
    | context [if ?b then _ else _] => destruct b
    end; cbn [app] in Hin; rewrite ?elem_of_cons, elem_of_nil in Hin;
      intuition discriminate.
Qed.

(** X14.  A report of [analyzeHeaders] is sorted by severity: every
    diagnosis has one, and critical ones come before warnings, warnings
    before informations. *)
Theorem analyzeHeaders_sorted_by_severity
    (req : Request) (res : Response) (ds : list Diagnosis) :
  analyzeHeaders URL req res = Ok ds ->
  exists levels,
    List.map severity ds = List.map Some levels
    /\ StronglySorted (fun a b => (severityOrder a <= severityOrder b)%Z) levels.
Proof.
  intros H. apply analyzeHeaders_flat in H
    as (adhoc & config & -> & Hsum & Hw & Hc & _).
  pose proof (adhoc_summaries_critical req res) as Hcrit. rewrite <- Hsum in Hcrit.
  rewrite Forall_forall in Hcrit.
  assert (Hadhoc : List.map severity adhoc = List.map Some (List.map (fun _ => critical) adhoc)).
  { rewrite List.map_map. apply List.map_ext_in. intros d Hd.
    apply (Hcrit (headline d)). apply list_elem_of_In. now apply List.in_map. }
  pose proof (SortFacts.sort_by_sorted (fun i => severityOrder (level i))
                (pushedIssues config production)) as Hsorted.
  change (sort_by _ (pushedIssues config production))
    with (checkSecurity config production) in Hsorted.
  unfold SortFacts.rank_sorted in Hsorted.
  set (sec := checkSecurity config production) in *.
  assert (Hsec : StronglySorted (fun a b => (severityOrder a <= severityOrder b)%Z)
                                (List.map level sec)).
  { clear - Hsorted. induction Hsorted as [|i l Hl IH Hi]; [constructor|].
    cbn [List.map]. constructor; [exact IH|].
    rewrite List.Forall_map. exact Hi. }
  assert (Hfront : forall front rest,
            Forall (fun l => l = critical) front ->
            StronglySorted (fun a b => (severityOrder a <= severityOrder b)%Z) rest ->
            StronglySorted (fun a b => (severityOrder a <= severityOrder b)%Z)
                           (front ++ rest)).
  { induction 1 as [|l front -> _ IH]; intros Hrest; [exact Hrest|].
    cbn [app]. constructor; [now apply IH|].
    apply Forall_forall. intros l _. destruct l; simpl; lia. }
  unfold reported_pattern.
  destruct (detectPattern URL req res) as [p|] eqn:Ep.
  2: { exists (List.map (fun _ => critical) adhoc ++ List.map level sec). split.
       - rewrite !List.map_app, Hadhoc, !List.map_map. reflexivity.
       - apply Hfront; [|exact Hsec]. apply Forall_forall.
         intros l Hl. apply list_elem_of_fmap in Hl as (d & -> & _). reflexivity. }
  destruct (existsb _ adhoc) eqn:Eex.
  { exists (List.map (fun _ => critical) adhoc ++ List.map level sec). split.
    - rewrite !List.map_app, Hadhoc, !List.map_map. reflexivity.
    - apply Hfront; [|exact Hsec]. apply Forall_forall.
      intros l Hl. apply list_elem_of_fmap in Hl as (d & -> & _). reflexivity. }
  exists (List.map (fun _ => critical) adhoc ++ warning :: List.map level sec). split.
  - rewrite !List.map_app, Hadhoc. cbn [List.map app]. rewrite !List.map_map. reflexivity.
  - apply Hfront.
    { apply Forall_forall.
      intros l Hl. apply list_elem_of_fmap in Hl as (d & -> & _). reflexivity. }
    constructor; [exact Hsec|].
    apply Forall_forall. intros l Hl. apply list_elem_of_fmap in Hl as (i & -> & Hi).
    destruct (level i) eqn:El; simpl; try lia.
    exfalso.
    destruct (checkSecurity_critical config production i Hi El) as (Hcred & Hwild).
    rewrite Hw in Hwild. rewrite Hc in Hcred. injection Hcred as Hcred.
    pose proof (wildcard_credentials_found req res adhoc Hwild Hcred Hsum) as Hnone.
    unfold reported_pattern in Hnone. rewrite Ep, Eex in Hnone. discriminate.
Qed.

(** X15.  When the view of the response holds a number under
    Access-Control-Allow-Methods, Access-Control-Allow-Headers or
    Access-Control-Expose-Headers, [analyzeHeaders] throws, whatever the
    rest of the request and the response: no diagnosis is returned.  The
    number is not zero: [parseHeaders] sets no key for a zero, which counts
    as an absent header. *)
Theorem analyzeHeaders_throws_on_numeric_list
    (req : Request) (res : Response) (k : string) (n : Z) :
  k ∈ ["access-control-allow-methods"; "access-control-allow-headers";
       "access-control-expose-headers"] ->
  parseHeaders (Some (getHeaders res)) !! k = Some (HNum n) ->
  n <> 0%Z /\ analyzeHeaders URL req res = Throw TypeError.
Proof.
  intros Hk Hn. split.
  { pose proof (UtilsFacts.parseHeaders_truthy _ _ _ Hn) as Ht. cbn in Ht.
    intros ->. discriminate Ht. }
  destruct (analyzeHeaders URL req res) as [ds|[]] eqn:E; [exfalso|reflexivity].
  apply analyzeHeaders_flat in E as (adhoc & config & _ & _ & _ & _ & Hm & Ha & He).
  rewrite !elem_of_cons, elem_of_nil in Hk.
  destruct Hk as [->|[->|[->|[]]]]; rewrite Hn in *; discriminate.
Qed.

(** The titles of the issues of [checkSecurity]. *)
Lemma checkSecurity_titles (config : CorsConfiguration) (environment : Environment)
    (i : SecurityIssue) :
  i ∈ checkSecurity config environment ->
  title i ∈ ["Credentials with Wildcard Origin"; "Wildcard Origin in Production";
             "Sensitive Headers Exposed"; "Potentially Unnecessary HTTP Methods Allowed"].
Proof.
  intros Hi.
  assert (Hin : (level i, title i)
                ∈ List.map (fun i => (level i, title i)) (checkSecurity config environment)).
  { apply list_elem_of_fmap. now exists i. }
  rewrite checkSecurity_levels_titles_elem, pushedIssues_levels_titles in Hin.
  repeat lazymatch type of Hin with
  | context [if ?b then _ else _] => destruct b
  end; cbn [app] in Hin; rewrite ?elem_of_cons, elem_of_nil in Hin;
    rewrite !elem_of_cons; intuition congruence.
Qed.

(** The name of the pattern found is one of the catalog. *)
Lemma detectPattern_name (req : Request) (res : Response) (p : ErrorPattern) :
  detectPattern URL req res = Some p ->
  name p ∈ List.map name (COMMON_PATTERNS URL).
Proof.
  intros H. apply list_elem_of_fmap. exists p. split; [reflexivity|].
  unfold detectPattern in H. rewrite PatternMatcherFacts.detectPattern_in_find in H.
  apply List.find_some in H as [H _]. now apply list_elem_of_In.
Qed.

(** X16.  A response whose Access-Control-Allow-Origin is the wild card
    always gets the warning "Wildcard Origin in Production": the analysis
    takes every server for a production server. *)
Theorem analyzeHeaders_wildcard_flagged
    (req : Request) (res : Response) (ds : list Diagnosis) :
  parseHeaders (Some (getHeaders res)) !! "access-control-allow-origin" = Some (HStr "*") ->
  analyzeHeaders URL req res = Ok ds ->
  exists d, d ∈ ds /\ issue d = "Wildcard Origin in Production"
            /\ severity d = Some warning /\ pattern d = None.
Proof.
  intros Hao H. apply analyzeHeaders_flat in H as (adhoc & config & -> & _ & Hw & _).
  rewrite Hao in Hw. cbn in Hw.
  assert (Hin : (warning, "Wildcard Origin in Production")
                ∈ List.map (fun i => (level i, title i)) (checkSecurity config production)).
  { rewrite checkSecurity_levels_titles_elem, pushedIssues_levels_titles, Hw.
    rewrite !elem_of_app. left. constructor. }
  apply list_elem_of_fmap in Hin as (i & Hi & Hin).
  exists (issue_diagnosis i). injection Hi as Hl Ht.
  split; [|cbn; rewrite <- Hl, <- Ht; auto].
  rewrite !elem_of_app. right. right. apply list_elem_of_fmap. now exists i.
Qed.

(** X17.  With a request origin and an Access-Control-Allow-Origin that is
    not the wild card, the report has the diagnosis "Origin Mismatch"
    exactly when the two differ after [normalizeOrigin]: case, surrounding
    white space and one final slash do not count. *)
Theorem analyzeHeaders_origin_mismatch
    (req : Request) (res : Response) (ds : list Diagnosis) (o a : string) :
  parseHeaders (Some (Utils.headers req)) !! "origin" = Some (HStr o) ->
  parseHeaders (Some (getHeaders res)) !! "access-control-allow-origin" = Some (HStr a) ->
  a <> "*" ->
  analyzeHeaders URL req res = Ok ds ->
  (exists d, d ∈ ds /\ issue d = "Origin Mismatch")
  <-> normalizeOrigin (Some o) <> normalizeOrigin (Some a).
Proof.
  intros Ho Ha Hstar H.
  apply analyzeHeaders_flat in H as (adhoc & config & -> & Hsum & _).
  pose proof (UtilsFacts.parseHeaders_truthy _ _ _ Ho) as Hto.
  pose proof (UtilsFacts.parseHeaders_truthy _ _ _ Ha) as Hta.
  cbn beta in Hto, Hta.
  assert (Hsum' : List.map headline adhoc
    = (if negb (normalizeOrigin (Some o) =? normalizeOrigin (Some a))
       then [("Origin Mismatch", None, Some critical)] else [])
      ++ (if isPreflightRequest req
             && negb (truthy_opt (parseHeaders (Some (getHeaders res))
                                    !! "access-control-allow-methods"))
          then [("Missing Access-Control-Allow-Methods on Preflight", None,
                 Some critical)]
          else [])
      ++ (if isPreflightRequest req
             && truthy_opt (parseHeaders (Some (Utils.headers req))
                              !! "access-control-request-headers")
             && negb (truthy_opt (parseHeaders (Some (getHeaders res))
                                    !! "access-control-allow-headers"))
          then [("Missing Access-Control-Allow-Headers on Preflight",
                 Some "custom-headers-not-allowed", Some critical)]
          else [])).
  { rewrite Hsum. unfold adhoc_summaries, origins_differ. rewrite Ho, Ha.
    cbn [truthy_opt is_string normalizeOrigin_value]. rewrite Hto, Hta.
    apply String.eqb_neq in Hstar. rewrite Hstar. reflexivity. }
  clear Hsum. split.
  - intros (d & Hd & Hi).
    destruct (String.eqb_spec (normalizeOrigin (Some o)) (normalizeOrigin (Some a)))
      as [_|Hne]; [exfalso|exact Hne].
    cbn [negb app] in Hsum'.
    rewrite !elem_of_app in Hd. destruct Hd as [Hd|[Hd|Hd]].
    + assert (Hh : headline d ∈ List.map headline adhoc)
        by (apply list_elem_of_fmap; now exists d).
      rewrite Hsum' in Hh. unfold headline in Hh. rewrite Hi in Hh.
      repeat lazymatch type of Hh with
      | context [if ?b then _ else _] => destruct b
      end; cbn [app] in Hh; rewrite ?elem_of_cons, elem_of_nil in Hh;
        intuition discriminate.
    + unfold reported_pattern in Hd.
      destruct (detectPattern URL req res) as [p|] eqn:Ep; [|now apply elem_of_nil in Hd].
      destruct (existsb _ adhoc); [now apply elem_of_nil in Hd|].
      apply list_elem_of_singleton in Hd. subst d. cbn in Hi.
      apply detectPattern_name in Ep. rewrite Hi in Ep.
      cbn in Ep. rewrite !elem_of_cons, elem_of_nil in Ep. intuition discriminate.
    + apply list_elem_of_fmap in Hd as (i & -> & Hd). cbn in Hi.
      apply checkSecurity_titles in Hd. rewrite Hi in Hd.
      rewrite !elem_of_cons, elem_of_nil in Hd. intuition discriminate.
  - intros Hne. apply String.eqb_neq in Hne. rewrite Hne in Hsum'. cbn [negb] in Hsum'.
    assert (Hh : ("Origin Mismatch", None, Some critical) ∈ List.map headline adhoc).
    { rewrite Hsum'. left. }
    apply list_elem_of_fmap in Hh as (d & Hd & Hin).
    exists d. split; [rewrite elem_of_app; now left|].
    unfold headline in Hd. congruence.
Qed.

(** X18.  On a request that is not a preflight, a request origin without
    an Access-Control-Allow-Origin in the response is reported twice under
    the title "Missing Access-Control-Allow-Origin": first as a critical
    diagnosis of the ad hoc check, then as the warning of the pattern
    missing-allow-origin. *)
Theorem analyzeHeaders_missing_origin_twice
    (req : Request) (res : Response) (ds : list Diagnosis) :
  isPreflightRequest req = false ->
  truthy_opt (parseHeaders (Some (Utils.headers req)) !! "origin") = true ->
  parseHeaders (Some (getHeaders res)) !! "access-control-allow-origin" = None ->
  analyzeHeaders URL req res = Ok ds ->
  exists d1 d2 rest,
    ds = d1 :: d2 :: rest
    /\ headline d1 = ("Missing Access-Control-Allow-Origin", None, Some critical)
    /\ headline d2 = ("Missing Access-Control-Allow-Origin", Some "missing-allow-origin",
                      Some warning).
Proof.
  intros Hpre Hto Hao H.
  apply analyzeHeaders_flat in H as (adhoc & config & -> & Hsum & _).
  unfold adhoc_summaries in Hsum. rewrite Hpre, Hto, Hao in Hsum. cbn in Hsum.
  destruct adhoc as [|d1 [|? ?]]; try discriminate. injection Hsum as Hi Hp Hs.
  assert (Ep : detectPattern URL req res = Some pattern_missing_allow_origin).
  { rewrite detectPattern_cases. unfold fires.
    cbn [detector pattern_wildcard_credentials_conflict
         pattern_multiple_origins_misconfiguration pattern_preflight_only_failure
         pattern_custom_headers_not_allowed pattern_missing_allow_origin].
    unfold detect_wildcard_credentials_conflict, detect_multiple_origins_misconfiguration,
      detect_preflight_only_failure, detect_custom_headers_not_allowed,
      detect_missing_allow_origin.
    rewrite Hpre, Hto, Hao. reflexivity. }
  rewrite Ep. unfold reported_pattern. cbn [existsb id pattern_missing_allow_origin].
  rewrite Hp. cbn.
  eexists _, _, _. split; [reflexivity|].
  split; [unfold headline; congruence | reflexivity].
Qed.

End WithURL.

Lemma analyzeHeaders_throws_on_numeric_list_witness :
  let req := {| Utils.method := "GET"; Utils.headers := [] |} in
  let res := {| getHeaders := [("Access-Control-Allow-Methods", RValue (HNum 405))] |} in
  405%Z <> 0%Z /\ analyzeHeaders (fun _ => None) req res = Throw TypeError.
Proof.
  intros req res.
  apply (analyzeHeaders_throws_on_numeric_list (fun _ => None) req res "access-control-allow-methods" 405).
  - left.
  - reflexivity.
Defined.

Lemma analyzeHeaders_sorted_by_severity_witness :
  let req := {| Utils.method := "GET";
                Utils.headers := [("Origin", RValue (HStr "https://example.com"))] |} in
  let res := {| getHeaders := [("Access-Control-Allow-Origin", RValue (HStr "*"));
                               ("Access-Control-Allow-Methods", RValue (HStr "GET, PUT"))] |} in
  exists ds,
    analyzeHeaders (fun _ => None) req res = Ok ds
    /\ exists levels,
         List.map severity ds = List.map Some levels
         /\ StronglySorted (fun a b => (severityOrder a <= severityOrder b)%Z) levels.
Proof.
  intros req res. eexists. split; [vm_compute; reflexivity|].
  apply (analyzeHeaders_sorted_by_severity (fun _ => None) req res).
  vm_compute. reflexivity.
Defined.

Lemma analyzeHeaders_wildcard_flagged_witness :
  let req := {| Utils.method := "GET"; Utils.headers := [] |} in
  let res := {| getHeaders := [("Access-Control-Allow-Origin", RValue (HStr "*"))] |} in
  exists ds,
    analyzeHeaders (fun _ => None) req res = Ok ds
    /\ exists d, d ∈ ds /\ issue d = "Wildcard Origin in Production"
                 /\ severity d = Some warning /\ pattern d = None.
Proof.
  intros req res. eexists. split; [vm_compute; reflexivity|].
  apply (analyzeHeaders_wildcard_flagged (fun _ => None) req res).
  - vm_compute. reflexivity.
  - vm_compute. reflexivity.
Defined.

Lemma analyzeHeaders_origin_mismatch_witness :
  let req := {| Utils.method := "GET";
                Utils.headers := [("Origin", RValue (HStr "https://Example.com/"))] |} in
  let res := {| getHeaders :=
                  [("Access-Control-Allow-Origin", RValue (HStr "https://example.com"))] |} in
  exists ds,
    analyzeHeaders (fun _ => None) req res = Ok ds
    /\ ((exists d, d ∈ ds /\ issue d = "Origin Mismatch")
        <-> normalizeOrigin (Some "https://Example.com/")
            <> normalizeOrigin (Some "https://example.com")).
Proof.
  intros req res. eexists. split; [vm_compute; reflexivity|].
  apply (analyzeHeaders_origin_mismatch (fun _ => None) req res).
  - vm_compute. reflexivity.
  - vm_compute. reflexivity.
  - discriminate.
  - vm_compute. reflexivity.
Defined.

Lemma analyzeHeaders_missing_origin_twice_witness :
  let req := {| Utils.method := "GET";
                Utils.headers := [("Origin", RValue (HStr "https://example.com"))] |} in
  let res := {| getHeaders := [("Content-Type", RValue (HStr "text/html"))] |} in
  exists ds,
    analyzeHeaders (fun _ => None) req res = Ok ds
    /\ exists d1 d2 rest,
         ds = d1 :: d2 :: rest
         /\ headline d1 = ("Missing Access-Control-Allow-Origin", None, Some critical)
         /\ headline d2 = ("Missing Access-Control-Allow-Origin",
                           Some "missing-allow-origin", Some warning).
Proof.
  intros req res. eexists. split; [vm_compute; reflexivity|].
  apply (analyzeHeaders_missing_origin_twice (fun _ => None) req res).
  - reflexivity.
  - vm_compute. reflexivity.
  - vm_compute. reflexivity.
  - vm_compute. reflexivity.
Defined.

End AnalyzeHeadersExtra.

(* ===================================================================== *)
(** * More about the error history *)
(* ===================================================================== *)

Module ErrorHistoryExtra.

Import Analyzer ExpressMiddleware SortExtra ErrorHistoryFacts.

Section History.

Variable localeCompare : string -> string -> Z.

Abbreviation add := (add localeCompare).
Abbreviation adds := (adds localeCompare).
Abbreviation same_error := (same_error localeCompare).
Abbreviation diagnosesMatch := (diagnosesMatch localeCompare).
Abbreviation issue_le := (issue_le localeCompare).

Lemma update_first_length (p : CorsError -> bool) (f : CorsError -> CorsError)
    (l : list CorsError) :
  length (update_first p f l) = length l.
Proof.
  induction l as [|e l IH]; simpl; [reflexivity|].
  destruct (p e); simpl; [reflexivity | now rewrite IH].
Qed.

Lemma add_maxSize (h : ErrorHistory) (error : NewError) : maxSize (add h error) = maxSize h.
Proof. unfold ExpressMiddleware.add. now destruct (List.find _ _). Qed.

Lemma adds_maxSize (h : ErrorHistory) (errors_ : list NewError) :
  maxSize (adds h errors_) = maxSize h.
Proof.
  revert h. induction errors_ as [|e es IH]; intros h; [reflexivity|].
  cbn [ExpressMiddleware.adds fold_left]. 
  change (maxSize (adds (add h e) es) = maxSize h). now rewrite IH, add_maxSize.
Qed.

(** One [add] keeps the ledger within its capacity. *)
Lemma add_within_capacity (h : ErrorHistory) (error : NewError) :
  (Z.of_nat (length (errors h)) <= Z.max 0 (maxSize h))%Z ->
  (Z.of_nat (length (errors (add h error))) <= Z.max 0 (maxSize h))%Z.
Proof.
  intros H. unfold ExpressMiddleware.add.
  destruct (List.find _ _) as [e|]; cbn [errors].
  - now rewrite update_first_length.
  - destruct (Z.ltb_spec (maxSize h) (Z.of_nat (length (newError error :: errors h))))
      as [Hlt|Hge].
    + rewrite removelast_length. cbn [length pred]. exact H.
    + lia.
Qed.

(** X19.  A ledger never holds more entries than its capacity, whatever is
    added to it; a capacity of zero or less means that it holds none. *)
Theorem adds_within_capacity (C : Z) (errors_ : list NewError) :
  (Z.of_nat (length (errors (adds (new_ErrorHistory C) errors_))) <= Z.max 0 C)%Z.
Proof.
  assert (H : forall h,
             (Z.of_nat (length (errors h)) <= Z.max 0 (maxSize h))%Z ->
             (Z.of_nat (length (errors (adds h errors_))) <= Z.max 0 (maxSize h))%Z).
  { induction errors_ as [|e es IH]; intros h Hh; [exact Hh|].
    change (adds h (e :: es)) with (adds (add h e) es).
    rewrite <- (add_maxSize h e). apply IH. rewrite add_maxSize.
    now apply add_within_capacity. }
  apply (H (new_ErrorHistory C)). simpl. lia.
Qed.

Lemma update_first_hit_count (p : CorsError -> bool) (error : NewError)
    (l : list CorsError) (e : CorsError) :
  List.find p l = Some e ->
  sum_list (List.map count (update_first p (occurred_again error) l))
  = S (sum_list (List.map count l)).
Proof.
  induction l as [|x l IH]; [discriminate|]. cbn [List.find update_first].
  destruct (p x); cbn [List.map sum_list sum_list_with count occurred_again].
  - intros _. reflexivity.
  - intros H. rewrite (IH H). lia.
Qed.

Lemma removelast_count (l : list CorsError) :
  (sum_list (List.map count (removelast l)) <= sum_list (List.map count l))%nat.
Proof.
  induction l as [|x [|y l] IH]; [reflexivity | simpl; lia |].
  change (removelast (x :: y :: l)) with (x :: removelast (y :: l)).
  cbn [List.map sum_list sum_list_with] in *. lia.
Qed.

(** One [add] counts one occurrence more, unless it evicts an entry. *)
Lemma add_occurrences (h : ErrorHistory) (error : NewError) :
  (occurrences (add h error) <= S (occurrences h))%nat
  /\ ((Z.of_nat (length (errors h)) < maxSize h)%Z ->
      occurrences (add h error) = S (occurrences h)
      /\ (length (errors (add h error)) <= S (length (errors h)))%nat).
Proof.
  unfold occurrences, ExpressMiddleware.add.
  destruct (List.find _ _) as [e|] eqn:E; cbn [errors].
  - rewrite (update_first_hit_count _ _ _ _ E), update_first_length. split; [lia|].
    intros _. split; [reflexivity | lia].
  - destruct (Z.ltb_spec (maxSize h) (Z.of_nat (length (newError error :: errors h))))
      as [Hlt|Hge].
    + split.
      * etransitivity; [apply removelast_count|]. reflexivity.
      * cbn [length] in Hlt. lia.
    + split; [reflexivity|]. intros _. split; reflexivity.
Qed.

(** X20.  The counts of a ledger never exceed the number of [add]s, and
    they account for every one of them as long as the capacity is at least
    that number: no occurrence is lost before an eviction. *)
Theorem adds_occurrences (C : Z) (errors_ : list NewError) :
  (occurrences (adds (new_ErrorHistory C) errors_) <= length errors_)%nat
  /\ ((Z.of_nat (length errors_) <= C)%Z ->
      occurrences (adds (new_ErrorHistory C) errors_) = length errors_).
Proof.
  split.
  - assert (H : forall h, (occurrences (adds h errors_)
                           <= occurrences h + length errors_)%nat).
    { induction errors_ as [|e es IH]; intros h; [simpl; lia|].
      change (adds h (e :: es)) with (adds (add h e) es).
      specialize (IH (add h e)).
      destruct (add_occurrences h e) as [Hle _]. cbn [length]. lia. }
    apply (H (new_ErrorHistory C)).
  - assert (H : forall h,
               (Z.of_nat (length (errors h) + length errors_) <= maxSize h)%Z ->
               occurrences (adds h errors_) = (occurrences h + length errors_)%nat).
    { induction errors_ as [|e es IH]; intros h Hh; [simpl; lia|].
      change (adds h (e :: es)) with (adds (add h e) es).
      cbn [length] in Hh.
      destruct (add_occurrences h e) as [_ Heq].
      destruct Heq as [Heq Hlen]; [lia|].
      rewrite IH; [cbn [length]; lia|]. rewrite add_maxSize. lia. }
    intros HC. apply (H (new_ErrorHistory C)). simpl. lia.
Qed.

(** The signatures of the sorted diagnoses are the sorted signatures. *)
Lemma sort_by_signature (a : list Diagnosis) :
  List.map signature (sort_by issue_le a)
  = sort_by (fun x y => (localeCompare x.1.1 y.1.1 <=? 0)%Z) (List.map signature a).
Proof. apply sort_by_map. reflexivity. Qed.

Lemma every_match_signature (a b : list Diagnosis) :
  length a = length b ->
  every_match a b = true <-> List.map signature a = List.map signature b.
Proof.
  revert b. induction a as [|x a IH]; intros [|y b] Hl; try discriminate.
  - split; reflexivity.
  - injection Hl as Hl. cbn [every_match List.map]. rewrite !andb_true_iff, (IH b Hl).
    rewrite !String.eqb_eq. unfold signature. split.
    + intros [[[-> ->] ->] ->]. reflexivity.
    + intros [= -> -> -> ->]. auto.
Qed.

(** X21.  [diagnosesMatch] looks at the title, the description and the
    recommendation only: two lists with the same signatures in the same
    order match, whatever their severities, patterns and code examples,
    and two lists that match have the same signatures up to their order. *)
Theorem diagnosesMatch_signature (a b : list Diagnosis) :
  (List.map signature a = List.map signature b -> diagnosesMatch a b = true)
  /\ (diagnosesMatch a b = true -> Permutation (List.map signature a) (List.map signature b)).
Proof.
  unfold ExpressMiddleware.diagnosesMatch. split.
  - intros H.
    assert (Hl : length a = length b)
      by (rewrite <- (length_map signature a), H; apply length_map).
    rewrite Hl, Nat.eqb_refl. cbn [negb].
    apply every_match_signature; [now rewrite !sort_by_length|].
    now rewrite !sort_by_signature, H.
  - destruct (Nat.eqb_spec (length a) (length b)) as [Hl|]; [|discriminate].
    cbn [negb]. intros H.
    apply every_match_signature in H; [|now rewrite !sort_by_length].
    rewrite <- (sort_by_permutation issue_le a), <- (sort_by_permutation issue_le b).
    now rewrite H.
Qed.

End History.

(** X22.  [getAll] returns the entries of the ledger, all of them and no
    other, newest first; entries of one time keep the order they have in
    the ledger. *)
Theorem getAll_newest_first (h : ErrorHistory) :
  Permutation (getAll h) (errors h)
  /\ StronglySorted (fun a b => (timestamp b <= timestamp a)%Z) (getAll h)
  /\ forall t, List.filter (fun e => (timestamp e =? t)%Z) (getAll h)
               = List.filter (fun e => (timestamp e =? t)%Z) (errors h).
Proof.
  unfold getAll.
  rewrite (sort_by_ext _ (SortFacts.rank_le (fun e => (- timestamp e)%Z)))
    by (intros a b; unfold SortFacts.rank_le; f_equal; lia).
  split; [apply SortFacts.sort_by_perm|]. split.
  - pose proof (SortFacts.sort_by_sorted (fun e => (- timestamp e)%Z) (errors h)) as H.
    unfold SortFacts.rank_sorted in H.
    induction H as [|e l Hl IH He]; constructor; [exact IH|].
    eapply Forall_impl; [exact He|]. intros b Hb. simpl in Hb. lia.
  - intros t.
    pose proof (SortFacts.sort_by_stable (fun e => (- timestamp e)%Z) (- t)%Z (errors h))
      as H.
    assert (Hf : forall l : list CorsError,
               List.filter (fun e => (timestamp e =? t)%Z) l
               = List.filter (fun e => (- timestamp e =? - t)%Z) l).
    { intros l. apply List.filter_ext. intros e.
      destruct (Z.eqb_spec (timestamp e) t), (Z.eqb_spec (- timestamp e) (- t));
        try reflexivity; lia. }
    rewrite !Hf. exact H.
Qed.

Lemma adds_occurrences_witness :
  (Z.of_nat (length [sample "/a" 1%Z; sample "/b" 2%Z; sample "/a" 3%Z]) <= 5)%Z
  /\ occurrences (adds codeUnitCompare (new_ErrorHistory 5%Z)
                    [sample "/a" 1%Z; sample "/b" 2%Z; sample "/a" 3%Z])
     = length [sample "/a" 1%Z; sample "/b" 2%Z; sample "/a" 3%Z].
Proof.
  split; [vm_compute; discriminate|].
  apply (adds_occurrences codeUnitCompare 5%Z
           [sample "/a" 1%Z; sample "/b" 2%Z; sample "/a" 3%Z]).
  vm_compute. discriminate.
Defined.

Lemma diagnosesMatch_signature_witness :
  let a := [ {| issue := "Origin Mismatch"; description := "d"; recommendation := "r";
                codeExample := None; pattern := None;
                severity := Some SecurityAdvisor.critical |} ] in
  let b := [ {| issue := "Origin Mismatch"; description := "d"; recommendation := "r";
                codeExample := Some "code"; pattern := Some "port-mismatch";
                severity := Some SecurityAdvisor.info |} ] in
  List.map signature a = List.map signature b
  /\ diagnosesMatch codeUnitCompare a b = true.
Proof.
  intros a b. split; [reflexivity|].
  apply (proj1 (diagnosesMatch_signature codeUnitCompare a b)). reflexivity.
Defined.

End ErrorHistoryExtra.

(* ===================================================================== *)
(** * The middleware *)
(* ===================================================================== *)

Module CorsDiagnoserExtra.

Import SecurityAdvisor Analyzer ExpressMiddleware Logging CorsDiagnoser.
Import AnalyzeHeadersExtra ErrorHistoryExtra.

Section Middleware.

Variable URL : string -> option PatternMatcher.URLRecord.
Variable localeCompare : string -> string -> Z.

Abbreviation performAnalysis := (performAnalysis URL localeCompare).
Abbreviation performAnalysis_calls := (performAnalysis_calls URL localeCompare).
Abbreviation run := (run URL localeCompare).
Abbreviation step := (step URL localeCompare).

Lemma performAnalysis_sets_flag (options : CorsMiddlewareOptions) (c : Captured)
    (isoNow : string) (now : Z) (analyzed : bool) (w : World) :
  (performAnalysis options c isoNow now analyzed w).1 = true.
Proof.
  unfold CorsDiagnoser.performAnalysis.
  destruct analyzed; [reflexivity|].
  destruct (analyzeHeaders _ _ _) as [ds|e]; [|reflexivity].
  repeat lazymatch goal with
  | |- context [if ?b then _ else _] => destruct b
  end; reflexivity.
Qed.

Lemma performAnalysis_calls_analyzed (options : CorsMiddlewareOptions) (c : Captured)
    (clock : list (string * Z)) (w : World) :
  performAnalysis_calls options c clock true w = (true, w).
Proof.
  unfold CorsDiagnoser.performAnalysis_calls.
  induction clock as [|t clock IH]; [reflexivity|]. cbn [fold_left]. exact IH.
Qed.

(** X23.  Of the calls of [performAnalysis] for one request (by
    [res.send], [res.json] and the finish event) only the first one
    acts: the later ones leave the history and the console as they are. *)
Theorem performAnalysis_once (options : CorsMiddlewareOptions) (c : Captured)
    (t : string * Z) (clock : list (string * Z)) (w : World) :
  performAnalysis_calls options c (t :: clock) false w
  = performAnalysis options c t.1 t.2 false w.
Proof.
  unfold CorsDiagnoser.performAnalysis_calls. cbn [fold_left fst snd].
  pose proof (performAnalysis_sets_flag options c t.1 t.2 false w) as Hflag.
  destruct (performAnalysis options c t.1 t.2 false w) as [flag w'].
  cbn [fst] in Hflag. subst flag.
  apply performAnalysis_calls_analyzed.
Qed.

(** X24.  When the view of the response holds a number under
    Access-Control-Allow-Methods, Access-Control-Allow-Headers or
    Access-Control-Expose-Headers (a number that is not zero: a zero sets
    no key of the view), the middleware reports no diagnosis at all: it
    logs one error on the console, and the history stays as it is. *)
Theorem performAnalysis_numeric_header (options : CorsMiddlewareOptions) (c : Captured)
    (isoNow : string) (now : Z) (w : World) (k : string) (n : Z) :
  k ∈ ["access-control-allow-methods"; "access-control-allow-headers";
       "access-control-expose-headers"] ->
  parseHeaders (Some (getHeaders (cap_res c))) !! k = Some (HNum n) ->
  n <> 0%Z
  /\ performAnalysis options c isoNow now false w
     = (true,
        {| errorHistory := errorHistory w;
           console := console w ++
                      [console_error [PString "[CORS-DIAGNOSER] Error during analysis:";
                                      PError TypeError]] |}).
Proof.
  intros Hk Hn. split.
  { pose proof (UtilsFacts.parseHeaders_truthy _ _ _ Hn) as Ht. cbn in Ht.
    intros ->. discriminate Ht. }
  unfold CorsDiagnoser.performAnalysis.
  destruct (analyzeHeaders URL (cap_req c) (cap_res c)) as [ds|[]] eqn:E; [|reflexivity].
  exfalso.
  apply analyzeHeaders_flat in E as (adhoc & config & _ & _ & _ & _ & Hm & Ha & He).
  rewrite !elem_of_cons, elem_of_nil in Hk.
  destruct Hk as [->|[->|[->|[]]]]; rewrite Hn in *; discriminate.
Qed.

(** What the history keeps through an event. *)
Lemma step_history (w : World) (event : Event) (h : ErrorHistory) :
  errorHistory w = Some h ->
  (Z.of_nat (length (errors h)) <= Z.max 0 (maxSize h))%Z ->
  exists h', errorHistory (step w event) = Some h'
             /\ maxSize h' = maxSize h
             /\ (Z.of_nat (length (errors h')) <= Z.max 0 (maxSize h'))%Z.
Proof.
  intros Hh Hlen. destruct event as [options|options c isoNow now|].
  - exists h. cbn [Vocabulary.step]. unfold corsDiagnoser. rewrite Hh. auto.
  - cbn [Vocabulary.step]. unfold CorsDiagnoser.performAnalysis. rewrite Hh.
    destruct (analyzeHeaders _ _ _) as [ds|e]; [|exists h; auto].
    destruct (0 <? length _)%nat.
    + destruct (default true (enableHistory options)); [|exists h; auto].
      eexists. split; [reflexivity|]. rewrite add_maxSize. split; [reflexivity|].
      now apply add_within_capacity.
    + destruct (default false (verbose options)); exists h; auto.
  - cbn [Vocabulary.step]. unfold clearErrorHistory. rewrite Hh.
    eexists. split; [reflexivity|]. split; [reflexivity|]. simpl. lia.
Qed.

(** X25.  The first [corsDiagnoser] that enables the history settles its
    capacity for good: whatever follows (other calls of [corsDiagnoser]
    with other sizes, analyses, [clearErrorHistory]), the history exists,
    has that capacity, and holds no more entries than it. *)
Theorem history_capacity (options : CorsMiddlewareOptions) (w : World)
    (events : list Event) :
  errorHistory w = None ->
  enableHistory options <> Some false ->
  exists h,
    errorHistory (run events (corsDiagnoser options w)) = Some h
    /\ maxSize h = default 100%Z (maxHistorySize options)
    /\ (Z.of_nat (length (errors h)) <= Z.max 0 (maxSize h))%Z.
Proof.
  intros Hnone Hen.
  assert (Hrun : forall w0 h0,
             errorHistory w0 = Some h0 ->
             (Z.of_nat (length (errors h0)) <= Z.max 0 (maxSize h0))%Z ->
             exists h, errorHistory (run events w0) = Some h
                       /\ maxSize h = maxSize h0
                       /\ (Z.of_nat (length (errors h)) <= Z.max 0 (maxSize h))%Z).
  { induction events as [|event events IH]; intros w0 h0 H0 Hlen; [exists h0; auto|].
    destruct (step_history w0 event h0 H0 Hlen) as (h1 & H1 & Hm1 & Hl1).
    destruct (IH _ _ H1 Hl1) as (h & Hh & Hm & Hl).
    exists h. split; [exact Hh|]. split; [congruence | exact Hl]. }
  apply (Hrun _ (new_ErrorHistory (default 100%Z (maxHistorySize options)))).
  - unfold corsDiagnoser. rewrite Hnone.
    destruct (enableHistory options) as [[|]|]; [reflexivity | congruence | reflexivity].
  - simpl. lia.
Qed.

End Middleware.

Lemma performAnalysis_numeric_header_witness :
  let options := {| verbose := None; enableHistory := None; maxHistorySize := None;
                    securityChecks := None |} in
  let c := {| cap_route := "/api"; cap_method := "GET"; cap_origin := "https://example.com";
              cap_req := {| Utils.method := "GET";
                            Utils.headers :=
                              [("origin", RValue (HStr "https://example.com"))] |};
              cap_res := {| getHeaders :=
                              [("Access-Control-Expose-Headers", RValue (HNum 1))] |} |} in
  let w := {| errorHistory := Some (new_ErrorHistory 100); console := [] |} in
  1%Z <> 0%Z
  /\ performAnalysis (fun _ => None) codeUnitCompare options c
       "2024-01-01T00:00:00.000Z" 0 false w
     = (true,
        {| errorHistory := Some (new_ErrorHistory 100);
           console := [console_error [PString "[CORS-DIAGNOSER] Error during analysis:";
                                      PError TypeError]] |}).
Proof.
  intros options c w.
  apply (performAnalysis_numeric_header (fun _ => None) codeUnitCompare options c
           "2024-01-01T00:00:00.000Z" 0 w "access-control-expose-headers" 1).
  - right. right. left.
  - reflexivity.
Defined.

Lemma history_capacity_witness :
  let first := {| verbose := None; enableHistory := None; maxHistorySize := Some 1%Z;
                  securityChecks := None |} in
  let second := {| verbose := None; enableHistory := None; maxHistorySize := Some 50%Z;
                   securityChecks := None |} in
  let c := {| cap_route := "/api"; cap_method := "GET"; cap_origin := "https://example.com";
              cap_req := {| Utils.method := "GET";
                            Utils.headers :=
                              [("origin", RValue (HStr "https://example.com"))] |};
              cap_res := {| getHeaders := [] |} |} in
  let w := {| errorHistory := None; console := [] |} in
  exists h,
    errorHistory (run (fun _ => None) codeUnitCompare
                      [Installed second; Responded second c "2024-01-01T00:00:00.000Z" 0]
                      (corsDiagnoser first w)) = Some h
    /\ maxSize h = default 100%Z (maxHistorySize first)
    /\ (Z.of_nat (length (errors h)) <= Z.max 0 (maxSize h))%Z.
Proof.
  intros first second c w.
  apply (history_capacity (fun _ => None) codeUnitCompare first w); [reflexivity|].
  discriminate.
Defined.

End CorsDiagnoserExtra.
